(** * github-artifact-downloader: a shallow embedding of [main.py]

    The program is a sequential orchestration of HTTP calls, a polling
    loop and a zip extraction step.  Its functions are embedded as
    computations in a state-and-exception monad over a [world] that holds
    the file system, the wall clock and the trace of observable events
    (log records, HTTP requests, sleeps, notification attempts).  Whatever
    the code obtains from outside (HTTP responses, the zip decoder, names
    of temporary files, the order of directory scans, latencies) is read
    from an [environment] of oracles. *)

From Stdlib Require Import QArith Lqa Ascii String ssreflect.
From stdpp Require Import gmap strings list fin_maps pretty.
Close Scope Q_scope.
Set Warnings "-rewrite-rw".

(** ** Python values *)

(** A JSON scalar as [response.json()] delivers it; [JNull] is Python's
    [None]. *)
Inductive jval :=
| JNull
| JStr (s : string)
| JInt (z : Z)
| JBool (b : bool).

Global Instance jval_eq_dec : EqDecision jval.
Proof. solve_decision. Defined.

(** Python truthiness of a JSON scalar. *)
Definition truthy (v : jval) : bool :=
  match v with
  | JNull => false
  | JStr s => negb (String.eqb s "")
  | JInt z => negb (z =? 0)%Z
  | JBool b => b
  end.

(** The exceptions the program can see.  [RequestException] stands for the
    failures of [requests] that are not [HTTPError] (connection faults);
    [OSError] for [FileExistsError], [NotADirectoryError],
    [IsADirectoryError] and [FileNotFoundError]. *)
Inductive exn :=
| HTTPError
| RequestException
| RuntimeError (msg : string)
| ValueError
| KeyError (key : string)
| BadZipFile
| OSError.

Global Instance exn_eq_dec : EqDecision exn.
Proof. solve_decision. Defined.

(** [except Exception] catches every exception above. *)
Definition is_Exception (e : exn) : bool := true.

Definition is_HTTPError (e : exn) : bool :=
  match e with HTTPError => true | _ => false end.

Definition is_RuntimeError (e : exn) : bool :=
  match e with RuntimeError _ => true | _ => false end.

(** How a computation ends: a value, a raised exception, [sys.exit(code)]
    (a [SystemExit], which [except Exception] does not catch), or a loop of
    the model that ran out of fuel. *)
Inductive outcome (A : Type) :=
| Ok (a : A)
| Raise (e : exn)
| Exit (code : Z)
| OutOfFuel.
Arguments Ok {A} a.
Arguments Raise {A} e.
Arguments Exit {A} code.
Arguments OutOfFuel {A}.

(** ** [pathlib]: pure paths *)

(** A path is the list of its components; [output_dir / name] appends one
    component. *)
Definition path := list string.

Definition pjoin (d : path) (name : string) : path := d ++ [name].

(** [Path.name]: the final component. *)
Definition path_name (p : path) : string := default "" (last p).

Fixpoint str_take (n : nat) (s : string) : string :=
  match n, s with
  | S n', String c s' => String c (str_take n' s')
  | _, _ => ""
  end.

Fixpoint str_drop (n : nat) (s : string) : string :=
  match n, s with
  | S n', String _ s' => str_drop n' s'
  | _, _ => s
  end.

(** [name.rfind('.')] *)
Fixpoint rfind_dot (s : string) : option nat :=
  match s with
  | "" => None
  | String c s' =>
      match rfind_dot s' with
      | Some i => Some (S i)
      | None => if Ascii.eqb c "."%char then Some 0 else None
      end
  end.

(** The position [i] with [0 < i < len(name) - 1] at which [PurePath.suffix]
    and [PurePath.stem] split a name (CPython up to 3.13). *)
Definition suffix_index (name : string) : option nat :=
  match rfind_dot name with
  | Some i => if (0 <? i) && (i <? String.length name - 1) then Some i else None
  | None => None
  end.

Definition suffix (name : string) : string :=
  match suffix_index name with
  | Some i => str_drop i name
  | None => ""
  end.

Definition stem (name : string) : string :=
  match suffix_index name with
  | Some i => str_take i name
  | None => name
  end.

(** [f"{base}_{counter}{ext}"] *)
Definition numbered_name (base ext : string) (counter : nat) : string :=
  base +:+ "_" +:+ pretty counter +:+ ext.

(** ** The file system *)

Inductive node :=
| File (data : string)
| Dir.

Global Instance node_eq_dec : EqDecision node.
Proof. solve_decision. Defined.

Abbreviation fsmap := (gmap path node).

(** [Path.exists], [Path.is_file] *)
Definition fs_exists (m : fsmap) (p : path) : bool :=
  match m !! p with Some _ => true | None => false end.

Definition fs_is_file (m : fsmap) (p : path) : bool :=
  match m !! p with Some (File _) => true | _ => false end.

(** [d] is a proper ancestor of [p]. *)
Definition below (d p : path) : Prop := d `prefix_of` p ∧ d ≠ p.

Global Instance below_dec d p : Decision (below d p).
Proof. unfold below. apply _. Defined.

(** Every path strictly below [d], in the canonical order of the map; the
    order in which a scan delivers them is the environment's. *)
Definition fs_descendants (m : fsmap) (d : path) : list path :=
  filter (below d) (map_to_list m).*1.

(** The entries directly in [d] ([Path.iterdir]). *)
Definition fs_children (m : fsmap) (d : path) : list path :=
  filter (λ p, length p = S (length d)) (fs_descendants m d).

(** [os.makedirs(pre / rest, exist_ok=True)] given that [pre] is there:
    creates the missing directories from the top and stops with an error
    ([false]) at a component that is a regular file; the directories made
    before the error stay. *)
Fixpoint fs_makedirs (pre rest : path) (m : fsmap) : fsmap * bool :=
  match rest with
  | [] => (m, true)
  | c :: rest' =>
      let p := pjoin pre c in
      match m !! p with
      | None => fs_makedirs p rest' (<[p := Dir]> m)
      | Some Dir => fs_makedirs p rest' m
      | Some (File _) => (m, false)
      end
  end.

(** [shutil.rmtree(d, ignore_errors=True)] *)
Definition fs_rmtree (d : path) (m : fsmap) : fsmap :=
  filter (λ kv, ¬ d `prefix_of` kv.1) m.

(** [shutil.move(src, dst)] for a regular file [src]: a rename when [dst]
    does not exist, a replacement when [dst] is a regular file, a move into
    [dst] when it is a directory.  [None] is the raised error.  The parent
    of [dst] exists at every call the program makes. *)
Definition fs_move (src dst : path) (m : fsmap) : option fsmap :=
  match m !! src with
  | None => None
  | Some n =>
      match m !! dst with
      | Some Dir =>
          let dst' := pjoin dst (path_name src) in
          match m !! dst' with
          | Some _ => None
          | None => Some (<[dst' := n]> (delete src m))
          end
      | _ => Some (<[dst := n]> (delete src m))
      end
  end.

(** ** Zip archives *)

(** One member of an archive: its sanitised relative path, whether it is a
    directory entry, its data, and whether [ZipFile.open] can read it (a bad
    CRC, a bad local header or an encrypted member cannot be read). *)
Record zip_entry := ZipEntry {
  ze_path : path;
  ze_is_dir : bool;
  ze_data : string;
  ze_readable : bool
}.

(** [ZipFile._extract_member]: create the parent directories, then the
    directory or the file (replacing a regular file of that name).  The
    result is the file system afterwards and the exception raised, if
    any. *)
Definition fs_extract_member (target : path) (e : zip_entry) (m : fsmap)
  : fsmap * option exn :=
  let p := target ++ ze_path e in
  match fs_makedirs target (removelast (ze_path e)) m with
  | (m1, false) => (m1, Some OSError)
  | (m1, true) =>
      if ze_is_dir e then
        match m1 !! p with
        | Some (File _) => (m1, Some OSError)
        | Some Dir => (m1, None)
        | None => (<[p := Dir]> m1, None)
        end
      else if negb (ze_readable e) then (m1, Some BadZipFile)
      else
        match m1 !! p with
        | Some Dir => (m1, Some OSError)
        | _ => (<[p := File (ze_data e)]> m1, None)
        end
  end.

(** ** The remote API *)

(** The keys of a run object that the program reads.  [None] is a missing
    key, [Some JNull] a JSON null. *)
Record run_json := RunJson {
  rj_status : option jval;
  rj_conclusion : option jval;
  rj_name : option jval;
  rj_run_number : option jval
}.

(** [run.get(key)] and [run.get(key, default)] *)
Definition dict_get (field : option jval) : jval := default JNull field.
Definition dict_get_default (field : option jval) (d : jval) : jval := default d field.

(** The keys of an artifact object that the program reads; where present,
    [name] and [archive_download_url] are strings, as the API has them. *)
Record artifact_json := ArtifactJson {
  aj_expired : option jval;
  aj_name : option string;
  aj_archive_download_url : option string
}.

(** The three requests of the program, each sent with the bearer token. *)
Inductive request :=
| GetRun (repo run_id token : string)
| GetArtifacts (repo run_id token : string)
| GetArchive (download_url token : string).

Definition request_url (r : request) : string :=
  match r with
  | GetRun repo run_id _ =>
      "https://api.github.com/repos/" +:+ repo +:+ "/actions/runs/" +:+ run_id
  | GetArtifacts repo run_id _ =>
      "https://api.github.com/repos/" +:+ repo +:+ "/actions/runs/" +:+ run_id
        +:+ "/artifacts"
  | GetArchive url _ => url
  end.

(** What a request comes back with: a status that [raise_for_status]
    rejects, a fault below HTTP, or a body. *)
Inductive api_result (A : Type) :=
| HttpFail
| NetFault
| Body (a : A).
Arguments HttpFail {A}.
Arguments NetFault {A}.
Arguments Body {A} a.

(** ** Observable events *)

Inductive level := DEBUG | INFO | WARNING | ERROR.

(** The log records of [main.py], one constructor per call of [log]. *)
Inductive log_msg :=
| LNotificationSent (title : string)
| LPlyerFailed
| LNotificationSentVia (title : string)
| LNotificationFailed
| LNotificationSkipped (title : string)
| LWorkflowCompleted (status conclusion : jval)
| LWaiting (elapsed : Q) (status : jval)
| LNotCompletedWithin (timeout : Z)
| LFetchStatusFailed
| LDownloadingFrom (url : string)
| LDownloaded (bytes : nat)
| LDownloadedEmpty
| LExtracting
| LZipContains (entries : nat)
| LZipEntries (names : list path)
| LSkippingWrapper (name : string)
| LExtracted (name : string)
| LExtractedCount (files : nat)
| LExtractFailed (e : exn)
| LFetchingRun (url : string)
| LFetchingArtifacts (url : string)
| LFoundArtifact (name : string)
| LNoNonExpired
| LRunDetails (run_number name status conclusion : jval)
| LFetchRunFailed
| LWaitingForWorkflow
| LMessage (msg : string)
| LWorkflowSucceeded
| LWorkflowConcluded (conclusion : jval)
| LSkippingDownload
| LStatusUnknown
| LListFailed
| LNoArtifacts
| LArtifactExists (name : string) (dir : path)
| LDownloadingArtifact (name : string)
| LDownloadedArtifact (name : string) (files : nat)
| LDownloadFailed (name : string) (e : exn)
| LAllDownloaded (dir : path) (total : nat).

Inductive event :=
| EvLog (lv : level) (m : log_msg)
| EvRequest (r : request)
| EvSleep (secs : Z)
| EvPlyerNotify (title message : string)
| EvNotifySend (title message : string).

(** ** The environment and the world *)

(** Everything the program receives from outside.  The oracles are indexed
    by the number of external calls made so far ([w_calls]). *)
Record environment := Environment {
  run_api : nat → string → string → api_result run_json;
  artifacts_api : nat → string → string → api_result (option (list artifact_json));
  (** the chunks of [iter_content], and whether the stream ends well *)
  archive_api : nat → string → api_result (list string * bool);
  (** the zip decoder: [None] when [ZipFile(path)] raises [BadZipFile] *)
  unzip : string → option (list zip_entry);
  (** names handed out by [tempfile] *)
  temp_name : nat → path;
  (** the order in which [rglob] delivers the entries it finds *)
  scandir_order : list path → list path;
  (** seconds an external call takes (for [time.sleep]: on top of the
      requested time) *)
  latency : nat → Q;
  (** [plyer]: not installed, or whether [notify] succeeds *)
  plyer : option bool;
  (** [platform.system() == "Linux"] and whether [notify-send] succeeds *)
  is_linux : bool;
  notify_send_ok : bool;
  (** [os.environ.get("GITHUB_TOKEN")] *)
  env_GITHUB_TOKEN : option string;
  (** [ghtoken]: not installed, or what [get_ghtoken()] returns, if it
      returns *)
  ghtoken : option (option string)
}.

Record world := World {
  w_fs : fsmap;
  w_now : Q;
  w_calls : nat;
  w_trace : list event
}.

(** ** The monad *)

Definition M (A : Type) : Type := world → outcome A * world.

Definition ret {A} (a : A) : M A := λ w, (Ok a, w).

Definition bind {A B} (c : M A) (k : A → M B) : M B :=
  λ w, match c w with
       | (Ok a, w') => k a w'
       | (Raise e, w') => (Raise e, w')
       | (Exit code, w') => (Exit code, w')
       | (OutOfFuel, w') => (OutOfFuel, w')
       end.

Notation "x <- c1 ;; c2" := (bind c1 (λ x, c2))
  (at level 100, c1 at next level, right associativity).
Notation "c1 ;;; c2" := (bind c1 (λ _, c2))
  (at level 100, right associativity).

Definition raise {A} (e : exn) : M A := λ w, (Raise e, w).

(** [sys.exit(code)] *)
Definition sys_exit {A} (code : Z) : M A := λ w, (Exit code, w).

Definition out_of_fuel {A} : M A := λ w, (OutOfFuel, w).

(** [try: body except <handles> as e: handler e] *)
Definition try_except {A} (body : M A) (handles : exn → bool)
    (handler : exn → M A) : M A :=
  λ w, match body w with
       | (Raise e, w') => if handles e then handler e w' else (Raise e, w')
       | r => r
       end.

(** [try: body finally: fin]: [fin] runs however [body] ends; what [fin]
    raises replaces the outcome of [body]. *)
Definition try_finally {A} (body : M A) (fin : M unit) : M A :=
  λ w, match body w with
       | (OutOfFuel, w') => (OutOfFuel, w')
       | (r, w') =>
           match fin w' with
           | (Ok _, w'') => (r, w'')
           | (Raise e, w'') => (Raise e, w'')
           | (Exit code, w'') => (Exit code, w'')
           | (OutOfFuel, w'') => (OutOfFuel, w'')
           end
       end.

Definition emit (ev : event) : M unit :=
  λ w, (Ok (), World (w_fs w) (w_now w) (w_calls w) (w_trace w ++ [ev])).

Definition log (lv : level) (m : log_msg) : M unit := emit (EvLog lv m).

Definition get_fs : M fsmap := λ w, (Ok (w_fs w), w).

Definition put_fs (m : fsmap) : M unit :=
  λ w, (Ok (), World m (w_now w) (w_calls w) (w_trace w)).

(** One external call: its index for the oracles; the clock advances by the
    call's latency. *)
Definition external_call (E : environment) : M nat :=
  λ w, (Ok (w_calls w),
        World (w_fs w) (w_now w + latency E (w_calls w))%Q (S (w_calls w)) (w_trace w)).

(** [time.time()] *)
Definition time_time : M Q := λ w, (Ok (w_now w), w).

Definition advance (secs : Q) : M unit :=
  λ w, (Ok (), World (w_fs w) (w_now w + secs)%Q (w_calls w) (w_trace w)).

(** [time.sleep(secs)]: a negative argument is a [ValueError]; otherwise the
    process is suspended for [secs] and the latency of the call. *)
Definition time_sleep (E : environment) (secs : Z) : M unit :=
  if (secs <? 0)%Z then raise ValueError
  else
    emit (EvSleep secs) ;;;
    advance (inject_Z secs) ;;;
    _ <- external_call E ;;
    ret ().

(** ** The functions of [main.py] *)

Section Program.

Variable E : environment.

(** [send_notification]: [plyer] first, then [notify-send] on Linux; never
    raises. *)
Definition send_notification (title message : string) : M unit :=
  fall_back <-
    match plyer E with
    | Some ok =>
        emit (EvPlyerNotify title message) ;;;
        if ok then log INFO (LNotificationSent title) ;;; ret false
        else log DEBUG LPlyerFailed ;;; ret true
    | None => ret true
    end ;;
  if fall_back then
    if is_linux E then
      emit (EvNotifySend title message) ;;;
      if notify_send_ok E then log INFO (LNotificationSentVia title)
      else log WARNING LNotificationFailed
    else log DEBUG (LNotificationSkipped title)
  else ret ().

(** The events of one call of [send_notification]. *)
Definition notification_events (title message : string) : list event :=
  match plyer E with
  | Some true => [EvPlyerNotify title message; EvLog INFO (LNotificationSent title)]
  | other =>
      (if other is Some _ then [EvPlyerNotify title message; EvLog DEBUG LPlyerFailed]
       else []) ++
      (if is_linux E then
         [EvNotifySend title message;
          if notify_send_ok E then EvLog INFO (LNotificationSentVia title)
          else EvLog WARNING LNotificationFailed]
       else [EvLog DEBUG (LNotificationSkipped title)])
  end.

(** [get_workflow_run] *)
Definition get_workflow_run (repo run_id token : string) : M run_json :=
  log INFO (LFetchingRun (request_url (GetRun repo run_id token))) ;;;
  emit (EvRequest (GetRun repo run_id token)) ;;;
  n <- external_call E ;;
  match run_api E n repo run_id with
  | NetFault => raise RequestException
  | HttpFail => raise HTTPError
  | Body run => ret run
  end.

Definition timeout_msg (timeout : Z) : string :=
  "Workflow did not complete within " +:+ pretty timeout +:+ " seconds".

Definition timeout_title : string := "⏱️ Workflow Timeout".

Definition timeout_notice (run_id : string) (timeout : Z) : string :=
  "Workflow run " +:+ run_id +:+ " did not complete within "
    +:+ pretty (timeout / 60)%Z +:+ " minutes".

(** One pass through the body of [while True] in
    [wait_for_workflow_completion]: [Some run] is [return run], [None] falls
    off the end of the body (after the sleep). *)
Definition wait_iteration (repo run_id token : string)
    (poll_interval timeout : Z) (start_time : Q) : M (option run_json) :=
  try_except
    (run <- get_workflow_run repo run_id token ;;
     let status := dict_get (rj_status run) in
     let conclusion := dict_get (rj_conclusion run) in
     if bool_decide (status = JStr "completed") then
       log INFO (LWorkflowCompleted status conclusion) ;;;
       ret (Some run)
     else
       now <- time_time ;;
       let elapsed := (now - start_time)%Q in
       log INFO (LWaiting elapsed status) ;;;
       if Qle_bool (inject_Z timeout) elapsed then
         log ERROR (LNotCompletedWithin timeout) ;;;
         send_notification timeout_title (timeout_notice run_id timeout) ;;;
         raise (RuntimeError (timeout_msg timeout))
       else
         time_sleep E poll_interval ;;;
         ret None)
    is_HTTPError
    (λ e, log ERROR LFetchStatusFailed ;;; raise e).

Fixpoint wait_loop (fuel : nat) (repo run_id token : string)
    (poll_interval timeout : Z) (start_time : Q) : M run_json :=
  match fuel with
  | 0 => out_of_fuel
  | S fuel' =>
      r <- wait_iteration repo run_id token poll_interval timeout start_time ;;
      match r with
      | Some run => ret run
      | None => wait_loop fuel' repo run_id token poll_interval timeout start_time
      end
  end.

(** [wait_for_workflow_completion]; [fuel] bounds the passes through the
    loop. *)
Definition wait_for_workflow_completion (fuel : nat) (repo run_id token : string)
    (poll_interval timeout : Z) : M run_json :=
  start_time <- time_time ;;
  wait_loop fuel repo run_id token poll_interval timeout start_time.

Definition token_missing_msg : string :=
  "GitHub token not found. Set GITHUB_TOKEN environment variable or install ghtoken package.".

(** [get_github_token] *)
Definition get_github_token : M string :=
  match env_GITHUB_TOKEN E with
  | Some (String c s) => ret (String c s)
  | _ =>
      match ghtoken E with
      | Some (Some token) => ret token
      | _ => raise (RuntimeError token_missing_msg)
      end
  end.

(** *** [download_zipfile] *)

(** [tempfile.NamedTemporaryFile(delete=False)]: a new empty file. *)
Definition named_temporary_file : M path :=
  n <- external_call E ;;
  m <- get_fs ;;
  put_fs (<[temp_name E n := File ""]> m) ;;;
  ret (temp_name E n).

(** [tempfile.mkdtemp()]: a new empty directory. *)
Definition mkdtemp : M path :=
  n <- external_call E ;;
  m <- get_fs ;;
  put_fs (<[temp_name E n := Dir]> m) ;;;
  ret (temp_name E n).

(** [output_dir.mkdir(parents=True, exist_ok=True)] *)
Definition mkdir_parents (d : path) : M unit :=
  m <- get_fs ;;
  match fs_makedirs [] d m with
  | (m', true) => put_fs m'
  | (m', false) => put_fs m' ;;; raise OSError
  end.

(** [requests.get(download_url, headers=headers, stream=True)] followed by
    [raise_for_status()]: the stream of chunks. *)
Definition requests_get_stream (download_url token : string)
  : M (list string * bool) :=
  emit (EvRequest (GetArchive download_url token)) ;;;
  n <- external_call E ;;
  match archive_api E n download_url with
  | NetFault => raise RequestException
  | HttpFail => raise HTTPError
  | Body stream => ret stream
  end.

(** The loop over [iter_content] inside [with tmp_path.open("wb")]: the
    file is truncated, every non-empty chunk is written and counted; a
    stream that breaks raises after the chunks that arrived. *)
Definition write_chunks (tmp_path : path) (stream : list string * bool) : M nat :=
  let chunks := filter (λ chunk, chunk ≠ "") stream.1 in
  m <- get_fs ;;
  put_fs (<[tmp_path := File (foldr String.append "" chunks)]> m) ;;;
  if stream.2 then ret (sum_list (String.length <$> chunks))
  else raise RequestException.

(** [tmp_path.stat().st_size] *)
Definition stat_size (p : path) : M nat :=
  m <- get_fs ;;
  match m !! p with
  | Some (File data) => ret (String.length data)
  | _ => raise OSError
  end.

(** [ZipFile(tmp_path)] *)
Definition ZipFile (p : path) : M (list zip_entry) :=
  m <- get_fs ;;
  match m !! p with
  | Some (File data) =>
      match unzip E data with
      | Some entries => ret entries
      | None => raise BadZipFile
      end
  | _ => raise OSError
  end.

(** [zf.extractall(target)]: the members in order, stopping at the first
    that fails. *)
Fixpoint extractall (entries : list zip_entry) (target : path) : M unit :=
  match entries with
  | [] => ret ()
  | e :: rest =>
      m <- get_fs ;;
      match fs_extract_member target e m with
      | (m', None) => put_fs m' ;;; extractall rest target
      | (m', Some err) => put_fs m' ;;; raise err
      end
  end.

(** [d.rglob("*")]: every entry below [d], in scan order. *)
Definition rglob (d : path) : M (list path) :=
  m <- get_fs ;;
  ret (scandir_order E (fs_descendants m d)).

Definition shutil_move (src dst : path) : M unit :=
  m <- get_fs ;;
  match fs_move src dst m with
  | Some m' => put_fs m'
  | None => raise OSError
  end.

Definition shutil_rmtree (d : path) : M unit :=
  m <- get_fs ;;
  put_fs (fs_rmtree d m).

(** [tmp_path.unlink(missing_ok=True)] *)
Definition unlink (p : path) : M unit :=
  m <- get_fs ;;
  put_fs (delete p m).

(** [while dest.exists(): dest = output_dir / f"{base}_{counter}{ext}";
    counter += 1], on the file system [m] (the loop does not change it). *)
Fixpoint free_name_loop (fuel : nat) (m : fsmap) (output_dir : path)
    (base ext : string) (dest : path) (counter : nat) : option path :=
  match fuel with
  | 0 => None
  | S fuel' =>
      if fs_exists m dest then
        free_name_loop fuel' m output_dir base ext
          (pjoin output_dir (numbered_name base ext counter)) (S counter)
      else Some dest
  end.

(** Lines 253-261: the destination of an item named [name]. *)
Definition resolve_dest (output_dir : path) (name : string) : M path :=
  m <- get_fs ;;
  let dest := pjoin output_dir name in
  if fs_exists m dest then
    let base := stem (path_name dest) in
    let ext := suffix (path_name dest) in
    match free_name_loop (2 + size m) m output_dir base ext dest 1 with
    | Some dest' => ret dest'
    | None => out_of_fuel
    end
  else ret dest.

Definition wrapper_name : string := "artifact.zip".

(** The body of [for item in temp_extract_dir.rglob("*")]: [Some dest] when
    the item was moved to [dest] and recorded. *)
Definition flatten_item (output_dir item : path) : M (option path) :=
  m <- get_fs ;;
  if fs_is_file m item then
    if bool_decide (path_name item = wrapper_name) then
      log INFO (LSkippingWrapper (path_name item)) ;;;
      ret None
    else
      dest <- resolve_dest output_dir (path_name item) ;;
      shutil_move item dest ;;;
      log INFO (LExtracted (path_name item)) ;;;
      ret (Some dest)
  else ret None.

Fixpoint flatten_items (output_dir : path) (items : list path)
    (extracted_files : list path) : M (list path) :=
  match items with
  | [] => ret extracted_files
  | item :: rest =>
      r <- flatten_item output_dir item ;;
      match r with
      | Some dest => flatten_items output_dir rest (extracted_files ++ [dest])
      | None => flatten_items output_dir rest extracted_files
      end
  end.

(** The body of [with ZipFile(tmp_path) as zf] (lines 233-275). *)
Definition extract_archive (tmp_path output_dir : path) (flatten : bool)
  : M (list path) :=
  file_list <- ZipFile tmp_path ;;
  log INFO (LZipContains (length file_list)) ;;;
  (if file_list is [] then ret ()
   else log DEBUG (LZipEntries (take 10 (ze_path <$> file_list)))) ;;;
  temp_extract_dir <- mkdtemp ;;
  extractall file_list temp_extract_dir ;;;
  extracted_files <-
    (if flatten then
       items <- rglob temp_extract_dir ;;
       flatten_items output_dir items []
     else
       extractall file_list output_dir ;;;
       items <- rglob output_dir ;;
       m <- get_fs ;;
       ret (filter (λ item, fs_is_file m item ∧ path_name item ≠ wrapper_name) items)) ;;
  shutil_rmtree temp_extract_dir ;;;
  log INFO (LExtractedCount (length extracted_files)) ;;;
  ret extracted_files.

(** [download_zipfile]; the headers carry the token. *)
Definition download_zipfile (download_url : string) (output_dir : path)
    (token : string) (flatten : bool) : M (list path) :=
  mkdir_parents output_dir ;;;
  tmp_path <- named_temporary_file ;;
  try_finally
    (log INFO (LDownloadingFrom download_url) ;;;
     response <- requests_get_stream download_url token ;;
     bytes_downloaded <- write_chunks tmp_path response ;;
     size <- stat_size tmp_path ;;
     log INFO (LDownloaded bytes_downloaded) ;;;
     if size =? 0 then
       log WARNING LDownloadedEmpty ;;;
       ret []
     else
       log INFO LExtracting ;;;
       try_except
         (extract_archive tmp_path output_dir flatten)
         is_Exception
         (λ e, log ERROR (LExtractFailed e) ;;; raise e))
    (unlink tmp_path).

(** *** [list_artifacts] *)

(** [for artifact in data.get("artifacts", [])]: the non-expired artifacts,
    in the order of the response; a missing key is a [KeyError]. *)
Fixpoint collect_artifacts (data : list artifact_json)
    (artifacts : list (string * string)) : M (list (string * string)) :=
  match data with
  | [] => ret artifacts
  | artifact :: rest =>
      if negb (truthy (dict_get_default (aj_expired artifact) (JBool false))) then
        match aj_name artifact with
        | None => raise (KeyError "name")
        | Some name =>
            match aj_archive_download_url artifact with
            | None => raise (KeyError "archive_download_url")
            | Some download_url =>
                log INFO (LFoundArtifact name) ;;;
                collect_artifacts rest (artifacts ++ [(name, download_url)])
            end
        end
      else collect_artifacts rest artifacts
  end.

Definition list_artifacts (repo run_id token : string)
  : M (list (string * string)) :=
  log INFO (LFetchingArtifacts (request_url (GetArtifacts repo run_id token))) ;;;
  emit (EvRequest (GetArtifacts repo run_id token)) ;;;
  n <- external_call E ;;
  match artifacts_api E n repo run_id with
  | NetFault => raise RequestException
  | HttpFail => raise HTTPError
  | Body data =>
      artifacts <- collect_artifacts (default [] data) [] ;;
      (if artifacts is [] then log WARNING LNoNonExpired else ret ()) ;;;
      ret artifacts
  end.

(** *** [download_artifacts] *)

(** [run[key]] *)
Definition dict_item (key : string) (field : option jval) : M jval :=
  match field with
  | Some v => ret v
  | None => raise (KeyError key)
  end.

(** Lines 366-388: the run as first fetched, or as the poller returns it
    when waiting is requested and the run has not completed. *)
Definition obtain_run (fuel : nat) (repo run_id token : string)
    (wait : bool) (poll_interval timeout : Z) : M run_json :=
  run <- try_except
           (run <- get_workflow_run repo run_id token ;;
            run_number <- dict_item "run_number" (rj_run_number run) ;;
            name <- dict_item "name" (rj_name run) ;;
            status <- dict_item "status" (rj_status run) ;;
            conclusion <- dict_item "conclusion" (rj_conclusion run) ;;
            log INFO (LRunDetails run_number name status conclusion) ;;;
            ret run)
           is_HTTPError
           (λ e, log ERROR LFetchRunFailed ;;; sys_exit 1) ;;
  if wait && negb (bool_decide (dict_get (rj_status run) = JStr "completed")) then
    log INFO LWaitingForWorkflow ;;;
    try_except
      (wait_for_workflow_completion fuel repo run_id token poll_interval timeout)
      is_RuntimeError
      (λ e, log ERROR (LMessage (match e with RuntimeError msg => msg | _ => "" end)) ;;;
            sys_exit 1)
  else ret run.

(** How a JSON scalar prints inside an f-string. *)
Definition jval_str (v : jval) : string :=
  match v with
  | JNull => "None"
  | JStr s => s
  | JInt z => pretty z
  | JBool true => "True"
  | JBool false => "False"
  end.

Definition succeeded_title : string := "✅ Workflow Succeeded".
Definition failed_title : string := "❌ Workflow Failed".

(** [f"Run #{run_number}: {run_name}\n..."], the line break written [\n]. *)
Definition run_headline (run_number run_name : jval) : string :=
  "Run #" +:+ jval_str run_number +:+ ": " +:+ jval_str run_name +:+ "\n".

(** Lines 391-414: go on only for the conclusion ["success"]. *)
Definition check_conclusion (run_id : string) (run : run_json) : M unit :=
  let conclusion := dict_get (rj_conclusion run) in
  let run_name := dict_get_default (rj_name run) (JStr "Unknown") in
  let run_number := dict_get_default (rj_run_number run) (JStr run_id) in
  if bool_decide (conclusion = JStr "success") then
    log INFO LWorkflowSucceeded ;;;
    send_notification succeeded_title
      (run_headline run_number run_name +:+ "Ready to download artifacts")
  else if bool_decide (conclusion ≠ JNull) then
    log ERROR (LWorkflowConcluded conclusion) ;;;
    send_notification failed_title
      (run_headline run_number run_name +:+ "Conclusion: " +:+ jval_str conclusion) ;;;
    log INFO LSkippingDownload ;;;
    sys_exit 1
  else
    log ERROR LStatusUnknown ;;;
    sys_exit 1.

(** [artifact_dir.exists() and any(artifact_dir.iterdir())]; [iterdir] on a
    regular file is a [NotADirectoryError]. *)
Definition exists_and_nonempty (artifact_dir : path) : M bool :=
  m <- get_fs ;;
  match m !! artifact_dir with
  | None => ret false
  | Some Dir => ret (negb (bool_decide (fs_children m artifact_dir = [])))
  | Some (File _) => raise OSError
  end.

(** The loop [for name, download_url in artifacts] (lines 435-455). *)
Fixpoint download_loop (output_path : path) (token : string) (flatten : bool)
    (artifacts : list (string * string)) (total_files : nat) : M nat :=
  match artifacts with
  | [] => ret total_files
  | (name, download_url) :: rest =>
      let artifact_dir := if flatten then output_path else pjoin output_path name in
      skip <- (if negb flatten then exists_and_nonempty artifact_dir else ret false) ;;
      if skip then
        log INFO (LArtifactExists name artifact_dir) ;;;
        download_loop output_path token flatten rest total_files
      else
        total_files' <-
          try_except
            (log INFO (LDownloadingArtifact name) ;;;
             extracted_files <- download_zipfile download_url artifact_dir token flatten ;;
             log INFO (LDownloadedArtifact name (length extracted_files)) ;;;
             ret (total_files + length extracted_files))
            is_Exception
            (λ e, log ERROR (LDownloadFailed name e) ;;; sys_exit 1) ;;
        download_loop output_path token flatten rest total_files'
  end.

(** [if token is None: token = get_github_token()] *)
Definition resolve_token (token : option string) : M string :=
  match token with
  | Some t => ret t
  | None => get_github_token
  end.

(** [download_artifacts]; [output_dir] is the parsed path. *)
Definition download_artifacts (fuel : nat) (repo run_id : string)
    (output_dir : option path) (token : option string)
    (flatten wait : bool) (poll_interval timeout : Z) : M unit :=
  token <- resolve_token token ;;
  let output_path := default ["artifacts-" +:+ run_id] output_dir in
  run <- obtain_run fuel repo run_id token wait poll_interval timeout ;;
  check_conclusion run_id run ;;;
  artifacts <- try_except (list_artifacts repo run_id token) is_HTTPError
                 (λ e, log ERROR LListFailed ;;; sys_exit 1) ;;
  (if artifacts is [] then log ERROR LNoArtifacts ;;; sys_exit 1 else ret ()) ;;;
  total_files <- download_loop output_path token flatten artifacts 0 ;;
  log INFO (LAllDownloaded output_path total_files).

End Program.

(** ** [parse_run_url] *)

(** A Python [str] is a sequence of Unicode code points. *)
Definition pystr := list N.

(** The code points of an ASCII literal. *)
Fixpoint lit (s : string) : pystr :=
  match s with
  | "" => []
  | String c s' => N_of_ascii c :: lit s'
  end.

Definition slash : N := 47.

(** The pieces of the pattern of [parse_run_url]: literal text (with [\.]
    read as the literal dot) and capturing groups of the form [(c+)] for a
    character class [c]. *)
Inductive charclass :=
| NotSlash       (* [^/] *)
| DecimalDigit.  (* \d  *)

Inductive rx_item :=
| Literal (text : pystr)
| GroupPlus (c : charclass).

Section Regex.

(** [\d] on [str] is the Unicode category Nd, a table of the interpreter. *)
Variable unicode_Nd : N → bool.

Definition in_class (c : charclass) (x : N) : bool :=
  match c with
  | NotSlash => negb (x =? slash)%N
  | DecimalDigit => unicode_Nd x
  end.

Fixpoint strip_prefix (text s : pystr) : option pystr :=
  match text, s with
  | [], _ => Some s
  | t :: text', x :: s' => if (t =? x)%N then strip_prefix text' s' else None
  | _ :: _, [] => None
  end.

(** The length of the longest prefix of [s] inside the class. *)
Fixpoint span (c : charclass) (s : pystr) : nat :=
  match s with
  | x :: s' => if in_class c x then S (span c s') else 0
  | [] => 0
  end.

(** A greedy quantifier gives back one character at a time: the lengths
    [k], [k-1], ..., [1] are tried in this order. *)
Fixpoint backtrack {A} (k : nat) (attempt : nat → option A) : option A :=
  match k with
  | 0 => None
  | S k' =>
      match attempt k with
      | Some r => Some r
      | None => backtrack k' attempt
      end
  end.

(** [re.match]: anchored at the start only; the captured groups. *)
Fixpoint re_match (pattern : list rx_item) (s : pystr) : option (list pystr) :=
  match pattern with
  | [] => Some []
  | Literal text :: rest =>
      match strip_prefix text s with
      | Some s' => re_match rest s'
      | None => None
      end
  | GroupPlus c :: rest =>
      backtrack (span c s)
        (λ k, match re_match rest (drop k s) with
              | Some groups => Some (take k s :: groups)
              | None => None
              end)
  end.

(** [r"https://github\.com/([^/]+)/([^/]+)/actions/runs/(\d+)"] *)
Definition run_url_pattern : list rx_item :=
  [ Literal (lit "https://github.com/"); GroupPlus NotSlash;
    Literal (lit "/"); GroupPlus NotSlash;
    Literal (lit "/actions/runs/"); GroupPlus DecimalDigit ].

Definition parse_run_url (url : pystr) : outcome (pystr * pystr) :=
  match re_match run_url_pattern url with
  | Some [owner; repo; run_id] => Ok (owner ++ lit "/" ++ repo, run_id)
  | _ => Raise ValueError
  end.

End Regex.

Definition ascii_digit (x : N) : bool := (48 <=? x)%N && (x <=? 57)%N.

(** ** The scenario of the specification

    Repository ["acme/app"], run ["123"], concluded with success, with the
    artifacts ["logs"] (holding [run.log] and [artifact.zip]) and ["build"]
    (holding [app.bin]). *)

Definition logs_url : string := "https://api.github.com/repos/acme/app/actions/artifacts/1/zip".
Definition build_url : string := "https://api.github.com/repos/acme/app/actions/artifacts/2/zip".

Definition logs_entries : list zip_entry :=
  [ ZipEntry ["run.log"] false "build started" true;
    ZipEntry ["artifact.zip"] false "PK-inner" true ].

Definition build_entries : list zip_entry :=
  [ ZipEntry ["app.bin"] false "ELF" true ].

Definition scenario_unzip (data : string) : option (list zip_entry) :=
  if String.eqb data "PK-logs" then Some logs_entries
  else if String.eqb data "PK-build" then Some build_entries
  else None.

Definition completed_run (conclusion : jval) : run_json :=
  RunJson (Some (JStr "completed")) (Some conclusion) (Some (JStr "CI")) (Some (JInt 7)).

Definition running_run : run_json :=
  RunJson (Some (JStr "in_progress")) (Some JNull) (Some (JStr "CI")) (Some (JInt 7)).

Definition scenario : environment := {|
  run_api := λ _ _ _, Body (completed_run (JStr "success"));
  artifacts_api := λ _ _ _,
    Body (Some [ ArtifactJson (Some (JBool false)) (Some "logs") (Some logs_url);
                 ArtifactJson (Some (JBool false)) (Some "build") (Some build_url) ]);
  archive_api := λ _ url,
    if String.eqb url logs_url then Body (["PK-"; "logs"], true)
    else if String.eqb url build_url then Body (["PK-build"], true)
    else HttpFail;
  unzip := scenario_unzip;
  temp_name := λ n, ["tmp"; "tmp" +:+ pretty n];
  scandir_order := λ l, l;
  latency := λ _, 0%Q;
  plyer := None;
  is_linux := true;
  notify_send_ok := true;
  env_GITHUB_TOKEN := Some "token";
  ghtoken := None
|}.

(** A world with nothing but the directory for temporary files. *)
Definition fresh_world : world := World {[ ["tmp"] := Dir ]} 0 0 [].

Definition set_fs (m : fsmap) (w : world) : world :=
  World m (w_now w) (w_calls w) (w_trace w).

Definition add_events (evs : list event) (w : world) : world :=
  World (w_fs w) (w_now w) (w_calls w) (w_trace w ++ evs).

(** The requests in a trace. *)
Definition requests_of (t : list event) : list request :=
  omap (λ ev, match ev with EvRequest r => Some r | _ => None end) t.

Definition sleeps_of (t : list event) : list Z :=
  omap (λ ev, match ev with EvSleep d => Some d | _ => None end) t.

Definition is_run_request (r : request) : Prop :=
  match r with GetRun _ _ _ => True | _ => False end.

(** The data model of the API: a run that has not completed has no
    conclusion yet. *)
Definition RunStatus_invariant (run : run_json) : Prop :=
  dict_get (rj_status run) ≠ JStr "completed" → dict_get (rj_conclusion run) = JNull.

(** A run that is still in progress at every fetch. *)
Definition still_running : environment := {|
  run_api := λ _ _ _, Body running_run;
  artifacts_api := artifacts_api scenario;
  archive_api := archive_api scenario;
  unzip := unzip scenario;
  temp_name := temp_name scenario;
  scandir_order := scandir_order scenario;
  latency := λ _, (1 # 2)%Q;
  plyer := Some false;
  is_linux := true;
  notify_send_ok := false;
  env_GITHUB_TOKEN := None;
  ghtoken := Some (Some "token")
|}.

(** A run that concluded with a failure. *)
Definition failed_run : environment := {|
  run_api := λ _ _ _, Body (completed_run (JStr "failure"));
  artifacts_api := artifacts_api scenario;
  archive_api := archive_api scenario;
  unzip := unzip scenario;
  temp_name := temp_name scenario;
  scandir_order := scandir_order scenario;
  latency := latency scenario;
  plyer := plyer scenario;
  is_linux := is_linux scenario;
  notify_send_ok := notify_send_ok scenario;
  env_GITHUB_TOKEN := env_GITHUB_TOKEN scenario;
  ghtoken := ghtoken scenario
|}.

(** A relation between the world before and after that every step of a
    computation respects. *)
Definition respects {A} (R : relation world) (c : M A) : Prop :=
  ∀ w, R w (c w).2.

(** The file system is as before and the only requests added to the trace
    are requests for the run. *)
Definition run_only (w w' : world) : Prop :=
  w_fs w' = w_fs w ∧
  ∃ t, w_trace w' = w_trace w ++ t ∧ Forall is_run_request (requests_of t).

(** What [parse_run_url] is to accept: the text
    [https://github.com/<owner>/<repo>/actions/runs/<run_id>] followed by
    [rest], where owner and repository are non-empty and free of slashes and
    the run id is the whole run of digits found there. *)
Definition is_run_url (unicode_Nd : N → bool) (url owner repo run_id rest : pystr)
  : Prop :=
  url = lit "https://github.com/" ++ owner ++ lit "/" ++ repo
          ++ lit "/actions/runs/" ++ run_id ++ rest ∧
  owner ≠ [] ∧ Forall (λ x, x ≠ slash) owner ∧
  repo ≠ [] ∧ Forall (λ x, x ≠ slash) repo ∧
  run_id ≠ [] ∧ Forall (λ x, unicode_Nd x = true) run_id ∧
  (∀ x, head rest = Some x → unicode_Nd x = false).

(** The events of one call of [get_workflow_run] and the world after it. *)
Definition fetch_events (repo run_id token : string) : list event :=
  [ EvLog INFO (LFetchingRun (request_url (GetRun repo run_id token)));
    EvRequest (GetRun repo run_id token) ].

Definition after_fetch (E : environment) (repo run_id token : string) (w : world)
  : world :=
  World (w_fs w) (w_now w + latency E (w_calls w))%Q (S (w_calls w))
    (w_trace w ++ fetch_events repo run_id token).

(** The world after [time.sleep(secs)] for [secs] that is not negative. *)
Definition after_sleep (E : environment) (secs : Z) (w : world) : world :=
  World (w_fs w) (w_now w + inject_Z secs + latency E (w_calls w))%Q (S (w_calls w))
    (w_trace w ++ [EvSleep secs]).

(** The clock never runs backwards: no external call takes negative time. *)
Definition clock_monotone (E : environment) : Prop :=
  ∀ n, (0 <= latency E n)%Q.

(** The run has not completed whenever it is fetched. *)
Definition never_completed (E : environment) (repo run_id : string) : Prop :=
  ∀ n, ∃ run, run_api E n repo run_id = Body run ∧
              dict_get (rj_status run) ≠ JStr "completed".

(** Whether a character occurs in a string. *)
Fixpoint str_mem (c : ascii) (s : string) : bool :=
  match s with
  | "" => false
  | String c' s' => Ascii.eqb c c' || str_mem c s'
  end.

(** [dest] is the destination lines 253-261 choose for an item named [name]
    when the file system is [m]: the plain name if it is free, and otherwise
    the name with the first counter, from 1 upwards, that makes it free,
    put between stem and suffix. *)
Definition resolved_name (m : fsmap) (output_dir : path) (name : string)
    (dest : path) : Prop :=
  m !! dest = None ∧
  (dest = pjoin output_dir name ∨
   (is_Some (m !! pjoin output_dir name) ∧
    ∃ k, 1 ≤ k ∧
         dest = pjoin output_dir (numbered_name (stem name) (suffix name) k) ∧
         ∀ j, 1 ≤ j < k →
              is_Some (m !! pjoin output_dir (numbered_name (stem name) (suffix name) j)))).

(** The items the flatten loop moves: the regular files not named
    [artifact.zip]. *)
Definition to_move (m : fsmap) (items : list path) : list path :=
  filter (λ item, fs_is_file m item = true ∧ path_name item ≠ wrapper_name) items.

(** [name'] is [name] or [name] with a counter between stem and suffix. *)
Definition name_or_numbered (name name' : string) : Prop :=
  name' = name ∨ ∃ k, name' = numbered_name (stem name) (suffix name) k.

(** [item], one of [items] and a regular file of [m], is at [dest] in [m'],
    directly in the output directory, under a name that was free in [m], is
    not [artifact.zip], and is the base name of the item, with a counter if
    need be. *)
Definition moved (output_dir : path) (items : list path) (m m' : fsmap)
    (item dest : path) : Prop :=
  item ∈ items ∧
  ∃ data name,
    m !! item = Some (File data) ∧ m' !! dest = Some (File data) ∧
    m' !! item = None ∧ m !! dest = None ∧
    dest = pjoin output_dir name ∧ name ≠ wrapper_name ∧
    name_or_numbered (path_name item) name.

(** No item lies directly in the output directory (the items are the
    contents of the temporary directory). *)
Definition apart (output_dir : path) (items : list path) : Prop :=
  ∀ item name, item ∈ items → item ≠ pjoin output_dir name.

(** The names [tempfile] hands out are not in use: nothing of [m] lies at
    or below one. *)
Definition temp_names_fresh (E : environment) (m : fsmap) : Prop :=
  ∀ n p, temp_name E n `prefix_of` p → m !! p = None.

(** A scan delivers the entries found, each once, in some order. *)
Definition scan_faithful (E : environment) : Prop :=
  ∀ l, scandir_order E l ≡ₚ l.

(** Every entry of [m0] is in the file system of [w], unchanged. *)
Definition keeps (m0 : fsmap) (w : world) : Prop := m0 ⊆ w_fs w.

(** [c] loses and replaces no entry of [m0], does not run out of fuel, and
    returns only values in [Q]. *)
Definition safe (m0 : fsmap) {A} (c : M A) (Q : A → Prop) : Prop :=
  ∀ w, keeps m0 w →
       keeps m0 (c w).2 ∧ (c w).1 ≠ OutOfFuel ∧ ∀ a, (c w).1 = Ok a → Q a.

(** An archive with a member that cannot be read. *)
Definition corrupt_entries : list zip_entry :=
  [ ZipEntry ["run.log"] false "build started" true;
    ZipEntry ["core.bin"] false "" false ].

Definition corrupt_archive : environment := {|
  run_api := run_api scenario;
  artifacts_api := artifacts_api scenario;
  archive_api := λ _ _, Body (["PK-corrupt"], true);
  unzip := λ data, if String.eqb data "PK-corrupt" then Some corrupt_entries else None;
  temp_name := temp_name scenario;
  scandir_order := scandir_order scenario;
  latency := latency scenario;
  plyer := plyer scenario;
  is_linux := is_linux scenario;
  notify_send_ok := notify_send_ok scenario;
  env_GITHUB_TOKEN := env_GITHUB_TOKEN scenario;
  ghtoken := ghtoken scenario
|}.

(** A download that delivers no bytes. *)
Definition empty_payload : environment := {|
  run_api := run_api scenario;
  artifacts_api := artifacts_api scenario;
  archive_api := λ _ _, Body ([""], true);
  unzip := unzip scenario;
  temp_name := temp_name scenario;
  scandir_order := scandir_order scenario;
  latency := latency scenario;
  plyer := plyer scenario;
  is_linux := is_linux scenario;
  notify_send_ok := notify_send_ok scenario;
  env_GITHUB_TOKEN := env_GITHUB_TOKEN scenario;
  ghtoken := ghtoken scenario
|}.

(** The output directory already holds [run.log] and [run_1.log]. *)
Definition occupied_world : world :=
  World (<[ ["out"; "run_1.log"] := File "older" ]>
           (<[ ["out"; "run.log"] := File "old" ]>
              (<[ ["out"] := Dir ]> {[ ["tmp"] := Dir ]})))
    0 0 [].

(** Like [occupied_world], with the archive of ["logs"] unpacked into a
    directory for temporary files. *)
Definition unpacked_world : world :=
  World (<[ ["tmp"; "tmp2"; "artifact.zip"] := File "PK-inner" ]>
           (<[ ["tmp"; "tmp2"; "run.log"] := File "build started" ]>
              (<[ ["tmp"; "tmp2"] := Dir ]> (w_fs occupied_world))))
    0 3 [].

(** The artifact ["logs"] was downloaded before, without flattening. *)
Definition downloaded_world : world :=
  World (<[ ["out"; "logs"; "run.log"] := File "build started" ]>
           (<[ ["out"; "logs"] := Dir ]>
              (<[ ["out"] := Dir ]> {[ ["tmp"] := Dir ]})))
    0 0 [].

(** The scenario without flattening, from a fresh world. *)
Definition scenario_unflattened : outcome unit * world :=
  download_artifacts scenario 0 "acme/app" "123" (Some ["out"]) None
    false true 60 1800 fresh_world.

(** ** The entry point *)

(** The namespace [parser.parse_args()] returns. *)
Record arguments := Arguments {
  arg_input : pystr;
  arg_run_id_or_output : option pystr;
  arg_output_dir : option pystr;
  arg_token : option pystr;
  arg_no_flatten : bool;
  arg_no_wait : bool;
  arg_poll_interval : Z;
  arg_timeout : Z
}.

Definition is_ValueError (e : exn) : bool :=
  match e with ValueError => true | _ => false end.

(** A computation that does not touch the world. *)
Definition pure_outcome {A} (o : outcome A) : M A := λ w, (o, w).

Definition usage_msg : string :=
  "Error: When using 'owner/repo' format, run_id is required\nUsage: python download_artifacts.py owner/repo run_id [output_dir]".

Section Entry.

Variable E : environment.

(** [\d] of the interpreter, the bytes of a [str], [Path(...)] of a [str],
    and [str(e)] of an exception. *)
Variable unicode_Nd : N → bool.
Variable encode : pystr → string.
Variable to_path : pystr → path.
Variable exn_text : exn → string.

(** [str(e)] for the [ValueError] of [parse_run_url]. *)
Definition invalid_url_msg (url : pystr) : string :=
  "Invalid GitHub Actions run URL: " +:+ encode url
    +:+ "\nExpected format: https://github.com/owner/repo/actions/runs/run_id".

(** [s.startswith(prefix)] *)
Definition startswith (s : pystr) (pre : string) : bool :=
  bool_decide (lit pre `prefix_of` s).

(** Lines 533-558 of [main]: repository, run id and output directory from
    the positional arguments. *)
Definition parse_input (args : arguments)
  : M (pystr * pystr * option pystr) :=
  if startswith (arg_input args) "http://" || startswith (arg_input args) "https://" then
    parsed <- try_except
                (pure_outcome (parse_run_url unicode_Nd (arg_input args)))
                is_ValueError
                (λ e, log ERROR (LMessage (invalid_url_msg (arg_input args))) ;;;
                      sys_exit 1) ;;
    ret (parsed.1, parsed.2, arg_run_id_or_output args)
  else
    match arg_run_id_or_output args with
    | Some (c :: run_id) => ret (arg_input args, c :: run_id, arg_output_dir args)
    | _ => log ERROR (LMessage usage_msg) ;;; sys_exit 1
    end.

(** [main], after [parse_args]. *)
Definition main (fuel : nat) (args : arguments) : M unit :=
  parsed <- parse_input args ;;
  let '(repo, run_id, output_dir) := parsed in
  try_except
    (download_artifacts E fuel (encode repo) (encode run_id)
       (to_path <$> output_dir) (encode <$> arg_token args)
       (negb (arg_no_flatten args)) (negb (arg_no_wait args))
       (arg_poll_interval args) (arg_timeout args))
    is_RuntimeError
    (λ e, log ERROR (LMessage (match e with RuntimeError msg => msg | _ => "" end)) ;;;
          sys_exit 1).

(** The block under [if __name__ == "__main__"], but for
    [KeyboardInterrupt], which no statement of the program raises. *)
Definition script (fuel : nat) (args : arguments) : M unit :=
  try_except (main fuel args) is_Exception
    (λ e, log ERROR (LMessage ("Unexpected error: " +:+ exn_text e)) ;;;
          sys_exit 1).

End Entry.

(** An environment that answers the fetches of the run with [runs], the
    listing with [listing] and a download with [archive]; the rest is as in
    [scenario]. *)
Definition scripted (runs : nat → api_result run_json)
    (listing : api_result (option (list artifact_json)))
    (archive : string → api_result (list string * bool)) : environment := {|
  run_api := λ n _ _, runs n;
  artifacts_api := λ _ _ _, listing;
  archive_api := λ _ url, archive url;
  unzip := unzip scenario;
  temp_name := temp_name scenario;
  scandir_order := scandir_order scenario;
  latency := λ _, (1 # 4)%Q;
  plyer := plyer scenario;
  is_linux := is_linux scenario;
  notify_send_ok := notify_send_ok scenario;
  env_GITHUB_TOKEN := env_GITHUB_TOKEN scenario;
  ghtoken := ghtoken scenario
|}.

(** The artifacts a listing offers: the entries that are not expired, with
    name and download address, in the order of the listing. *)
Definition available (a : artifact_json) : bool :=
  negb (truthy (dict_get_default (aj_expired a) (JBool false))).

Definition offered (data : list artifact_json) : list (string * string) :=
  omap (λ a, if available a then
               match aj_name a, aj_archive_download_url a with
               | Some name, Some download_url => Some (name, download_url)
               | _, _ => None
               end
             else None) data.

(** An entry that is not expired has both keys. *)
Definition well_formed_entry (a : artifact_json) : Prop :=
  available a = true → is_Some (aj_name a) ∧ is_Some (aj_archive_download_url a).

(** All four keys that [download_artifacts] subscripts are present. *)
Definition has_all_keys (run : run_json) : Prop :=
  is_Some (rj_run_number run) ∧ is_Some (rj_name run) ∧
  is_Some (rj_status run) ∧ is_Some (rj_conclusion run).

(** The log records of the entries a listing offers. *)
Definition found_events (data : list artifact_json) : list event :=
  (λ a, EvLog INFO (LFoundArtifact a.1)) <$> offered data.

(** The world after the request for the listing was sent and answered. *)
Definition after_listing (E : environment) (repo run_id token : string) (w : world)
  : world :=
  World (w_fs w) (w_now w + latency E (w_calls w))%Q (S (w_calls w))
    (w_trace w
     ++ [ EvLog INFO (LFetchingArtifacts (request_url (GetArtifacts repo run_id token)));
          EvRequest (GetArtifacts repo run_id token) ]).

(** How a computation may end: with a value or an exception, or with an
    exit code that [exits] accepts; never out of fuel. *)
Definition ending {A} (exits : Z → Prop) (o : outcome A) : Prop :=
  match o with
  | Exit code => exits code
  | OutOfFuel => False
  | _ => True
  end.

(** From [w] to [w']: what was added to the trace holds no sleep and no
    requests but those of [l], in their order and each at most once; and the
    file system is as it was at every path that is not [allowed]. *)
Definition step (allowed : path → Prop) (l : list request) (w w' : world) : Prop :=
  (∃ t, w_trace w' = w_trace w ++ t ∧ requests_of t `sublist_of` l ∧ sleeps_of t = []) ∧
  (∀ p, ¬ allowed p → w_fs w' !! p = w_fs w !! p).

Definition behaves (allowed : path → Prop) (exits : Z → Prop) {A}
    (l : list request) (c : M A) (Q : A → Prop) : Prop :=
  ∀ w, step allowed l w (c w).2 ∧ ending exits (c w).1 ∧ ∀ a, (c w).1 = Ok a → Q a.

(** The requests for the archives of a listing. *)
Definition archive_requests (token : string) (artifacts : list (string * string))
  : list request :=
  (λ a, GetArchive a.2 token) <$> artifacts.

(** The paths [download_artifacts] may touch: the output directory, what is
    above and below it, and what is at or below a temporary name. *)
Definition touchable (E : environment) (output_dir : path) (p : path) : Prop :=
  p `prefix_of` output_dir ∨ output_dir `prefix_of` p ∨
  ∃ n, temp_name E n `prefix_of` p.

(** The only exit code [c] uses is 1. *)
Definition exits_with_1 {A} (c : M A) : Prop :=
  ∀ w code, (c w).1 = Exit code → code = 1%Z.

(** The file system is as before at every path that is not [allowed]. *)
Definition outside (allowed : path → Prop) (w w' : world) : Prop :=
  ∀ p, ¬ allowed p → w_fs w' !! p = w_fs w !! p.

(** A request for an archive, sent with [token]. *)
Definition is_archive_request (token : string) (r : request) : Prop :=
  ∃ download_url, r = GetArchive download_url token.

(** Every regular file below [d] is still a regular file (its content may
    have changed). *)
Definition keeps_files_below (d : path) (w w' : world) : Prop :=
  ∀ g, below d g → fs_is_file (w_fs w) g = true → fs_is_file (w_fs w') g = true.

(** ** Further scenarios *)

(** A [str] of ASCII characters as text, and as a path of one component. *)
Fixpoint ascii_text (s : pystr) : string :=
  match s with
  | [] => ""
  | c :: s' => String (ascii_of_N c) (ascii_text s')
  end.

Definition single_component (s : pystr) : path := [ascii_text s].

Definition succeeded : nat → api_result run_json :=
  λ _, Body (completed_run (JStr "success")).

(** The second entry of the listing has no name. *)
Definition nameless_listing : environment :=
  scripted succeeded
    (Body (Some [ ArtifactJson (Some (JBool false)) (Some "logs") (Some logs_url);
                  ArtifactJson None None (Some build_url) ]))
    (λ _, HttpFail).

(** Every request is rejected. *)
Definition rejected_fetch : environment :=
  scripted (λ _, HttpFail) HttpFail (λ _, HttpFail).

(** The run is in progress at the first fetch; the second is rejected. *)
Definition rejected_while_polling : environment :=
  scripted (λ n, if n is 0 then Body running_run else HttpFail) HttpFail (λ _, HttpFail).

(** The only artifact has expired. *)
Definition expired_listing : environment :=
  scripted succeeded
    (Body (Some [ ArtifactJson (Some (JBool true)) (Some "logs") (Some logs_url) ]))
    (λ _, HttpFail).

Definition rejected_listing : environment :=
  scripted succeeded HttpFail (λ _, HttpFail).

Definition rejected_download : environment :=
  scripted succeeded (artifacts_api scenario 0 "acme/app" "123") (λ _, HttpFail).

(** The download is not a zip archive. *)
Definition garbage_download : environment :=
  scripted succeeded (artifacts_api scenario 0 "acme/app" "123")
    (λ _, Body (["<html>"; "oops"], true)).

(** No token anywhere: the variable is empty and [ghtoken] fails. *)
Definition no_token : environment := {|
  run_api := run_api scenario;
  artifacts_api := artifacts_api scenario;
  archive_api := archive_api scenario;
  unzip := unzip scenario;
  temp_name := temp_name scenario;
  scandir_order := scandir_order scenario;
  latency := latency scenario;
  plyer := plyer scenario;
  is_linux := is_linux scenario;
  notify_send_ok := notify_send_ok scenario;
  env_GITHUB_TOKEN := Some "";
  ghtoken := Some None
|}.

Definition owner_repo_args : arguments :=
  Arguments (lit "acme/app") (Some (lit "123")) None None false false 60 1800.

Definition run_url_args : arguments :=
  Arguments (lit "https://github.com/acme/app/actions/runs/123") (Some (lit "out"))
    (Some (lit "elsewhere")) (Some (lit "token")) false false 60 1800.

Definition plain_http_args : arguments :=
  Arguments (lit "http://github.com/acme/app/actions/runs/123") None None None
    false false 60 1800.

Definition no_run_id_args : arguments :=
  Arguments (lit "acme/app") (Some []) None None false false 60 1800.

(** A regular file stands where the directory of ["logs"] should be. *)
Definition blocked_world : world :=
  World (<[ ["out"; "logs"] := File "not a directory" ]>
           (<[ ["out"] := Dir ]> {[ ["tmp"] := Dir ]}))
    0 0 [].

(** The output directory holds a file from before, and there is a file
    elsewhere. *)
Definition kept_world : world :=
  World (<[ ["home"; "notes.txt"] := File "mine" ]>
           (<[ ["home"] := Dir ]>
              (<[ ["out"; "old.txt"] := File "old" ]>
                 (<[ ["out"] := Dir ]> {[ ["tmp"] := Dir ]}))))
    0 0 [].

(** * Properties *)

(** ** The monad *)

Lemma add_events_app a b w : add_events b (add_events a w) = add_events (a ++ b) w.
Proof. unfold add_events. simpl. by rewrite app_assoc. Qed.

Lemma log_spec lv m w : log lv m w = (Ok (), add_events [EvLog lv m] w).
Proof. reflexivity. Qed.

Lemma bind_Ok {A B} (c : M A) (k : A → M B) w a w' :
  c w = (Ok a, w') → bind c k w = k a w'.
Proof. unfold bind. by intros ->. Qed.

Lemma bind_Raise {A B} (c : M A) (k : A → M B) w e w' :
  c w = (Raise e, w') → bind c k w = (Raise e, w').
Proof. unfold bind. by intros ->. Qed.

Lemma bind_Ok_inv {A B} (c : M A) (k : A → M B) w b w' :
  bind c k w = (Ok b, w') → ∃ a w1, c w = (Ok a, w1) ∧ k a w1 = (Ok b, w').
Proof.
  unfold bind. destruct (c w) as [[a| | |] w1]; intros H; try discriminate.
  by exists a, w1.
Qed.

Section Respects.
Context (R : relation world) `{!Reflexive R, !Transitive R}.

Lemma respects_ret {A} (a : A) : respects R (ret a).
Proof. intros w. simpl. reflexivity. Qed.

Lemma respects_raise {A} e : respects R (@raise A e).
Proof. intros w. simpl. reflexivity. Qed.

Lemma respects_sys_exit {A} code : respects R (@sys_exit A code).
Proof. intros w. simpl. reflexivity. Qed.

Lemma respects_out_of_fuel {A} : respects R (@out_of_fuel A).
Proof. intros w. simpl. reflexivity. Qed.

Lemma respects_bind {A B} (c : M A) (k : A → M B) :
  respects R c → (∀ a, respects R (k a)) → respects R (bind c k).
Proof.
  intros Hc Hk w. unfold bind. specialize (Hc w).
  destruct (c w) as [[a| | |] w1]; simpl in *; try done.
  etrans; [exact Hc | apply Hk].
Qed.

Lemma respects_try_except {A} (body : M A) handles handler :
  respects R body → (∀ e, respects R (handler e)) →
  respects R (try_except body handles handler).
Proof.
  intros Hb Hh w. unfold try_except. specialize (Hb w).
  destruct (body w) as [[a|e| |] w1]; simpl in *; try done.
  destruct (handles e); [|done]. etrans; [exact Hb | apply Hh].
Qed.

End Respects.

(** ** Notifications *)

Lemma send_notification_spec E title message w :
  send_notification E title message w
  = (Ok (), add_events (notification_events E title message) w).
Proof.
  unfold send_notification, notification_events, bind, ret, log, emit, add_events.
  destruct (plyer E) as [[|]|], (is_linux E), (notify_send_ok E); simpl;
    rewrite -?app_assoc; try reflexivity.
  all: by rewrite app_nil_r.
Qed.

Lemma requests_of_app t1 t2 : requests_of (t1 ++ t2) = requests_of t1 ++ requests_of t2.
Proof. apply omap_app. Qed.

Lemma requests_of_log lv m t : requests_of (EvLog lv m :: t) = requests_of t.
Proof. reflexivity. Qed.

Lemma sleeps_of_cons ev t :
  sleeps_of (ev :: t) = (if ev is EvSleep d then [d] else []) ++ sleeps_of t.
Proof. by destruct ev. Qed.

Lemma requests_of_notification E title message :
  requests_of (notification_events E title message) = [].
Proof.
  unfold notification_events.
  by destruct (plyer E) as [[|]|], (is_linux E), (notify_send_ok E).
Qed.

Lemma sleeps_of_notification E title message :
  sleeps_of (notification_events E title message) = [].
Proof.
  unfold notification_events.
  by destruct (plyer E) as [[|]|], (is_linux E), (notify_send_ok E).
Qed.

(** ** Fetching the run touches nothing but the run endpoint *)

Global Instance run_only_refl : Reflexive run_only.
Proof. intros w. split; [done|]. exists []. by rewrite app_nil_r. Qed.

Global Instance run_only_trans : Transitive run_only.
Proof.
  intros w1 w2 w3 [Hfs1 (t1 & Ht1 & Hr1)] [Hfs2 (t2 & Ht2 & Hr2)].
  split; [congruence|]. exists (t1 ++ t2). split.
  - by rewrite Ht2 Ht1 app_assoc.
  - rewrite requests_of_app. by apply Forall_app.
Qed.

Lemma run_only_add_events evs w :
  Forall is_run_request (requests_of evs) → run_only w (add_events evs w).
Proof. intros H. split; [done|]. by exists evs. Qed.

Lemma respects_log lv m : respects run_only (log lv m).
Proof. intros w. by apply run_only_add_events. Qed.

Lemma respects_send_notification E title message :
  respects run_only (send_notification E title message).
Proof.
  intros w. rewrite send_notification_spec. apply run_only_add_events.
  by rewrite requests_of_notification.
Qed.

Lemma respects_time_sleep E secs : respects run_only (time_sleep E secs).
Proof.
  unfold time_sleep. destruct (secs <? 0)%Z; [apply respects_raise, _|].
  intros w. split; [done|]. by exists [EvSleep secs].
Qed.

Lemma respects_get_workflow_run E repo run_id token :
  respects run_only (get_workflow_run E repo run_id token).
Proof.
  intros w. unfold get_workflow_run, bind, log, emit, external_call. simpl.
  destruct (run_api E (w_calls w) repo run_id); simpl;
    (split; [done|]; eexists [_; _]; simpl; split;
     [by rewrite -app_assoc | by repeat constructor]).
Qed.

Lemma respects_wait_iteration E repo run_id token poll_interval timeout start_time :
  respects run_only
    (wait_iteration E repo run_id token poll_interval timeout start_time).
Proof.
  unfold wait_iteration. apply respects_try_except; [apply _..| |].
  - apply respects_bind; [apply _.. | apply respects_get_workflow_run |].
    intros run. case_bool_decide.
    + apply respects_bind; [apply _.. | apply respects_log |].
      intros _. apply respects_ret, _.
    + apply respects_bind; [apply _.. | |].
      { intros w. simpl. reflexivity. }
      intros now. apply respects_bind; [apply _.. | apply respects_log |].
      intros _. destruct (Qle_bool _ _).
      * apply respects_bind; [apply _.. | apply respects_log |].
        intros _. apply respects_bind; [apply _.. | apply respects_send_notification |].
        intros _. apply respects_raise, _.
      * apply respects_bind; [apply _.. | apply respects_time_sleep |].
        intros _. apply respects_ret, _.
  - intros e. apply respects_bind; [apply _.. | apply respects_log |].
    intros _. apply respects_raise, _.
Qed.

Lemma respects_wait_loop E fuel repo run_id token poll_interval timeout start_time :
  respects run_only
    (wait_loop E fuel repo run_id token poll_interval timeout start_time).
Proof.
  induction fuel as [|fuel IH]; simpl.
  - apply respects_out_of_fuel, _.
  - apply respects_bind; [apply _.. | apply respects_wait_iteration |].
    intros [run|]; [apply respects_ret, _ | apply IH].
Qed.

Lemma respects_dict_item key field : respects run_only (dict_item key field).
Proof. destruct field; [apply respects_ret, _ | apply respects_raise, _]. Qed.

Lemma respects_obtain_run E fuel repo run_id token wait poll_interval timeout :
  respects run_only (obtain_run E fuel repo run_id token wait poll_interval timeout).
Proof.
  unfold obtain_run. apply respects_bind; [apply _.. | |].
  - apply respects_try_except; [apply _.. | |].
    + apply respects_bind; [apply _.. | apply respects_get_workflow_run |].
      intros run. repeat (apply respects_bind; [apply _.. | apply respects_dict_item |]; intros ?).
      apply respects_bind; [apply _.. | apply respects_log |].
      intros _. apply respects_ret, _.
    + intros e. apply respects_bind; [apply _.. | apply respects_log |].
      intros _. apply respects_sys_exit, _.
  - intros run. destruct (_ && _); [|apply respects_ret, _].
    apply respects_bind; [apply _.. | apply respects_log |].
    intros _. apply respects_try_except; [apply _.. | |].
    + unfold wait_for_workflow_completion.
      apply respects_bind; [apply _.. | |].
      { intros w. simpl. reflexivity. }
      intros start. apply respects_wait_loop.
    + intros e. apply respects_bind; [apply _.. | apply respects_log |].
      intros _. apply respects_sys_exit, _.
Qed.

Lemma resolve_token_world E token w : (resolve_token E token w).2 = w.
Proof.
  unfold resolve_token, get_github_token.
  destruct token; [done|].
  destruct (env_GITHUB_TOKEN E) as [[|c s]|]; try done;
    by destruct (ghtoken E) as [[?|]|].
Qed.

(** ** The orchestrator stops on anything but success *)

(** Without waiting, the run is the answer to the one request made. *)
Lemma obtain_run_no_wait E fuel repo run_id token poll_interval timeout w run w1 :
  obtain_run E fuel repo run_id token false poll_interval timeout w = (Ok run, w1) →
  run_api E (w_calls w) repo run_id = Body run ∧
  w_fs w1 = w_fs w ∧
  requests_of (w_trace w1) = requests_of (w_trace w) ++ [GetRun repo run_id token].
Proof.
  unfold obtain_run, try_except, get_workflow_run, dict_item, bind, log, emit,
    external_call, raise, ret, sys_exit. simpl.
  destruct (run_api E (w_calls w) repo run_id) as [| |r]; simpl; try discriminate.
  destruct r as [st co na nu]; simpl.
  destruct nu, na, st, co; simpl; try discriminate.
  intros [= <- <-]. simpl. split_and!; [done..|].
  by rewrite !requests_of_app /= !app_nil_r.
Qed.


(** C10: without waiting, a run that has not completed has no conclusion,
    so the orchestrator logs that the status is unknown and exits with code
    1; the only request made is the one for the run, and the file system is
    untouched. *)
Theorem no_wait_on_running_run_exits E fuel repo run_id output_dir token flatten
    poll_interval timeout w tok run w1 :
  resolve_token E token w = (Ok tok, w) →
  obtain_run E fuel repo run_id tok false poll_interval timeout w = (Ok run, w1) →
  dict_get (rj_status run) ≠ JStr "completed" →
  RunStatus_invariant run →
  download_artifacts E fuel repo run_id output_dir token flatten false
    poll_interval timeout w = (Exit 1, add_events [EvLog ERROR LStatusUnknown] w1) ∧
  w_fs w1 = w_fs w ∧
  requests_of (w_trace w1) = requests_of (w_trace w) ++ [GetRun repo run_id tok].
Proof.
  intros Htok Hrun Hstatus Hinv.
  destruct (obtain_run_no_wait _ _ _ _ _ _ _ _ _ _ Hrun) as (_ & Hfs & Hreq).
  split_and!; [|done..].
  unfold download_artifacts. rewrite (bind_Ok _ _ _ _ _ Htok) (bind_Ok _ _ _ _ _ Hrun).
  unfold check_conclusion. rewrite (Hinv Hstatus).
  by rewrite bool_decide_eq_false_2.
Qed.

(** ** Directory scans *)

Lemma elem_of_fs_descendants (m : fsmap) d p :
  p ∈ fs_descendants m d ↔ below d p ∧ is_Some (m !! p).
Proof.
  unfold fs_descendants. rewrite list_elem_of_filter list_elem_of_fmap. split.
  - intros [Hb ([q n] & -> & Hin)]. split; [done|].
    apply elem_of_map_to_list in Hin. by exists n.
  - intros [Hb [n Hn]]. split; [done|]. exists (p, n). split; [done|].
    by apply elem_of_map_to_list.
Qed.

Lemma elem_of_fs_children (m : fsmap) d p :
  p ∈ fs_children m d ↔ (∃ c, p = pjoin d c) ∧ is_Some (m !! p).
Proof.
  unfold fs_children. rewrite list_elem_of_filter elem_of_fs_descendants. split.
  - intros [Hlen [[[k ->] Hne] Hsome]]. split; [|done].
    rewrite length_app in Hlen.
    destruct k as [|c [|c' k]]; simpl in Hlen; [lia | by exists c | lia].
  - intros [[c ->] Hsome]. unfold pjoin. split; [|split; [split|done]].
    + rewrite length_app /=. lia.
    + by eexists.
    + intros Heq. apply (f_equal length) in Heq. rewrite length_app /= in Heq. lia.
Qed.

(** C8: with flattening off, an artifact whose subdirectory exists and
    holds at least one entry is skipped: the loop logs the skip and goes on
    with the remaining artifacts, in their order, from a world where the
    file system, the clock and the requests made are what they were; the
    skip is neither an exception nor an exit. *)
Theorem nonempty_artifact_dir_is_skipped E output_path token name download_url
    rest total_files w entry n :
  w_fs w !! pjoin output_path name = Some Dir →
  w_fs w !! pjoin (pjoin output_path name) entry = Some n →
  ∃ w',
    download_loop E output_path token false ((name, download_url) :: rest) total_files w
    = download_loop E output_path token false rest total_files w' ∧
    w' = add_events [EvLog INFO (LArtifactExists name (pjoin output_path name))] w ∧
    w_fs w' = w_fs w ∧
    requests_of (w_trace w') = requests_of (w_trace w).
Proof.
  intros Hdir Hentry. eexists. split; [|split; [reflexivity|]].
  - simpl. unfold bind at 1. unfold exists_and_nonempty. unfold bind at 1.
    simpl. rewrite Hdir. simpl.
    rewrite bool_decide_eq_false_2.
    { intros Hnil.
      assert (pjoin (pjoin output_path name) entry
              ∈ fs_children (w_fs w) (pjoin output_path name)) as Hin.
      { apply elem_of_fs_children. split; [by eexists | by eexists]. }
      rewrite Hnil in Hin. by apply elem_of_nil in Hin. }
    simpl. unfold bind at 1. rewrite log_spec. reflexivity.
  - simpl. split; [done|]. by rewrite requests_of_app /= app_nil_r.
Qed.

(** ** Creating directories *)

Lemma fs_makedirs_changes rest : ∀ pre (m : fsmap) p,
  (fs_makedirs pre rest m).1 !! p = m !! p ∨
  (m !! p = None ∧ p `prefix_of` pre ++ rest ∧ below pre p).
Proof.
  induction rest as [|c rest IH]; intros pre m p; simpl; [by left|].
  assert (pjoin pre c `prefix_of` pre ++ c :: rest) as Hpre.
  { exists rest. by rewrite /pjoin -app_assoc. }
  assert (below pre (pjoin pre c)) as Hbelow.
  { split; [by eexists|]. intros Heq. apply (f_equal length) in Heq.
    rewrite /pjoin length_app /= in Heq. lia. }
  assert (∀ q, below (pjoin pre c) q → below pre q) as Hmono.
  { intros q [Hq1 Hq2]. split; [by etrans; [apply Hbelow|]|].
    intros ->. destruct Hbelow as [Hb1 Hb2]. apply Hb2.
    by apply (anti_symm prefix). }
  destruct (m !! pjoin pre c) as [[data|]|] eqn:Hlook; simpl.
  - by left.
  - destruct (IH (pjoin pre c) m p) as [->|(? & Hp & ?)]; [by left|right].
    split_and!; [done| |by apply Hmono]. by rewrite /pjoin -app_assoc in Hp.
  - destruct (IH (pjoin pre c) (<[pjoin pre c := Dir]> m) p) as [->|(Hn & Hp & ?)].
    + destruct (decide (p = pjoin pre c)) as [->|Hne].
      * by right.
      * left. by rewrite lookup_insert_ne.
    + right. rewrite /pjoin -app_assoc in Hp. split_and!; [|done|by apply Hmono].
      destruct (decide (p = pjoin pre c)) as [->|Hne]; [done|].
      by rewrite lookup_insert_ne in Hn.
Qed.

(** Creating a directory and its parents leaves everything below it as it
    was. *)
Lemma fs_makedirs_below (d : path) (m : fsmap) (p : path) :
  below d p → (fs_makedirs [] d m).1 !! p = m !! p.
Proof.
  intros [Hdp Hne].
  destruct (fs_makedirs_changes d [] m p) as [HH|(_ & Hpd & _)]; [exact HH|].
  simpl in Hpd. destruct Hne. by apply (anti_symm prefix).
Qed.

(** ** An empty payload *)

Lemma no_bytes_no_chunks (chunks : list string) :
  sum_list (String.length <$> chunks) = 0 → filter (λ chunk, chunk ≠ "") chunks = [].
Proof.
  induction chunks as [|chunk chunks IH]; simpl; [done|].
  intros Hsum. destruct chunk as [|c s]; simpl in Hsum; [|lia].
  rewrite filter_cons_False; [by intros H; apply H | by apply IH].
Qed.

(** C7: when the payload has no bytes, [download_zipfile] returns the empty
    list after a warning, without raising; nothing is decoded or extracted:
    the file system is exactly what creating the destination directory made
    it (everything below the destination is as it was), and the only
    request is the download itself. *)
Theorem empty_payload_yields_nothing E download_url output_dir token flatten
    w m1 chunks :
  fs_makedirs [] output_dir (w_fs w) = (m1, true) →
  m1 !! temp_name E (w_calls w) = None →
  archive_api E (S (w_calls w)) download_url = Body (chunks, true) →
  sum_list (String.length <$> chunks) = 0 →
  ∃ w',
    download_zipfile E download_url output_dir token flatten w = (Ok [], w') ∧
    w_fs w' = m1 ∧
    (∀ p, below output_dir p → w_fs w' !! p = w_fs w !! p) ∧
    w_trace w' = w_trace w ++
      [ EvLog INFO (LDownloadingFrom download_url);
        EvRequest (GetArchive download_url token);
        EvLog INFO (LDownloaded 0);
        EvLog WARNING LDownloadedEmpty ].
Proof.
  intros Hmk Hfresh Hapi Hzero.
  assert (∀ p, below output_dir p → m1 !! p = w_fs w !! p) as Hbelow.
  { intros p Hp. rewrite -(fs_makedirs_below output_dir (w_fs w) p Hp). by rewrite Hmk. }
  eexists. split; [|split_and!].
  - unfold download_zipfile, mkdir_parents, named_temporary_file, try_finally,
      requests_get_stream, write_chunks, stat_size, unlink, bind, get_fs, put_fs,
      external_call, log, emit, ret. simpl.
    rewrite Hmk /= Hapi /= (no_bytes_no_chunks _ Hzero) /=.
    rewrite lookup_insert_eq /=. reflexivity.
  - simpl. rewrite insert_insert_eq. by apply delete_insert_id.
  - simpl. intros p Hp. rewrite insert_insert_eq delete_insert_id //. by apply Hbelow.
  - simpl. by rewrite -!app_assoc.
Qed.

(** ** Matching the run URL *)

Section RegexFacts.
Variable unicode_Nd : N → bool.

Lemma strip_prefix_app text s : strip_prefix text (text ++ s) = Some s.
Proof. induction text as [|t text IH]; simpl; [done|]. by rewrite N.eqb_refl. Qed.

Lemma strip_prefix_Some text : ∀ s s',
  strip_prefix text s = Some s' → s = text ++ s'.
Proof.
  induction text as [|t text IH]; intros [|x s] s'; simpl; try naive_solver.
  destruct (N.eqb_spec t x) as [->|]; [|done]. intros H. f_equal. by apply IH.
Qed.

Lemma span_le c s : span unicode_Nd c s ≤ length s.
Proof.
  induction s as [|x s IH]; simpl; [done|].
  destruct (in_class _ c x); simpl; lia.
Qed.

Lemma span_take c : ∀ s k,
  k ≤ span unicode_Nd c s → Forall (λ x, in_class unicode_Nd c x = true) (take k s).
Proof.
  induction s as [|x s IH]; intros [|k] Hk; simpl in *; try by constructor.
  destruct (in_class _ c x) eqn:Hx; [|lia]. constructor; [done|]. apply IH. lia.
Qed.

Lemma span_drop c s x :
  head (drop (span unicode_Nd c s) s) = Some x → in_class unicode_Nd c x = false.
Proof.
  induction s as [|y s IH]; simpl; [done|].
  destruct (in_class _ c y) eqn:Hy; simpl; [done|]. by intros [= <-].
Qed.

Lemma span_app c xs s :
  Forall (λ x, in_class unicode_Nd c x = true) xs →
  (∀ x, head s = Some x → in_class unicode_Nd c x = false) →
  span unicode_Nd c (xs ++ s) = length xs.
Proof.
  intros Hxs Hs. induction Hxs as [|x xs Hx _ IH]; simpl.
  - destruct s as [|y s]; simpl; [done|]. by rewrite (Hs y).
  - by rewrite Hx IH.
Qed.

Lemma backtrack_Some {A} k (attempt : nat → option A) r :
  backtrack k attempt = Some r → ∃ j, 1 ≤ j ≤ k ∧ attempt j = Some r.
Proof.
  induction k as [|k IH]; simpl; [done|].
  destruct (attempt (S k)) as [r'|] eqn:Hk.
  - intros [= <-]. exists (S k). split; [lia|done].
  - intros (j & Hj & Hr)%IH. exists j. split; [lia|done].
Qed.

Lemma not_slash_class (xs : pystr) :
  Forall (λ x, x ≠ slash) xs ↔ Forall (λ x, in_class unicode_Nd NotSlash x = true) xs.
Proof.
  apply Forall_iff. intros x. simpl. rewrite negb_true_iff. by rewrite N.eqb_neq.
Qed.

(** A group [([^/]+)] in front of a literal that begins with a slash. *)
Lemma group_before_slash owner s :
  owner ≠ [] → Forall (λ x, x ≠ slash) owner →
  span unicode_Nd NotSlash (owner ++ slash :: s) = length owner ∧
  ∃ k, length owner = S k.
Proof.
  intros Hne Hall. split.
  - apply span_app; [by apply not_slash_class|]. by intros x [= <-].
  - destruct owner; [done|]. by eexists.
Qed.

Lemma parse_run_url_accepts url owner repo run_id rest :
  is_run_url unicode_Nd url owner repo run_id rest →
  parse_run_url unicode_Nd url = Ok (owner ++ lit "/" ++ repo, run_id).
Proof.
  intros (-> & Ho1 & Ho2 & Hr1 & Hr2 & Hi1 & Hi2 & Hmax).
  unfold parse_run_url, run_url_pattern.
  cbn [re_match]. rewrite strip_prefix_app.
  change (lit "/") with [slash].
  change (lit "/actions/runs/") with (slash :: lit "actions/runs/").
  cbn [app].
  destruct (group_before_slash owner
              (repo ++ slash :: lit "actions/runs/" ++ run_id ++ rest) Ho1 Ho2)
    as [Hspan1 [k1 Hk1]].
  rewrite Hspan1 Hk1. cbn [backtrack].
  rewrite -Hk1 drop_app_length take_app_length. cbn [strip_prefix]. rewrite N.eqb_refl.
  destruct (group_before_slash repo (lit "actions/runs/" ++ run_id ++ rest) Hr1 Hr2)
    as [Hspan2 [k2 Hk2]].
  rewrite Hspan2 Hk2. cbn [backtrack].
  rewrite -Hk2 drop_app_length take_app_length.
  cbv iota beta. rewrite N.eqb_refl strip_prefix_app.
  rewrite (span_app DecimalDigit run_id rest Hi2 Hmax).
  destruct run_id as [|d run_id]; [done|].
  cbn [length backtrack].
  by rewrite (take_app_length (d :: run_id)).
Qed.

Lemma parse_run_url_accepted url repo_path run_id :
  parse_run_url unicode_Nd url = Ok (repo_path, run_id) →
  ∃ owner repo rest,
    is_run_url unicode_Nd url owner repo run_id rest ∧
    repo_path = owner ++ lit "/" ++ repo.
Proof.
  unfold parse_run_url, run_url_pattern. cbn [re_match].
  destruct (strip_prefix _ url) as [s1|] eqn:H1; [|done].
  apply strip_prefix_Some in H1 as ->.
  destruct (backtrack _ _) as [groups|] eqn:Hb1; [|done].
  apply backtrack_Some in Hb1 as (j1 & Hj1 & Hb1).
  destruct (strip_prefix _ (drop j1 s1)) as [s2|] eqn:H2; [|done].
  apply strip_prefix_Some in H2.
  destruct (backtrack _ _) as [groups2|] eqn:Hb2 in Hb1; [|done].
  apply backtrack_Some in Hb2 as (j2 & Hj2 & Hb2).
  destruct (strip_prefix _ (drop j2 s2)) as [s3|] eqn:H3; [|done].
  apply strip_prefix_Some in H3.
  destruct (span unicode_Nd DecimalDigit s3) as [|k3] eqn:Hspan3; [done|].
  cbn [backtrack] in Hb2. injection Hb2 as <-. injection Hb1 as <-.
  intros [= <- <-].
  exists (take j1 s1), (take j2 s2), (drop (S k3) s3).
  split; [|done]. unfold is_run_url.
  assert (∀ (s : pystr) j c, 1 ≤ j ≤ span unicode_Nd c s → take j s ≠ []) as Hne.
  { intros s j c Hj Hnil. apply (f_equal length) in Hnil.
    pose proof (span_le c s). rewrite length_take /= in Hnil. lia. }
  split_and!.
  - by rewrite take_drop -H3 take_drop -H2 take_drop.
  - by eapply Hne.
  - apply not_slash_class, span_take. lia.
  - by eapply Hne.
  - apply not_slash_class, span_take. lia.
  - eapply (Hne _ _ DecimalDigit). rewrite Hspan3. lia.
  - apply (span_take DecimalDigit). lia.
  - intros x Hx. rewrite -Hspan3 in Hx. by apply (span_drop DecimalDigit) in Hx.
Qed.

Lemma parse_run_url_outcomes url :
  (∃ r, parse_run_url unicode_Nd url = Ok r) ∨
  parse_run_url unicode_Nd url = Raise ValueError.
Proof.
  unfold parse_run_url.
  destruct (re_match _ _ _) as [[|o [|r [|i [|]]]]|]; eauto.
Qed.
End RegexFacts.

(** C9: [parse_run_url] returns normally exactly on the URLs that begin with
    [https://github.com/<owner>/<repo>/actions/runs/<digits>]: whatever
    follows the digits is ignored, the repository returned is
    [<owner>/<repo>] and the run id is the run of digits; on every other URL
    (another host, a missing part) it raises [ValueError]. *)
Theorem parse_run_url_accepts_exactly_run_urls unicode_Nd url :
  (∀ repo_path run_id,
     parse_run_url unicode_Nd url = Ok (repo_path, run_id) ↔
     ∃ owner repo rest,
       is_run_url unicode_Nd url owner repo run_id rest ∧
       repo_path = owner ++ lit "/" ++ repo) ∧
  (parse_run_url unicode_Nd url = Raise ValueError ↔
   ¬ ∃ owner repo run_id rest, is_run_url unicode_Nd url owner repo run_id rest).
Proof.
  split.
  - intros repo_path run_id. split; [apply parse_run_url_accepted|].
    intros (owner & repo & rest & Hurl & ->). by eapply parse_run_url_accepts.
  - split.
    + intros Hraise (owner & repo & run_id & rest & Hurl).
      apply parse_run_url_accepts in Hurl. congruence.
    + intros Hnone. destruct (parse_run_url_outcomes unicode_Nd url) as [[[r i] Hok]|]; [|done].
      destruct Hnone. apply parse_run_url_accepted in Hok as (owner & repo & rest & Hurl & _).
      by exists owner, repo, i, rest.
Qed.

(** ** The polling loop *)

Section Polling.
Variable E : environment.
Variables repo run_id token : string.
Variables poll_interval timeout : Z.

Local Abbreviation iteration := (wait_iteration E repo run_id token poll_interval timeout).
Local Abbreviation fetched := (after_fetch E repo run_id token).

Lemma get_workflow_run_spec w :
  get_workflow_run E repo run_id token w
  = (match run_api E (w_calls w) repo run_id with
     | HttpFail => Raise HTTPError
     | NetFault => Raise RequestException
     | Body run => Ok run
     end, fetched w).
Proof.
  unfold get_workflow_run, bind, log, emit, external_call, after_fetch, fetch_events.
  simpl. rewrite -app_assoc /=. by destruct (run_api _ _ _ _).
Qed.

Lemma iteration_http_fail start w :
  run_api E (w_calls w) repo run_id = HttpFail →
  iteration start w
  = (Raise HTTPError, add_events [EvLog ERROR LFetchStatusFailed] (fetched w)).
Proof.
  intros H. unfold wait_iteration, try_except. unfold bind at 1.
  by rewrite get_workflow_run_spec H.
Qed.

Lemma iteration_net_fault start w :
  run_api E (w_calls w) repo run_id = NetFault →
  iteration start w = (Raise RequestException, fetched w).
Proof.
  intros H. unfold wait_iteration, try_except. unfold bind at 1.
  by rewrite get_workflow_run_spec H.
Qed.

Lemma iteration_completed start w run :
  run_api E (w_calls w) repo run_id = Body run →
  dict_get (rj_status run) = JStr "completed" →
  iteration start w
  = (Ok (Some run),
     add_events [EvLog INFO (LWorkflowCompleted (dict_get (rj_status run))
                               (dict_get (rj_conclusion run)))] (fetched w)).
Proof.
  intros H Hst. unfold wait_iteration, try_except. unfold bind at 1.
  rewrite get_workflow_run_spec H. by rewrite bool_decide_eq_true_2.
Qed.

Lemma iteration_timeout start w run :
  run_api E (w_calls w) repo run_id = Body run →
  dict_get (rj_status run) ≠ JStr "completed" →
  Qle_bool (inject_Z timeout) (w_now (fetched w) - start) = true →
  iteration start w
  = (Raise (RuntimeError (timeout_msg timeout)),
     add_events
       ([EvLog INFO (LWaiting (w_now (fetched w) - start) (dict_get (rj_status run)));
         EvLog ERROR (LNotCompletedWithin timeout)]
        ++ notification_events E timeout_title (timeout_notice run_id timeout))
       (fetched w)).
Proof.
  intros H Hst Hle. unfold wait_iteration, try_except. unfold bind at 1.
  rewrite get_workflow_run_spec H. rewrite bool_decide_eq_false_2 //.
  unfold bind at 1. unfold time_time at 1. unfold bind at 1. rewrite log_spec.
  cbn [w_now add_events]. rewrite Hle.
  unfold bind at 1. rewrite log_spec. unfold bind at 1.
  rewrite send_notification_spec. unfold raise. cbn [is_HTTPError].
  by rewrite !add_events_app.
Qed.

Lemma iteration_sleep start w run :
  run_api E (w_calls w) repo run_id = Body run →
  dict_get (rj_status run) ≠ JStr "completed" →
  Qle_bool (inject_Z timeout) (w_now (fetched w) - start) = false →
  iteration start w
  = if (poll_interval <? 0)%Z then
      (Raise ValueError,
       add_events [EvLog INFO (LWaiting (w_now (fetched w) - start)
                                 (dict_get (rj_status run)))] (fetched w))
    else
      (Ok None,
       after_sleep E poll_interval
         (add_events [EvLog INFO (LWaiting (w_now (fetched w) - start)
                                    (dict_get (rj_status run)))] (fetched w))).
Proof.
  intros H Hst Hle. unfold wait_iteration, try_except. unfold bind at 1.
  rewrite get_workflow_run_spec H. rewrite bool_decide_eq_false_2 //.
  unfold bind at 1. unfold time_time at 1. unfold bind at 1. rewrite log_spec.
  cbn [w_now add_events]. rewrite Hle.
  unfold time_sleep. by destruct (poll_interval <? 0)%Z.
Qed.
End Polling.

Lemma Qle_bool_false (x y : Q) : Qle_bool x y = false → (y < x)%Q.
Proof.
  intros H. apply Qnot_le_lt. intros Hle. apply Qle_bool_iff in Hle. congruence.
Qed.


(** ** Names *)

Lemma str_length_app (s1 s2 : string) :
  String.length (s1 +:+ s2) = String.length s1 + String.length s2.
Proof. induction s1 as [|c s1 IH]; simpl; [done|]. by rewrite IH. Qed.

Lemma str_app_inv_tail (s1 s2 e : string) : s1 +:+ e = s2 +:+ e → s1 = s2.
Proof.
  revert s2. induction s1 as [|c s1 IH]; intros [|c2 s2] H; simpl in *.
  - done.
  - apply (f_equal String.length) in H. rewrite !str_length_app /= in H. lia.
  - apply (f_equal String.length) in H. rewrite !str_length_app /= in H. lia.
  - injection H as -> H. f_equal. by apply IH.
Qed.

Lemma str_mem_app c (s1 s2 : string) :
  str_mem c (s1 +:+ s2) = str_mem c s1 || str_mem c s2.
Proof. induction s1 as [|c1 s1 IH]; simpl; [done|]. by rewrite IH orb_assoc. Qed.

Lemma str_take_drop n : ∀ s, str_take n s +:+ str_drop n s = s.
Proof.
  induction n as [|n IH]; intros [|c s]; simpl; try done.
  change (String c (str_take n s +:+ str_drop n s) = String c s). by rewrite IH.
Qed.

(** The stem and the suffix make up the name: the counter goes between
    them. *)
Lemma stem_suffix name : stem name +:+ suffix name = name.
Proof.
  unfold stem, suffix. destruct (suffix_index name) as [i|].
  - apply str_take_drop.
  - induction name as [|c name IH]; [done|].
    change (String c (name +:+ "") = String c name). by rewrite IH.
Qed.

Lemma numbered_name_inj base ext : Inj (=) (=) (numbered_name base ext).
Proof.
  intros j k H. unfold numbered_name in H.
  apply (inj (String.append base)) in H. apply (inj (String.append "_")) in H.
  apply str_app_inv_tail in H. by apply (inj pretty) in H.
Qed.

Lemma numbered_name_not_wrapper base ext counter :
  numbered_name base ext counter ≠ wrapper_name.
Proof.
  intros H. apply (f_equal (str_mem "_")) in H.
  rewrite /numbered_name !str_mem_app /= orb_true_r in H. discriminate.
Qed.

Lemma pjoin_inj d : Inj (=) (=) (pjoin d).
Proof. intros n1 n2 H. apply app_inv_head in H. by injection H. Qed.

Lemma path_name_pjoin d name : path_name (pjoin d name) = name.
Proof. by rewrite /path_name /pjoin last_snoc. Qed.

Lemma fs_exists_true (m : fsmap) p : fs_exists m p = true ↔ is_Some (m !! p).
Proof. unfold fs_exists. destruct (m !! p); split; (done || by intros [? ?] || eauto). Qed.

Lemma fs_exists_false (m : fsmap) p : fs_exists m p = false ↔ m !! p = None.
Proof. unfold fs_exists. by destruct (m !! p). Qed.

(** ** The search for a free name *)

Section FreeName.
Variable m : fsmap.
Variable output_dir : path.
Variables base ext : string.

Local Abbreviation candidate := (λ k, pjoin output_dir (numbered_name base ext k)).

Lemma candidate_inj j k : candidate j = candidate k → j = k.
Proof. intros H. by apply pjoin_inj, numbered_name_inj in H. Qed.

(** What the loop returns is free, and it is the first free one. *)
Lemma free_name_loop_numbered fuel : ∀ k d,
  free_name_loop fuel m output_dir base ext (candidate k) (S k) = Some d →
  ∃ k', k ≤ k' ∧ d = candidate k' ∧ m !! d = None ∧
        ∀ j, k ≤ j < k' → is_Some (m !! candidate j).
Proof.
  induction fuel as [|fuel IH]; intros k d; simpl; [done|].
  destruct (fs_exists m (candidate k)) eqn:Hex.
  - intros (k' & Hk' & -> & Hfree & Hbusy)%IH.
    exists k'. split_and!; [lia|done..|].
    intros j Hj. destruct (decide (j = k)) as [->|]; [|apply Hbusy; lia].
    by apply fs_exists_true.
  - intros [= <-]. exists k. apply fs_exists_false in Hex.
    split_and!; [lia|done..|]. intros j ?; lia.
Qed.

(** The loop ends: among more candidates than there are entries, one is
    free. *)
Lemma free_name_loop_ends fuel : ∀ (m' : fsmap) k,
  size m' < fuel →
  (∀ j, k ≤ j → m' !! candidate j = m !! candidate j) →
  is_Some (free_name_loop fuel m output_dir base ext (candidate k) (S k)).
Proof.
  induction fuel as [|fuel IH]; intros m' k Hsize Hagree; [lia|]. simpl.
  destruct (fs_exists m (candidate k)) eqn:Hex; [|by eexists].
  apply fs_exists_true in Hex.
  assert (is_Some (m' !! candidate k)) as Hex' by (rewrite Hagree //).
  apply (IH (delete (candidate k) m')).
  - rewrite map_size_delete_Some //. destruct (size m') eqn:Hs; [|simpl; lia].
    apply map_size_empty_inv in Hs. subst m'. rewrite lookup_empty in Hex'.
    by destruct Hex'.
  - intros j Hj. rewrite lookup_delete_ne.
    + intros Heq%candidate_inj. lia.
    + apply Hagree. lia.
Qed.
End FreeName.

(** ** One item of the flatten loop *)

Lemma free_name_loop_S (fuel : nat) (m : fsmap) output_dir base ext dest counter :
  free_name_loop (S fuel) m output_dir base ext dest counter
  = if fs_exists m dest then
      free_name_loop fuel m output_dir base ext
        (pjoin output_dir (numbered_name base ext counter)) (S counter)
    else Some dest.
Proof. reflexivity. Qed.

Lemma resolved_name_direct (m : fsmap) output_dir name dest :
  name ≠ wrapper_name → resolved_name m output_dir name dest →
  ∃ name', dest = pjoin output_dir name' ∧ name' ≠ wrapper_name ∧
           name_or_numbered name name'.
Proof.
  intros Hname [_ [->|(_ & k & _ & -> & _)]].
  - exists name. split_and!; [done..|by left].
  - eexists. split_and!; [done|apply numbered_name_not_wrapper|right; by eexists].
Qed.

Lemma resolve_dest_spec output_dir name w :
  ∃ dest, resolve_dest output_dir name w = (Ok dest, w) ∧
          resolved_name (w_fs w) output_dir name dest.
Proof.
  unfold resolve_dest. unfold bind at 1. unfold get_fs at 1.
  destruct (fs_exists (w_fs w) (pjoin output_dir name)) eqn:Hex.
  - rewrite path_name_pjoin. change (2 + size (w_fs w)) with (S (S (size (w_fs w)))).
    rewrite free_name_loop_S Hex.
    destruct (free_name_loop_ends (w_fs w) output_dir (stem name) (suffix name)
                (S (size (w_fs w))) (w_fs w) 1) as [dest Hdest]; [lia|done|].
    rewrite Hdest. exists dest. split; [done|].
    apply free_name_loop_numbered in Hdest as (k & Hk & -> & Hfree & Hbusy).
    split; [done|]. right. split; [by apply fs_exists_true|]. by exists k.
  - exists (pjoin output_dir name). split; [done|].
    apply fs_exists_false in Hex. split; [done|by left].
Qed.

Lemma flatten_item_moves output_dir item data w :
  w_fs w !! item = Some (File data) →
  path_name item ≠ wrapper_name →
  ∃ dest,
    flatten_item output_dir item w
    = (Ok (Some dest),
       add_events [EvLog INFO (LExtracted (path_name item))]
         (set_fs (<[dest := File data]> (delete item (w_fs w))) w)) ∧
    resolved_name (w_fs w) output_dir (path_name item) dest.
Proof.
  intros Hitem Hname.
  destruct (resolve_dest_spec output_dir (path_name item) w) as (dest & Hdest & Hres).
  exists dest. split; [|done].
  unfold flatten_item. unfold bind at 1. unfold get_fs at 1.
  rewrite /fs_is_file Hitem bool_decide_eq_false_2 //.
  rewrite (bind_Ok _ _ _ _ _ Hdest).
  unfold shutil_move, bind, get_fs, fs_move. rewrite Hitem.
  destruct Hres as [-> _]. by destruct w.
Qed.

Lemma flatten_item_skips_wrapper output_dir item data w :
  w_fs w !! item = Some (File data) →
  path_name item = wrapper_name →
  flatten_item output_dir item w
  = (Ok None, add_events [EvLog INFO (LSkippingWrapper wrapper_name)] w).
Proof.
  intros Hitem Hname. unfold flatten_item. unfold bind at 1. unfold get_fs at 1.
  rewrite /fs_is_file Hitem bool_decide_eq_true_2 // Hname. done.
Qed.

Lemma flatten_item_skips_other output_dir item w :
  fs_is_file (w_fs w) item = false →
  flatten_item output_dir item w = (Ok None, w).
Proof.
  intros Hitem. unfold flatten_item. unfold bind at 1. unfold get_fs at 1.
  by rewrite Hitem.
Qed.

(** ** The flatten loop *)

Lemma filter_ext_elem {A} (P Q : A → Prop) `{!∀ x, Decision (P x)} `{!∀ x, Decision (Q x)}
    (l : list A) :
  (∀ x, x ∈ l → P x ↔ Q x) → filter P l = filter Q l.
Proof.
  induction l as [|x l IH]; intros Hext; [done|].
  rewrite !filter_cons. rewrite IH; [intros y Hy; apply Hext; by right|].
  destruct (decide (P x)) as [HP|HP], (decide (Q x)) as [HQ|HQ]; try done.
  - destruct HQ. apply Hext; [by left|done].
  - destruct HP. apply Hext; [by left|done].
Qed.

Lemma moved_weaken output_dir item items m m' i d :
  moved output_dir items m m' i d → moved output_dir (item :: items) m m' i d.
Proof. intros [Hin H]. split; [by right|done]. Qed.

Section FlattenLoop.
Variable output_dir : path.

Lemma flatten_items_spec items :
  NoDup items → apart output_dir items →
  ∀ extracted_files w,
  ∃ dests w',
    flatten_items output_dir items extracted_files w
    = (Ok (extracted_files ++ dests), w') ∧
    Forall2 (moved output_dir items (w_fs w) (w_fs w'))
      (to_move (w_fs w) items) dests ∧
    (∀ p, p ∉ to_move (w_fs w) items → p ∉ dests → w_fs w' !! p = w_fs w !! p) ∧
  NoDup dests.
Proof.
  induction items as [|item rest IH]; intros Hnodup Hapart acc w.
  { exists [], w. rewrite app_nil_r. split_and!; [done|constructor|done|constructor]. }
  apply NoDup_cons in Hnodup as [Hfresh Hnodup].
  assert (apart output_dir rest) as Hapart' by (intros i n Hi; apply Hapart; by right).
  specialize (IH Hnodup Hapart').
  cbn [flatten_items].
  destruct (fs_is_file (w_fs w) item) eqn:Hfile; last first.
  { (* not a regular file *)
    rewrite (bind_Ok _ _ _ _ _ (flatten_item_skips_other _ _ _ Hfile)).
    destruct (IH acc w) as (dests & w' & Hrun & Hmoved & Hframe & Huniq).
    exists dests, w'. rewrite /to_move filter_cons_False; [rewrite Hfile; by intros [? _]|].
    split_and!; [done| |done..].
    eapply Forall2_impl; [exact Hmoved|]. intros ??. apply moved_weaken. }
  unfold fs_is_file in Hfile.
  destruct (w_fs w !! item) as [[data|]|] eqn:Hitem; try done.
  destruct (decide (path_name item = wrapper_name)) as [Hwrap|Hname].
  { (* the wrapper *)
    rewrite (bind_Ok _ _ _ _ _ (flatten_item_skips_wrapper _ _ _ _ Hitem Hwrap)).
    destruct (IH acc (add_events [EvLog INFO (LSkippingWrapper wrapper_name)] w))
      as (dests & w' & Hrun & Hmoved & Hframe & Huniq).
    exists dests, w'. rewrite /to_move filter_cons_False; [by intros [_ ?]|].
    split_and!; [done| |done..].
    eapply Forall2_impl; [exact Hmoved|]. intros ??. apply moved_weaken. }
  (* a file to move *)
  destruct (flatten_item_moves output_dir item data w Hitem Hname)
    as (dest & Hstep & Hres).
  rewrite (bind_Ok _ _ _ _ _ Hstep).
  destruct (resolved_name_direct _ _ _ _ Hname Hres)
    as (name' & Hdest & Hname' & Hshape).
  destruct Hres as [Hfree _].
  set (w1 := add_events _ _) in *.
  assert (w_fs w1 = <[dest := File data]> (delete item (w_fs w))) as Hfs1 by done.
  assert (item ≠ dest) as Hne by (rewrite Hdest; apply Hapart; by left).
  assert (∀ p, p ≠ item → p ≠ dest → w_fs w1 !! p = w_fs w !! p) as Hsame.
  { intros p ??. by rewrite Hfs1 lookup_insert_ne // lookup_delete_ne. }
  assert (∀ i, i ∈ rest → w_fs w1 !! i = w_fs w !! i) as Hrest.
  { intros i Hi. apply Hsame; [by intros -> | rewrite Hdest; by apply Hapart'].  }
  assert (to_move (w_fs w1) rest = to_move (w_fs w) rest) as Htodo.
  { apply filter_ext_elem. intros i Hi. by rewrite /fs_is_file (Hrest i Hi). }
  destruct (IH (acc ++ [dest]) w1) as (dests & w' & Hrun & Hmoved & Hframe & Huniq).
  exists (dest :: dests), w'.
  assert (dest ∉ dests) as Hdests.
  { intros Hin. apply list_elem_of_lookup in Hin as [k Hk].
    destruct (Forall2_lookup_r _ _ _ k dest Hmoved Hk)
      as (i & _ & _ & data' & n & _ & _ & _ & Hnone & _).
    by rewrite Hfs1 lookup_insert_eq in Hnone. }
  assert (∀ d, d ∈ dests → ∃ n, d = pjoin output_dir n) as Hdirect.
  { intros d Hin. apply list_elem_of_lookup in Hin as [k Hk].
    destruct (Forall2_lookup_r _ _ _ k d Hmoved Hk)
      as (i & _ & _ & data' & n & _ & _ & _ & _ & -> & _).
    by exists n. }
  assert (∀ p, (∀ n, p ≠ pjoin output_dir n) ∨ p = dest →
               p ∉ rest → w_fs w' !! p = w_fs w1 !! p) as Hkeep.
  { intros p Hp Hnotin. apply Hframe.
    - rewrite /to_move list_elem_of_filter. by intros [_ ?].
    - intros Hin. destruct Hp as [Hp| ->]; [|done].
      destruct (Hdirect p Hin) as [n ->]. by destruct (Hp n). }
  rewrite -app_assoc /= in Hrun. split_and!; [done| | |by constructor].
  - rewrite /to_move filter_cons_True; [by rewrite /fs_is_file Hitem|].
    constructor.
    + split; [by left|]. exists data, name'. split_and!; try done.
      * rewrite Hkeep; [by right| |by rewrite Hfs1 lookup_insert_eq].
        intros Hin. by apply (Hapart' dest name').
      * rewrite Hkeep; [left; intros n; apply Hapart; by left|done|].
        by rewrite Hfs1 lookup_insert_ne // lookup_delete_eq.
    + fold (to_move (w_fs w) rest). rewrite -Htodo.
      eapply Forall2_impl; [exact Hmoved|].
      intros i d (Hi & data' & n & Hi1 & Hd' & Hi' & Hd1 & -> & Hn & Hsh).
      split; [by right|]. exists data', n.
      split_and!; try done.
      * by rewrite -(Hrest i Hi).
      * assert (pjoin output_dir n ≠ dest) as Hnd.
        { intros Heq. by rewrite Heq Hfs1 lookup_insert_eq in Hd1. }
        rewrite -Hsame //.
        intros Heq. apply (Hapart item n); [by left|done].
  - intros p Hp1 Hp2.
    rewrite /to_move filter_cons_True in Hp1; [by rewrite /fs_is_file Hitem|].
    fold (to_move (w_fs w) rest) in Hp1. rewrite -Htodo in Hp1.
    apply not_elem_of_cons in Hp1 as [? ?]. apply not_elem_of_cons in Hp2 as [? ?].
    rewrite Hframe //. by apply Hsame.
Qed.
End FlattenLoop.

(** ** What [download_zipfile] records *)

Lemma try_finally_Ok_inv {A} (body : M A) fin w a w' :
  try_finally body fin w = (Ok a, w') → ∃ w1, body w = (Ok a, w1).
Proof.
  unfold try_finally. destruct (body w) as [[a1|e|code|] w1]; [| | |done];
    destruct (fin w1) as [[[]| | |] w2]; intros [= <- <-] || intros [=]. by eexists.
Qed.

Lemma try_except_reraise_Ok_inv {A} (body : M A) handles (cleanup : exn → M unit) w a w' :
  try_except body handles (λ e, cleanup e ;;; raise e) w = (Ok a, w') →
  body w = (Ok a, w').
Proof.
  unfold try_except. destruct (body w) as [[a1|e|code|] w1]; try done.
  destruct (handles e); [|done]. unfold bind, raise.
  by destruct (cleanup e w1) as [[[]| | |] w2].
Qed.

Ltac inv_bind H :=
  let a := fresh "a" in let w := fresh "w" in let Ha := fresh "Hstep" in
  apply bind_Ok_inv in H as (a & w & Ha & H).

(** A recorded path: directly in the output directory, and not named
    [artifact.zip]. *)
Lemma flatten_item_recorded output_dir item w dest w' :
  flatten_item output_dir item w = (Ok (Some dest), w') →
  ∃ name, dest = pjoin output_dir name ∧ name ≠ wrapper_name.
Proof.
  destruct (fs_is_file (w_fs w) item) eqn:Hfile.
  - unfold fs_is_file in Hfile.
    destruct (w_fs w !! item) as [[data|]|] eqn:Hitem; try done.
    destruct (decide (path_name item = wrapper_name)) as [Hwrap|Hname].
    + by rewrite (flatten_item_skips_wrapper _ _ _ _ Hitem Hwrap).
    + destruct (flatten_item_moves output_dir item data w Hitem Hname)
        as (dest' & -> & Hres).
      intros [= <- <-].
      destruct (resolved_name_direct _ _ _ _ Hname Hres) as (name' & ? & ? & _).
      by exists name'.
  - by rewrite flatten_item_skips_other.
Qed.

Lemma flatten_items_recorded output_dir (P : path → Prop) items :
  (∀ name, name ≠ wrapper_name → P (pjoin output_dir name)) →
  ∀ extracted_files w files w',
    flatten_items output_dir items extracted_files w = (Ok files, w') →
    Forall P extracted_files → Forall P files.
Proof.
  intros HP. induction items as [|item rest IH]; intros acc w files w'; simpl.
  - by intros [= <- <-].
  - intros Hrun Hacc. inv_bind Hrun. destruct a as [dest|]; [|by eapply IH].
    eapply IH; [done|]. apply Forall_app. split; [done|].
    apply flatten_item_recorded in Hstep as (name & -> & Hname).
    constructor; [by apply HP|constructor].
Qed.

Lemma extract_archive_recorded E tmp_path output_dir flatten w files w' :
  extract_archive E tmp_path output_dir flatten w = (Ok files, w') →
  Forall (λ f, path_name f ≠ wrapper_name ∧
               (flatten = true → ∃ name, f = pjoin output_dir name)) files.
Proof.
  unfold extract_archive. intros H. do 5 inv_bind H.
  inv_bind H. inv_bind H. inv_bind H. injection H as <- <-.
  destruct flatten.
  - inv_bind Hstep4. eapply flatten_items_recorded; [|done|constructor].
    intros name Hname. rewrite path_name_pjoin. split; [done|]. by eexists.
  - do 3 inv_bind Hstep4. injection Hstep4 as <- <-.
    apply Forall_forall. intros f [[_ Hf] _]%list_elem_of_filter. by split.
Qed.

Lemma download_zipfile_recorded E download_url output_dir token flatten w files w' :
  download_zipfile E download_url output_dir token flatten w = (Ok files, w') →
  Forall (λ f, path_name f ≠ wrapper_name ∧
               (flatten = true → ∃ name, f = pjoin output_dir name)) files.
Proof.
  unfold download_zipfile. intros H. do 2 inv_bind H.
  apply try_finally_Ok_inv in H as [w2 H]. do 5 inv_bind H.
  destruct (a4 =? 0).
  - inv_bind H. injection H as <- <-. constructor.
  - inv_bind H. apply try_except_reraise_Ok_inv in H.
    by eapply extract_archive_recorded.
Qed.

(** ** Flattening replaces nothing *)

Lemma fs_makedirs_grows rest : ∀ pre (m : fsmap), m ⊆ (fs_makedirs pre rest m).1.
Proof.
  intros pre m. apply map_subseteq_spec. intros p n Hp.
  destruct (fs_makedirs_changes rest pre m p) as [HH|(Hnone & _)]; [by rewrite HH|].
  by rewrite Hp in Hnone.
Qed.

Lemma extractall_cons e rest target w :
  extractall (e :: rest) target w
  = match fs_extract_member target e (w_fs w) with
    | (m', None) => extractall rest target (set_fs m' w)
    | (m', Some err) => (Raise err, set_fs m' w)
    end.
Proof.
  simpl. unfold bind at 1. unfold get_fs at 1.
  by destruct (fs_extract_member target e (w_fs w)) as [m' [err|]].
Qed.

Section Safe.
Variable E : environment.
Variable m0 : fsmap.
Hypothesis Hfresh : temp_names_fresh E m0.
Hypothesis Hscan : scan_faithful E.

Local Abbreviation safe := (safe m0).

Lemma safe_ret {A} (a : A) (Q : A → Prop) : Q a → safe (ret a) Q.
Proof. intros HQ w Hw. simpl. split_and!; [done..|]. by intros ? [= <-]. Qed.

Lemma safe_raise {A} e (Q : A → Prop) : safe (raise e) Q.
Proof. intros w Hw. by simpl. Qed.

Lemma safe_bind {A B} (c : M A) (k : A → M B) (Q1 : A → Prop) (Q : B → Prop) :
  safe c Q1 → (∀ a, Q1 a → safe (k a) Q) → safe (bind c k) Q.
Proof.
  intros Hc Hk w Hw. destruct (Hc w Hw) as (Hw1 & Hfuel & HQ1). unfold bind.
  destruct (c w) as [[a|e|code|] w1]; simpl in *; try done.
  by apply Hk; [apply HQ1|].
Qed.

Lemma safe_try_except {A} (body : M A) handles handler (Q : A → Prop) :
  safe body Q → (∀ e, safe (handler e) Q) → safe (try_except body handles handler) Q.
Proof.
  intros Hb Hh w Hw. destruct (Hb w Hw) as (Hw1 & Hfuel & HQ). unfold try_except.
  destruct (body w) as [[a|e|code|] w1]; simpl in *; try done.
  destruct (handles e); [by apply Hh|done].
Qed.

Lemma safe_try_finally {A} (body : M A) fin (Q : A → Prop) :
  safe body Q → safe fin (λ _, True) → safe (try_finally body fin) Q.
Proof.
  intros Hb Hf w Hw. destruct (Hb w Hw) as (Hw1 & Hfuel & HQ). unfold try_finally.
  destruct (body w) as [[a|e|code|] w1]; simpl in *; try done;
    destruct (Hf w1 Hw1) as (Hw2 & Hfuel2 & _);
    destruct (fin w1) as [[[]| | |] w2]; simpl in *; done.
Qed.

(** A computation that leaves the file system alone. *)
Lemma safe_same_fs {A} (c : M A) (Q : A → Prop) :
  (∀ w, w_fs (c w).2 = w_fs w ∧ (c w).1 ≠ OutOfFuel ∧ ∀ a, (c w).1 = Ok a → Q a) →
  safe c Q.
Proof.
  intros Hc w Hw. destruct (Hc w) as (Hfs & ? & ?). by rewrite /keeps Hfs.
Qed.

Lemma safe_log lv msg : safe (log lv msg) (λ _, True).
Proof. by apply safe_same_fs. Qed.

Lemma safe_mkdir_parents d : safe (mkdir_parents d) (λ _, True).
Proof.
  intros w Hw. unfold mkdir_parents, bind, get_fs.
  pose proof (fs_makedirs_grows d [] (w_fs w)) as Hgrow.
  unfold keeps in *.
  destruct (fs_makedirs [] d (w_fs w)) as [m' [|]]; simpl in *;
    (split_and!; [by etrans|done..]).
Qed.

Lemma keeps_insert_temp (n : nat) (p : path) (x : node) (m : fsmap) :
  temp_name E n `prefix_of` p → m0 ⊆ m → m0 ⊆ <[p := x]> m.
Proof. intros Hp Hm. apply insert_subseteq_r; [by eapply Hfresh|done]. Qed.

Lemma keeps_delete (p : path) (m : fsmap) :
  m0 !! p = None → m0 ⊆ m → m0 ⊆ delete p m.
Proof.
  intros Hp Hm. apply map_subseteq_spec. intros q n Hq.
  rewrite lookup_delete_ne; [congruence|]. by eapply lookup_weaken.
Qed.

Lemma safe_named_temporary_file :
  safe (named_temporary_file E) (λ p, ∃ n, p = temp_name E n).
Proof.
  intros w Hw. unfold named_temporary_file, bind, external_call, get_fs, put_fs. simpl.
  split_and!; [|done|by intros ? [= <-]; eexists].
  by apply (keeps_insert_temp (w_calls w)).
Qed.

Lemma safe_mkdtemp : safe (mkdtemp E) (λ p, ∃ n, p = temp_name E n).
Proof.
  intros w Hw. unfold mkdtemp, bind, external_call, get_fs, put_fs. simpl.
  split_and!; [|done|by intros ? [= <-]; eexists].
  by apply (keeps_insert_temp (w_calls w)).
Qed.

Lemma safe_requests_get_stream download_url token :
  safe (requests_get_stream E download_url token) (λ _, True).
Proof.
  apply safe_same_fs. intros w.
  unfold requests_get_stream, bind, emit, external_call. simpl.
  by destruct (archive_api E (w_calls w) download_url).
Qed.

Lemma safe_write_chunks n stream :
  safe (write_chunks (temp_name E n) stream) (λ _, True).
Proof.
  intros w Hw. unfold write_chunks, bind, get_fs, put_fs. simpl.
  destruct stream.2; simpl; (split_and!; [|done..]); by apply (keeps_insert_temp n).
Qed.

Lemma safe_stat_size p : safe (stat_size p) (λ _, True).
Proof.
  apply safe_same_fs. intros w. unfold stat_size, bind, get_fs. simpl.
  by destruct (w_fs w !! p) as [[?|]|].
Qed.

Lemma safe_ZipFile p : safe (ZipFile E p) (λ _, True).
Proof.
  apply safe_same_fs. intros w. unfold ZipFile, bind, get_fs. simpl.
  destruct (w_fs w !! p) as [[data|]|]; try done. by destruct (unzip E data).
Qed.

Lemma keeps_extract_member (n : nat) (e : zip_entry) (m : fsmap) :
  m0 ⊆ m → m0 ⊆ (fs_extract_member (temp_name E n) e m).1.
Proof.
  intros Hm. unfold fs_extract_member.
  pose proof (fs_makedirs_grows (removelast (ze_path e)) (temp_name E n) m) as Hgrow.
  destruct (fs_makedirs _ _ m) as [m1 [|]]; simpl in *; [|by etrans].
  assert (m0 ⊆ m1) as Hm1 by by etrans.
  assert (temp_name E n `prefix_of` temp_name E n ++ ze_path e) as Hpre by by eexists.
  destruct (ze_is_dir e).
  - destruct (m1 !! _) as [[?|]|]; simpl; try done. by apply (keeps_insert_temp n).
  - destruct (ze_readable e); simpl; [|done].
    destruct (m1 !! _) as [[?|]|]; simpl; try done; by apply (keeps_insert_temp n).
Qed.

Lemma safe_extractall n entries :
  safe (extractall entries (temp_name E n)) (λ _, True).
Proof.
  induction entries as [|e rest IH]; [by apply safe_ret|].
  intros w Hw. rewrite extractall_cons.
  pose proof (keeps_extract_member n e (w_fs w) Hw) as Hkeep.
  destruct (fs_extract_member _ e (w_fs w)) as [m' [err|]]; simpl in *.
  - done.
  - by apply IH.
Qed.

Lemma safe_rglob d :
  safe (rglob E d) (λ items, ∀ item, item ∈ items → d `prefix_of` item).
Proof.
  apply safe_same_fs. intros w. unfold rglob, bind, get_fs. simpl.
  split_and!; [done..|]. intros items [= <-] item Hitem.
  rewrite Hscan in Hitem. by apply elem_of_fs_descendants in Hitem as [[? _] _].
Qed.

Lemma safe_flatten_item n output_dir (item : path) :
  temp_name E n `prefix_of` item →
  safe (flatten_item output_dir item) (λ _, True).
Proof.
  intros Hitem w Hw.
  destruct (fs_is_file (w_fs w) item) eqn:Hfile;
    [|by rewrite flatten_item_skips_other].
  unfold fs_is_file in Hfile.
  destruct (w_fs w !! item) as [[data|]|] eqn:Hlook; try done.
  destruct (decide (path_name item = wrapper_name)) as [Hwrap|Hname].
  { by rewrite (flatten_item_skips_wrapper _ _ _ _ Hlook Hwrap). }
  destruct (flatten_item_moves output_dir item data w Hlook Hname)
    as (dest & -> & [Hfree _]).
  simpl. split_and!; [|done..]. unfold keeps. simpl.
  apply insert_subseteq_r; [by eapply lookup_weaken_None|].
  apply keeps_delete; [by eapply Hfresh|done].
Qed.

Lemma safe_flatten_items n output_dir items :
  (∀ item, item ∈ items → temp_name E n `prefix_of` item) →
  ∀ extracted_files, safe (flatten_items output_dir items extracted_files) (λ _, True).
Proof.
  induction items as [|item rest IH]; intros Hitems acc; simpl; [by apply safe_ret|].
  eapply safe_bind; [apply (safe_flatten_item n); apply Hitems; by left|].
  intros [dest|] _; apply IH; intros i Hi; apply Hitems; by right.
Qed.

Lemma safe_shutil_rmtree n : safe (shutil_rmtree (temp_name E n)) (λ _, True).
Proof.
  intros w Hw. unfold shutil_rmtree, bind, get_fs, put_fs, fs_rmtree. simpl.
  split_and!; [|done..]. apply map_subseteq_spec. intros p node Hp.
  apply map_lookup_filter_Some. split; [by eapply lookup_weaken|].
  simpl. intros Hpre. by rewrite (Hfresh n p Hpre) in Hp.
Qed.

Lemma safe_unlink n : safe (unlink (temp_name E n)) (λ _, True).
Proof.
  intros w Hw. unfold unlink, bind, get_fs, put_fs. simpl.
  split_and!; [|done..]. apply keeps_delete; [by eapply Hfresh|done].
Qed.

Lemma safe_extract_archive n output_dir :
  safe (extract_archive E (temp_name E n) output_dir true) (λ _, True).
Proof.
  unfold extract_archive.
  eapply safe_bind; [apply safe_ZipFile|]. intros file_list _.
  eapply safe_bind; [apply safe_log|]. intros _ _.
  eapply safe_bind.
  { instantiate (1 := λ _, True). destruct file_list; [by apply safe_ret|apply safe_log]. }
  intros _ _. eapply safe_bind; [apply safe_mkdtemp|]. intros tdir [k ->].
  eapply safe_bind; [apply safe_extractall|]. intros _ _.
  eapply safe_bind.
  { instantiate (1 := λ _, True).
    eapply safe_bind; [apply safe_rglob|]. intros items Hitems.
    by apply (safe_flatten_items k). }
  intros files _. eapply safe_bind; [apply safe_shutil_rmtree|]. intros _ _.
  eapply safe_bind; [apply safe_log|]. intros _ _. by apply safe_ret.
Qed.

Lemma safe_download_zipfile download_url output_dir token :
  safe (download_zipfile E download_url output_dir token true) (λ _, True).
Proof.
  unfold download_zipfile.
  eapply safe_bind; [apply safe_mkdir_parents|]. intros _ _.
  eapply safe_bind; [apply safe_named_temporary_file|]. intros tmp_path [n ->].
  apply safe_try_finally; [|apply safe_unlink].
  eapply safe_bind; [apply safe_log|]. intros _ _.
  eapply safe_bind; [apply safe_requests_get_stream|]. intros response _.
  eapply safe_bind; [apply safe_write_chunks|]. intros bytes_downloaded _.
  eapply safe_bind; [apply safe_stat_size|]. intros size _.
  eapply safe_bind; [apply safe_log|]. intros _ _.
  destruct (size =? 0).
  - eapply safe_bind; [apply safe_log|]. intros _ _. by apply safe_ret.
  - eapply safe_bind; [apply safe_log|]. intros _ _.
    apply safe_try_except; [apply safe_extract_archive|].
    intros e. eapply safe_bind; [apply safe_log|]. intros _ _. apply safe_raise.
Qed.
End Safe.

(** ** Scans of the temporary directory *)

Lemma prefix_pjoin_inv (d out : path) name :
  d `prefix_of` pjoin out name → d = pjoin out name ∨ d `prefix_of` out.
Proof.
  intros [k Hk]. destruct k as [|x k _] using rev_ind.
  - left. by rewrite app_nil_r in Hk.
  - right. rewrite /pjoin app_assoc in Hk. apply app_inj_tail in Hk as [-> _].
    by eexists.
Qed.

Lemma scan_items (E : environment) (m : fsmap) (tdir output_dir : path) :
  scan_faithful E →
  ¬ tdir `prefix_of` output_dir →
  NoDup (scandir_order E (fs_descendants m tdir)) ∧
  apart output_dir (scandir_order E (fs_descendants m tdir)).
Proof.
  intros Hscan Hout. split.
  - rewrite Hscan. apply NoDup_filter, NoDup_fst_map_to_list.
  - intros item name Hitem ->. rewrite Hscan in Hitem.
    apply elem_of_fs_descendants in Hitem as [[Hpre Hne] _].
    by apply prefix_pjoin_inv in Hpre as [?|?].
Qed.

(** ** The claims about [download_zipfile] *)



(** However [download_zipfile] ends once the destination directory is
    made, the downloaded archive is gone: its removal is in a [finally]. *)
Lemma temporary_archive_always_removed E download_url output_dir token flatten w m1 :
  fs_makedirs [] output_dir (w_fs w) = (m1, true) →
  (download_zipfile E download_url output_dir token flatten w).1 ≠ OutOfFuel →
  w_fs (download_zipfile E download_url output_dir token flatten w).2
    !! temp_name E (w_calls w) = None.
Proof.
  intros Hmk. unfold download_zipfile.
  assert (mkdir_parents output_dir w = (Ok (), set_fs m1 w)) as H1.
  { unfold mkdir_parents, bind, get_fs. by rewrite Hmk. }
  rewrite (bind_Ok _ _ _ _ _ H1).
  erewrite bind_Ok; [|reflexivity]. cbn [w_calls set_fs].
  unfold try_finally.
  destruct (bind _ _ _) as [[files|e|code|] w1]; [| | |done];
    intros _; simpl; apply lookup_delete_eq.
Qed.

(** C3: an archive that opens but has a member that cannot be read makes
    [extractall] raise after the temporary directory was made and partly
    filled; the exception leaves [download_zipfile] with the downloaded
    archive removed but the temporary directory, and what was extracted
    into it, still in place. *)
Theorem extraction_failure_leaves_temp_dir :
  let r := download_zipfile corrupt_archive logs_url ["out"] "token" true fresh_world in
  r.1 = Raise BadZipFile ∧
  w_fs r.2 !! ["tmp"; "tmp0"] = None ∧
  w_fs r.2 !! ["tmp"; "tmp2"] = Some Dir ∧
  w_fs r.2 !! ["tmp"; "tmp2"; "run.log"] = Some (File "build started").
Proof. by vm_compute. Qed.

(** C4, as the specification has it, fails: without flattening the
    scenario ends normally with [artifact.zip] on disk in [logs/]. *)
Lemma nonflatten_leaves_wrapper_on_disk :
  scenario_unflattened.1 = Ok () ∧
  ¬ (w_fs scenario_unflattened.2 !! ["out"; "logs"; "artifact.zip"] = None).
Proof. by vm_compute. Qed.

(** C4, amended: without flattening, no path that [download_zipfile] returns
    is named [artifact.zip]; and the scenario ends normally with the
    directories [logs/] and [build/] in the output directory, [logs/]
    holding [run.log] and also [artifact.zip], [build/] holding [app.bin],
    while the list recorded for ["logs"] is [run.log] alone. *)
Theorem nonflatten_keeps_wrapper_unrecorded E download_url output_dir token
    w files w' :
  download_zipfile E download_url output_dir token false w = (Ok files, w') →
  Forall (λ f, path_name f ≠ wrapper_name) files ∧
  scenario_unflattened.1 = Ok () ∧
  fs_children (w_fs scenario_unflattened.2) ["out"]
    ≡ₚ [["out"; "logs"]; ["out"; "build"]] ∧
  w_fs scenario_unflattened.2 !! ["out"; "logs"] = Some Dir ∧
  w_fs scenario_unflattened.2 !! ["out"; "build"] = Some Dir ∧
  fs_children (w_fs scenario_unflattened.2) ["out"; "logs"]
    ≡ₚ [["out"; "logs"; "run.log"]; ["out"; "logs"; "artifact.zip"]] ∧
  fs_children (w_fs scenario_unflattened.2) ["out"; "build"]
    ≡ₚ [["out"; "build"; "app.bin"]] ∧
  w_fs scenario_unflattened.2 !! ["out"; "logs"; "run.log"]
    = Some (File "build started") ∧
  w_fs scenario_unflattened.2 !! ["out"; "logs"; "artifact.zip"]
    = Some (File "PK-inner") ∧
  w_fs scenario_unflattened.2 !! ["out"; "build"; "app.bin"] = Some (File "ELF") ∧
  (download_zipfile scenario logs_url ["out"; "logs"] "token" false fresh_world).1
    = Ok [["out"; "logs"; "run.log"]].
Proof.
  intros Hrun. split.
  { apply download_zipfile_recorded in Hrun.
    eapply Forall_impl; [exact Hrun|]. by intros f [? _]. }
  split_and!; try by vm_compute.
  vm_compute. apply perm_swap.
Qed.

(** ** The claims at concrete inputs *)

Lemma scenario_scan_faithful : scan_faithful scenario.
Proof. intros l. reflexivity. Qed.

Lemma scenario_temp_names_fresh : temp_names_fresh scenario (w_fs occupied_world).
Proof.
  intros n p [k ->]. simpl.
  rewrite !lookup_insert_ne; [by intros [=]..|].
  apply lookup_empty.
Qed.

Example flatten_item_takes_second_counter :
  (flatten_item ["out"] ["tmp"; "tmp2"; "run.log"] unpacked_world).1
  = Ok (Some ["out"; "run_2.log"]).
Proof. by vm_compute. Qed.

Example parse_run_url_ignores_job_suffix :
  parse_run_url ascii_digit (lit "https://github.com/acme/app/actions/runs/123/job/9")
  = Ok (lit "acme/app", lit "123").
Proof. by vm_compute. Qed.

Example parse_run_url_rejects_other_host :
  parse_run_url ascii_digit (lit "https://gitlab.com/acme/app/actions/runs/123")
  = Raise ValueError.
Proof. by vm_compute. Qed.



Lemma nonflatten_keeps_wrapper_unrecorded_witness :
  (download_zipfile scenario logs_url ["out"; "logs"] "token" false fresh_world).1
    = Ok [["out"; "logs"; "run.log"]] ∧
  Forall (λ f, path_name f ≠ wrapper_name) [["out"; "logs"; "run.log"]].
Proof.
  assert (download_zipfile scenario logs_url ["out"; "logs"] "token" false fresh_world
          = (Ok [["out"; "logs"; "run.log"]],
             (download_zipfile scenario logs_url ["out"; "logs"] "token" false
                fresh_world).2))
    as Hrun by (vm_compute; reflexivity).
  destruct (nonflatten_keeps_wrapper_unrecorded scenario logs_url ["out"; "logs"]
              "token" fresh_world _ _ Hrun) as [Hfiles _].
  split; [by rewrite Hrun | done].
Defined.



Lemma no_wait_on_running_run_exits_witness :
  resolve_token still_running None fresh_world = (Ok "token", fresh_world) ∧
  dict_get (rj_status running_run) ≠ JStr "completed" ∧
  RunStatus_invariant running_run ∧
  (download_artifacts still_running 0 "acme/app" "123" (Some ["out"]) None true false
     60 1800 fresh_world).1 = Exit 1.
Proof.
  assert (resolve_token still_running None fresh_world = (Ok "token", fresh_world))
    as Htok by reflexivity.
  assert (obtain_run still_running 0 "acme/app" "123" "token" false 60 1800 fresh_world
          = (Ok running_run,
             (obtain_run still_running 0 "acme/app" "123" "token" false 60 1800
                fresh_world).2)) as Hrun by (vm_compute; reflexivity).
  assert (dict_get (rj_status running_run) ≠ JStr "completed") as H1
    by (by intros [=]).
  assert (RunStatus_invariant running_run) as H2 by (by intros _).
  destruct (no_wait_on_running_run_exits still_running 0 "acme/app" "123"
              (Some ["out"]) None true 60 1800 fresh_world "token" _ _
              Htok Hrun H1 H2) as (Hexit & _).
  split_and!; [done..|]. by rewrite Hexit.
Defined.

Lemma empty_payload_yields_nothing_witness :
  sum_list (String.length <$> [""]) = 0 ∧
  ∃ w',
    download_zipfile empty_payload logs_url ["out"] "token" true fresh_world
    = (Ok [], w') ∧
    fs_children (w_fs w') ["out"] = [].
Proof.
  assert (fs_makedirs [] ["out"] (w_fs fresh_world)
          = ((fs_makedirs [] ["out"] (w_fs fresh_world)).1, true)) as Hmk
    by (vm_compute; reflexivity).
  assert ((fs_makedirs [] ["out"] (w_fs fresh_world)).1
            !! temp_name empty_payload (w_calls fresh_world) = None) as Hfresh
    by (vm_compute; reflexivity).
  assert (archive_api empty_payload (S (w_calls fresh_world)) logs_url
          = Body ([""], true)) as Hapi by reflexivity.
  assert (sum_list (String.length <$> [""]) = 0) as Hzero by reflexivity.
  destruct (empty_payload_yields_nothing empty_payload logs_url ["out"] "token" true
              fresh_world _ [""] Hmk Hfresh Hapi Hzero)
    as (w' & Hrun & Hfs & _).
  split; [done|]. exists w'. split; [done|]. rewrite Hfs. by vm_compute.
Defined.

Lemma nonempty_artifact_dir_is_skipped_witness :
  w_fs downloaded_world !! pjoin ["out"] "logs" = Some Dir ∧
  w_fs downloaded_world !! pjoin (pjoin ["out"] "logs") "run.log"
    = Some (File "build started") ∧
  ∃ w',
    download_loop scenario ["out"] "token" false
      [("logs", logs_url); ("build", build_url)] 0 downloaded_world
    = download_loop scenario ["out"] "token" false [("build", build_url)] 0 w' ∧
    requests_of (w_trace w') = [].
Proof.
  assert (w_fs downloaded_world !! pjoin ["out"] "logs" = Some Dir) as Hdir
    by reflexivity.
  assert (w_fs downloaded_world !! pjoin (pjoin ["out"] "logs") "run.log"
          = Some (File "build started")) as Hentry by reflexivity.
  destruct (nonempty_artifact_dir_is_skipped scenario ["out"] "token" "logs" logs_url
              [("build", build_url)] 0 downloaded_world "run.log" _ Hdir Hentry)
    as (w' & Hloop & _ & _ & Hreq).
  split_and!; [exact Hdir | exact Hentry |]. exists w'.
  split; [exact Hloop | exact Hreq].
Defined.

(** * Further properties of the program *)

(** ** [list_artifacts] *)

Lemma offered_cons a data :
  offered (a :: data)
  = (if available a then
       match aj_name a, aj_archive_download_url a with
       | Some name, Some download_url => [(name, download_url)]
       | _, _ => []
       end
     else []) ++ offered data.
Proof.
  unfold offered. simpl. destruct (available a); [|done].
  by destruct (aj_name a), (aj_archive_download_url a).
Qed.

Lemma requests_of_found data : requests_of (found_events data) = [].
Proof.
  unfold found_events. induction (offered data) as [|a l IH]; [done|].
  by rewrite fmap_cons requests_of_log.
Qed.

Lemma collect_artifacts_offered data : ∀ artifacts w,
  Forall well_formed_entry data →
  collect_artifacts data artifacts w
  = (Ok (artifacts ++ offered data), add_events (found_events data) w).
Proof.
  induction data as [|a data IH]; intros acc w Hwf.
  { simpl. by rewrite app_nil_r /found_events /add_events /= app_nil_r; destruct w. }
  apply Forall_cons in Hwf as [Ha Hwf].
  cbn [collect_artifacts]. rewrite /found_events offered_cons.
  fold (available a). destruct (available a) eqn:Hav; simpl.
  - destruct (Ha Hav) as [[name Hname] [url Hurl]]. rewrite Hname Hurl.
    unfold bind at 1. rewrite log_spec IH // add_events_app -app_assoc. done.
  - by rewrite IH.
Qed.

Lemma list_artifacts_offered E repo run_id token w data :
  artifacts_api E (w_calls w) repo run_id = Body data →
  Forall well_formed_entry (default [] data) →
  list_artifacts E repo run_id token w
  = (Ok (offered (default [] data)),
     add_events
       ([ EvLog INFO (LFetchingArtifacts (request_url (GetArtifacts repo run_id token)));
          EvRequest (GetArtifacts repo run_id token) ]
        ++ found_events (default [] data)
        ++ (if offered (default [] data) is [] then [EvLog WARNING LNoNonExpired]
            else []))
       (World (w_fs w) (w_now w + latency E (w_calls w))%Q (S (w_calls w)) (w_trace w))).
Proof.
  intros Hapi Hwf.
  unfold list_artifacts. unfold bind at 1. rewrite log_spec. unfold bind at 1.
  unfold emit at 1. unfold bind at 1. unfold external_call at 1.
  cbn [w_calls w_fs w_now w_trace add_events]. rewrite Hapi.
  unfold bind at 1. rewrite collect_artifacts_offered //.
  unfold add_events. cbn [w_calls w_fs w_now w_trace].
  destruct (offered (default [] data)); cbn [app bind log emit ret];
    rewrite -?app_assoc /= ?app_nil_r //.
Qed.

(** X1: given a listing whose unexpired entries carry a name and a download
    address, [list_artifacts] returns exactly the unexpired entries, in the
    order of the listing (expired entries are dropped without their keys
    being read), after one request to the listing endpoint; it warns when
    nothing is left, and it leaves the file system alone. *)
Theorem list_artifacts_returns_unexpired_in_order E repo run_id token w data :
  artifacts_api E (w_calls w) repo run_id = Body data →
  Forall well_formed_entry (default [] data) →
  ∃ w',
    list_artifacts E repo run_id token w = (Ok (offered (default [] data)), w') ∧
    w_fs w' = w_fs w ∧
    w_trace w' = w_trace w
      ++ [ EvLog INFO (LFetchingArtifacts (request_url (GetArtifacts repo run_id token)));
           EvRequest (GetArtifacts repo run_id token) ]
      ++ found_events (default [] data)
      ++ (if offered (default [] data) is [] then [EvLog WARNING LNoNonExpired] else []).
Proof.
  intros Hapi Hwf. eexists. split; [by apply list_artifacts_offered|]. done.
Qed.

(** X2: an unexpired entry that lacks its name or its download address makes
    [list_artifacts] raise [KeyError] for that key, whatever follows it in
    the listing. *)
Theorem list_artifacts_missing_key E repo run_id token w pre a post :
  artifacts_api E (w_calls w) repo run_id = Body (Some (pre ++ a :: post)) →
  Forall well_formed_entry pre →
  available a = true →
  aj_name a = None ∨ aj_archive_download_url a = None →
  ∃ w',
    list_artifacts E repo run_id token w
    = (Raise (KeyError (if aj_name a is None then "name" else "archive_download_url")),
       w') ∧
    w_fs w' = w_fs w.
Proof.
  intros Hapi Hwf Hav Hmiss.
  assert (∀ acc w0, ∃ w1,
            collect_artifacts (pre ++ a :: post) acc w0
            = (Raise (KeyError (if aj_name a is None then "name"
                                else "archive_download_url")), w1) ∧
            w_fs w1 = w_fs w0) as Hcollect.
  { clear Hapi. induction Hwf as [|b pre Hb _ IH]; intros acc w0.
    - cbn [app collect_artifacts]. fold (available a). rewrite Hav. cbn [negb].
      destruct (aj_name a) as [name|]; [|by eexists].
      destruct Hmiss as [?| ->]; [done|]. by eexists.
    - cbn [app collect_artifacts]. fold (available b).
      destruct (available b) eqn:Hb'; cbn [negb]; [|apply IH].
      destruct (Hb Hb') as [[name ->] [url ->]].
      unfold bind at 1. rewrite log_spec.
      destruct (IH (acc ++ [(name, url)]) (add_events [EvLog INFO (LFoundArtifact name)] w0))
        as (w1 & -> & Hfs). by exists w1. }
  unfold list_artifacts. unfold bind at 1. rewrite log_spec. unfold bind at 1.
  unfold emit at 1. unfold bind at 1. unfold external_call at 1.
  cbn [w_calls w_fs w_now w_trace add_events]. rewrite Hapi. cbn [default]. unfold id.
  unfold bind at 1.
  match goal with |- context [collect_artifacts _ [] ?w0] =>
    destruct (Hcollect [] w0) as (w1 & -> & Hfs) end.
  by exists w1.
Qed.

(** ** The first fetch of [download_artifacts] *)

Lemma bind_Exit {A B} (c : M A) (k : A → M B) w code w' :
  c w = (Exit code, w') → bind c k w = (Exit code, w').
Proof. unfold bind. by intros ->. Qed.

(** The world after the first fetch and its log record. *)
Lemma obtain_run_fetched E fuel repo run_id token wait poll_interval timeout w run :
  run_api E (w_calls w) repo run_id = Body run →
  has_all_keys run →
  obtain_run E fuel repo run_id token wait poll_interval timeout w
  = let w1 := add_events
                [EvLog INFO (LRunDetails (dict_get (rj_run_number run))
                               (dict_get (rj_name run)) (dict_get (rj_status run))
                               (dict_get (rj_conclusion run)))]
                (after_fetch E repo run_id token w) in
    if wait && negb (bool_decide (dict_get (rj_status run) = JStr "completed")) then
      (log INFO LWaitingForWorkflow ;;;
       try_except
         (wait_for_workflow_completion E fuel repo run_id token poll_interval timeout)
         is_RuntimeError
         (λ e, log ERROR (LMessage (match e with RuntimeError msg => msg | _ => "" end)) ;;;
               sys_exit 1)) w1
    else (Ok run, w1).
Proof.
  intros Hapi ([nu Hnu] & [na Hna] & [st Hst] & [co Hco]).
  unfold obtain_run. unfold bind at 1. unfold try_except at 1. unfold bind at 1.
  rewrite get_workflow_run_spec Hapi. cbv beta iota.
  rewrite Hnu Hna Hst Hco. cbn [dict_item dict_get default from_option id].
  unfold bind at 1. unfold ret at 1. unfold bind at 1. unfold ret at 1.
  unfold bind at 1. unfold ret at 1. unfold bind at 1. unfold ret at 1.
  unfold bind at 1. rewrite log_spec. unfold ret at 1. cbv beta iota zeta.
  rewrite Hst. change (dict_get (Some st)) with st.
  destruct (wait && _); reflexivity.
Qed.

(** X3: a run that is completed when first fetched is never polled: whether
    or not waiting was asked for, and whatever the budget of the loop,
    [download_artifacts] goes on with the run from the one request made,
    without any sleep. *)
Theorem completed_run_is_not_polled E fuel repo run_id token wait poll_interval
    timeout w run :
  run_api E (w_calls w) repo run_id = Body run →
  has_all_keys run →
  dict_get (rj_status run) = JStr "completed" →
  ∃ w1,
    obtain_run E fuel repo run_id token wait poll_interval timeout w = (Ok run, w1) ∧
    requests_of (w_trace w1) = requests_of (w_trace w) ++ [GetRun repo run_id token] ∧
    sleeps_of (w_trace w1) = sleeps_of (w_trace w) ∧
    w_fs w1 = w_fs w.
Proof.
  intros Hapi Hkeys Hdone. eexists. split.
  - rewrite (obtain_run_fetched _ _ _ _ _ _ _ _ _ _ Hapi Hkeys).
    cbv zeta. rewrite bool_decide_eq_true_2 // andb_false_r. reflexivity.
  - cbn [add_events after_fetch w_trace w_fs].
    rewrite /requests_of /sleeps_of !omap_app /= !app_nil_r. done.
Qed.

(** X4: how the first fetch fails decides how [download_artifacts] ends: an
    HTTP status error is logged and turned into exit code 1, whereas a fault
    below HTTP is not caught and leaves the function as the exception it is.
    Either way nothing else is requested and the file system is untouched. *)
Theorem first_fetch_failure E fuel repo run_id output_dir token flatten wait
    poll_interval timeout w tok :
  resolve_token E token w = (Ok tok, w) →
  (run_api E (w_calls w) repo run_id = HttpFail →
   download_artifacts E fuel repo run_id output_dir token flatten wait
     poll_interval timeout w
   = (Exit 1, add_events [EvLog ERROR LFetchRunFailed] (after_fetch E repo run_id tok w))) ∧
  (run_api E (w_calls w) repo run_id = NetFault →
   download_artifacts E fuel repo run_id output_dir token flatten wait
     poll_interval timeout w
   = (Raise RequestException, after_fetch E repo run_id tok w)).
Proof.
  intros Htok. split; intros Hapi.
  - unfold download_artifacts. rewrite (bind_Ok _ _ _ _ _ Htok).
    erewrite bind_Exit; [reflexivity|].
    unfold obtain_run. erewrite bind_Exit; [reflexivity|].
    unfold try_except. unfold bind at 1. by rewrite get_workflow_run_spec Hapi.
  - unfold download_artifacts. rewrite (bind_Ok _ _ _ _ _ Htok).
    erewrite bind_Raise; [reflexivity|].
    unfold obtain_run. erewrite bind_Raise; [reflexivity|].
    unfold try_except. unfold bind at 1. by rewrite get_workflow_run_spec Hapi.
Qed.

(** ** The polling loop within its budget *)

Lemma sleeps_of_app t1 t2 : sleeps_of (t1 ++ t2) = sleeps_of t1 ++ sleeps_of t2.
Proof. apply omap_app. Qed.

Lemma wait_loop_S E fuel repo run_id token poll_interval timeout start w :
  wait_loop E (S fuel) repo run_id token poll_interval timeout start w
  = bind (wait_iteration E repo run_id token poll_interval timeout start)
      (λ r, match r with
            | Some run => ret run
            | None => wait_loop E fuel repo run_id token poll_interval timeout start
            end) w.
Proof. reflexivity. Qed.

Lemma wait_loop_within_budget E repo run_id token poll_interval timeout start :
  clock_monotone E →
  ∀ n fuel w,
    n < fuel →
    (inject_Z timeout
     <= (w_now w - start) + inject_Z (Z.of_nat n) * inject_Z poll_interval)%Q →
    ∃ r w' k,
      wait_loop E fuel repo run_id token poll_interval timeout start w = (r, w') ∧
      r ≠ OutOfFuel ∧
      k ≤ n ∧
      sleeps_of (w_trace w') = sleeps_of (w_trace w) ++ replicate k poll_interval ∧
      requests_of (w_trace w')
      = requests_of (w_trace w) ++ replicate (S k) (GetRun repo run_id token) ∧
      w_fs w' = w_fs w.
Proof.
  intros Hmono n. induction n as [|n IH]; intros fuel w Hfuel Hbudget;
    (destruct fuel as [|fuel]; [lia|]); rewrite wait_loop_S;
    pose proof (Hmono (w_calls w)) as Hlat;
    (destruct (run_api E (w_calls w) repo run_id) as [| |run] eqn:Hapi;
     [ erewrite bind_Raise; [|by apply iteration_http_fail];
       eexists _, _, 0; split; [reflexivity|]; split_and!; [done|lia| | |done];
       cbn [add_events after_fetch w_trace fetch_events];
       rewrite ?sleeps_of_app ?requests_of_app /= ?app_nil_r //
     | erewrite bind_Raise; [|by apply iteration_net_fault];
       eexists _, _, 0; split; [reflexivity|]; split_and!; [done|lia| | |done];
       cbn [add_events after_fetch w_trace fetch_events];
       rewrite ?sleeps_of_app ?requests_of_app /= ?app_nil_r //
     | ]);
    (destruct (decide (dict_get (rj_status run) = JStr "completed")) as [Hdone|Hrunning];
     [ erewrite bind_Ok; [|by apply iteration_completed];
       eexists _, _, 0; split; [reflexivity|]; split_and!; [done|lia| | |done];
       cbn [add_events after_fetch w_trace fetch_events];
       rewrite ?sleeps_of_app ?requests_of_app /= ?app_nil_r //
     | ]);
    (destruct (Qle_bool (inject_Z timeout)
                 (w_now (after_fetch E repo run_id token w) - start)) eqn:Htest;
     [ erewrite bind_Raise; [|by apply iteration_timeout];
       eexists _, _, 0; split; [reflexivity|]; split_and!; [done|lia| | |done];
       cbn [add_events after_fetch w_trace fetch_events];
       rewrite ?sleeps_of_app ?requests_of_app ?sleeps_of_notification
         ?requests_of_notification /= ?app_nil_r //
     | ]);
    pose proof Htest as Htest'; apply Qle_bool_false in Htest';
    cbn [w_now after_fetch] in Htest'.
  - (* no budget left: the test cannot fail *)
    exfalso. change (inject_Z (Z.of_nat 0)) with 0%Q in Hbudget. lra.
  - unfold bind at 1. rewrite (iteration_sleep _ _ _ _ _ _ _ _ _ Hapi Hrunning Htest).
    destruct (Z.ltb_spec poll_interval 0) as [Hneg|Hpos].
    + eexists _, _, 0. split; [reflexivity|].
      split_and!; [done|lia| | |done];
        cbn [add_events after_fetch w_trace fetch_events];
        rewrite ?sleeps_of_app ?requests_of_app /= ?app_nil_r //.
    + cbv beta iota.
      set (w2 := after_sleep E poll_interval _).
      destruct (IH fuel w2) as (r & w' & k & Hrun & Hr & Hk & Hsl & Hrq & Hfs); [lia| |].
      { subst w2. cbn [w_now after_sleep add_events after_fetch].
        pose proof (Hmono (S (w_calls w))) as Hlat2.
        cbn [w_calls add_events after_fetch] in *.
        rewrite Nat2Z.inj_succ -Z.add_1_r inject_Z_plus in Hbudget.
        change (inject_Z 1) with 1%Q in Hbudget. lra. }
      exists r, w', (S k). split; [exact Hrun|]. split_and!; [done|lia| | |].
      * rewrite Hsl. subst w2. cbn [w_trace after_sleep add_events after_fetch fetch_events].
        rewrite !sleeps_of_app /= !app_nil_r -app_assoc //.
      * rewrite Hrq. subst w2. cbn [w_trace after_sleep add_events after_fetch fetch_events].
        rewrite !requests_of_app /= !app_nil_r -app_assoc //.
      * rewrite Hfs. done.
Qed.

(** X5: with a clock that does not run backwards and a timeout of at most
    [n] poll intervals, the poller ends within [n + 1] passes of its loop:
    it sleeps at most [n] times, each time for the poll interval, asks for
    the run once more than it sleeps, asks for nothing else and leaves the
    file system alone. *)
Theorem polling_ends_within_budget E n fuel repo run_id token poll_interval timeout w :
  clock_monotone E →
  (timeout ≤ Z.of_nat n * poll_interval)%Z →
  n < fuel →
  ∃ r w' k,
    wait_for_workflow_completion E fuel repo run_id token poll_interval timeout w
    = (r, w') ∧
    r ≠ OutOfFuel ∧
    k ≤ n ∧
    sleeps_of (w_trace w') = sleeps_of (w_trace w) ++ replicate k poll_interval ∧
    requests_of (w_trace w')
    = requests_of (w_trace w) ++ replicate (S k) (GetRun repo run_id token) ∧
    w_fs w' = w_fs w.
Proof.
  intros Hmono Hbudget Hfuel.
  unfold wait_for_workflow_completion. unfold bind at 1. unfold time_time at 1.
  apply wait_loop_within_budget; [done..|].
  rewrite Zle_Qle inject_Z_mult in Hbudget. lra.
Qed.

(** ** The orchestrator after the first fetch *)

Lemma check_conclusion_success E run_id run w :
  dict_get (rj_conclusion run) = JStr "success" →
  check_conclusion E run_id run w
  = (Ok (),
     add_events
       (EvLog INFO LWorkflowSucceeded
        :: notification_events E succeeded_title
             (run_headline (dict_get_default (rj_run_number run) (JStr run_id))
                (dict_get_default (rj_name run) (JStr "Unknown"))
              +:+ "Ready to download artifacts")) w).
Proof.
  intros Hc. unfold check_conclusion. rewrite Hc bool_decide_eq_true_2 //.
  unfold bind at 1. rewrite log_spec send_notification_spec add_events_app. done.
Qed.

(** X6: an HTTP status error at the first fetch is turned into exit code 1,
    but the same error while polling is only logged and raised again:
    [download_artifacts] ends with the exception, after two requests for the
    run and no sleep. *)
Theorem polling_http_error_escapes E fuel repo run_id output_dir token flatten
    poll_interval timeout w tok run :
  resolve_token E token w = (Ok tok, w) →
  run_api E (w_calls w) repo run_id = Body run →
  has_all_keys run →
  dict_get (rj_status run) ≠ JStr "completed" →
  run_api E (S (w_calls w)) repo run_id = HttpFail →
  ∃ w',
    download_artifacts E (S fuel) repo run_id output_dir token flatten true
      poll_interval timeout w = (Raise HTTPError, w') ∧
    requests_of (w_trace w')
    = requests_of (w_trace w) ++ [GetRun repo run_id tok; GetRun repo run_id tok] ∧
    sleeps_of (w_trace w') = sleeps_of (w_trace w) ∧
    last (w_trace w') = Some (EvLog ERROR LFetchStatusFailed) ∧
    w_fs w' = w_fs w.
Proof.
  intros Htok Hapi Hkeys Hrunning Hfail. eexists. split.
  - unfold download_artifacts. rewrite (bind_Ok _ _ _ _ _ Htok).
    erewrite bind_Raise; [reflexivity|].
    rewrite (obtain_run_fetched _ _ _ _ _ _ _ _ _ _ Hapi Hkeys). cbv zeta.
    rewrite bool_decide_eq_false_2 //. cbn [andb negb].
    unfold bind at 1. rewrite log_spec.
    unfold try_except, wait_for_workflow_completion. unfold bind at 1.
    unfold time_time at 1. rewrite wait_loop_S.
    erewrite (bind_Raise (wait_iteration _ _ _ _ _ _ _));
      [|by apply iteration_http_fail].
    reflexivity.
  - cbn [add_events after_fetch w_trace w_fs fetch_events].
    split_and!; [| | |done].
    + rewrite !requests_of_app /= !app_nil_r -app_assoc //.
    + rewrite !sleeps_of_app /= !app_nil_r //.
    + by rewrite last_snoc.
Qed.


Lemma list_artifacts_fails E repo run_id token w :
  list_artifacts E repo run_id token w
  = match artifacts_api E (w_calls w) repo run_id with
    | HttpFail => (Raise HTTPError, after_listing E repo run_id token w)
    | NetFault => (Raise RequestException, after_listing E repo run_id token w)
    | Body data => list_artifacts E repo run_id token w
    end.
Proof.
  destruct (artifacts_api E (w_calls w) repo run_id) eqn:Hapi; [| |done];
    unfold list_artifacts; unfold bind at 1; rewrite log_spec; unfold bind at 1;
    unfold emit at 1; unfold bind at 1; unfold external_call at 1;
    cbn [w_calls w_fs w_now w_trace add_events]; rewrite Hapi;
    rewrite /raise /after_listing -app_assoc //.
Qed.


(** ** No token *)

(** X9: without [--token], with [GITHUB_TOKEN] unset or empty and no token
    from [ghtoken] (not installed, or failing), [main] logs the message of
    [get_github_token] and exits with code 1 before any request is made. *)
Theorem missing_token_exits E unicode_Nd encode to_path fuel args w parsed w' :
  parse_input unicode_Nd encode args w = (Ok parsed, w') →
  arg_token args = None →
  env_GITHUB_TOKEN E = None ∨ env_GITHUB_TOKEN E = Some "" →
  ghtoken E = None ∨ ghtoken E = Some None →
  main E unicode_Nd encode to_path fuel args w
  = (Exit 1, add_events [EvLog ERROR (LMessage token_missing_msg)] w').
Proof.
  intros Hparse Htoken Henv Hgh.
  unfold main. rewrite (bind_Ok _ _ _ _ _ Hparse).
  destruct parsed as [[repo run_id] output_dir].
  unfold try_except, download_artifacts. rewrite Htoken. cbn [fmap option_fmap option_map].
  unfold bind at 1. unfold resolve_token, get_github_token.
  destruct Henv as [-> | ->], Hgh as [-> | ->]; cbn; by rewrite app_nil_r || done.
Qed.

(** ** The download loop *)

(** X10: without flattening, a regular file where the directory of an
    artifact should be makes the loop end with the error of listing it: the
    test is outside the [try] of the loop, so it is not turned into an exit,
    and nothing is requested. *)
Theorem artifact_dir_is_a_file E output_path token name download_url rest total w data :
  w_fs w !! pjoin output_path name = Some (File data) →
  download_loop E output_path token false ((name, download_url) :: rest) total w
  = (Raise OSError, w).
Proof.
  intros Hfile. cbn [download_loop negb]. unfold bind at 1.
  unfold exists_and_nonempty. unfold bind at 1. unfold get_fs at 1. by rewrite Hfile.
Qed.

(** X11: a download that raises ends the loop: the failure is logged and
    the program exits with code 1, whatever artifacts are left. *)
Theorem failed_download_stops_loop E output_path token flatten name download_url
    rest total w e w' :
  (flatten = false → w_fs w !! pjoin output_path name = None) →
  download_zipfile E download_url
    (if flatten then output_path else pjoin output_path name) token flatten
    (add_events [EvLog INFO (LDownloadingArtifact name)] w) = (Raise e, w') →
  download_loop E output_path token flatten ((name, download_url) :: rest) total w
  = (Exit 1, add_events [EvLog ERROR (LDownloadFailed name e)] w').
Proof.
  intros Hdir Hfail. cbn [download_loop].
  assert ((if negb flatten
           then exists_and_nonempty (if flatten then output_path else pjoin output_path name)
           else ret false) w = (Ok false, w)) as Hskip.
  { destruct flatten; [done|]. cbn [negb]. unfold exists_and_nonempty, bind, get_fs.
    by rewrite Hdir. }
  rewrite (bind_Ok _ _ _ _ _ Hskip). cbv iota.
  erewrite (bind_Exit (try_except _ _ _)); [reflexivity|].
  unfold try_except. unfold bind at 1. rewrite log_spec.
  rewrite (bind_Raise _ _ _ _ _ Hfail). cbn [is_Exception].
  unfold bind at 1. by rewrite log_spec.
Qed.

(** ** What the poller returns *)

Lemma wait_loop_returns_completed E repo run_id token poll_interval timeout start :
  ∀ fuel w run w',
    wait_loop E fuel repo run_id token poll_interval timeout start w = (Ok run, w') →
    dict_get (rj_status run) = JStr "completed" ∧
    run_api E (Nat.pred (w_calls w')) repo run_id = Body run ∧
    last (w_trace w')
    = Some (EvLog INFO (LWorkflowCompleted (dict_get (rj_status run))
                          (dict_get (rj_conclusion run)))).
Proof.
  induction fuel as [|fuel IH]; intros w run w'; [done|].
  rewrite wait_loop_S. unfold bind at 1.
  destruct (run_api E (w_calls w) repo run_id) as [| |run0] eqn:Hapi.
  - by rewrite iteration_http_fail.
  - by rewrite iteration_net_fault.
  - destruct (decide (dict_get (rj_status run0) = JStr "completed")) as [Hdone|Hrunning].
    { rewrite (iteration_completed _ _ _ _ _ _ _ _ _ Hapi Hdone).
      intros [= <- <-]. split_and!; [done..|].
      cbn [add_events w_trace]. by rewrite last_snoc. }
    destruct (Qle_bool (inject_Z timeout)
                (w_now (after_fetch E repo run_id token w) - start)) eqn:Htest.
    { by rewrite (iteration_timeout _ _ _ _ _ _ _ _ _ Hapi Hrunning Htest). }
    rewrite (iteration_sleep _ _ _ _ _ _ _ _ _ Hapi Hrunning Htest).
    destruct (poll_interval <? 0)%Z; [done|]. apply IH.
Qed.

(** X12: whatever the poller returns is a completed run: the answer to the
    last request made, with the completion logged last. *)
Theorem poller_returns_completed_run E fuel repo run_id token poll_interval
    timeout w run w' :
  wait_for_workflow_completion E fuel repo run_id token poll_interval timeout w
  = (Ok run, w') →
  dict_get (rj_status run) = JStr "completed" ∧
  run_api E (Nat.pred (w_calls w')) repo run_id = Body run ∧
  last (w_trace w')
  = Some (EvLog INFO (LWorkflowCompleted (dict_get (rj_status run))
                        (dict_get (rj_conclusion run)))).
Proof.
  unfold wait_for_workflow_completion. unfold bind at 1. unfold time_time at 1.
  apply wait_loop_returns_completed.
Qed.

(** ** Downloads that fail *)

(** X13: a download that is rejected, fails below HTTP, or breaks off in
    mid-stream makes [download_zipfile] raise the error of the transport
    after its one request; the temporary file (with what had arrived) is
    removed, so the file system is exactly what creating the destination
    directory made it. *)
Theorem transport_failure_leaves_no_file E download_url output_dir token flatten
    w m1 :
  fs_makedirs [] output_dir (w_fs w) = (m1, true) →
  m1 !! temp_name E (w_calls w) = None →
  ∃ w',
    w_fs w' = m1 ∧
    w_trace w' = w_trace w ++ [ EvLog INFO (LDownloadingFrom download_url);
                                EvRequest (GetArchive download_url token) ] ∧
    (archive_api E (S (w_calls w)) download_url = HttpFail →
     download_zipfile E download_url output_dir token flatten w = (Raise HTTPError, w')) ∧
    (archive_api E (S (w_calls w)) download_url = NetFault →
     download_zipfile E download_url output_dir token flatten w
     = (Raise RequestException, w')) ∧
    (∀ chunks, archive_api E (S (w_calls w)) download_url = Body (chunks, false) →
     download_zipfile E download_url output_dir token flatten w
     = (Raise RequestException, w')).
Proof.
  intros Hmk Hfresh.
  exists (World m1 (w_now w + latency E (w_calls w) + latency E (S (w_calls w)))%Q
            (S (S (w_calls w)))
            (w_trace w ++ [ EvLog INFO (LDownloadingFrom download_url);
                            EvRequest (GetArchive download_url token) ])).
  split_and!; [done..| | |]; [intros Hapi..|intros chunks Hapi];
    unfold download_zipfile, mkdir_parents, named_temporary_file, try_finally,
      requests_get_stream, write_chunks, stat_size, unlink, bind, get_fs, put_fs,
      external_call, log, emit, ret, raise; simpl;
    rewrite Hmk /= Hapi /= -?app_assoc /= ?insert_insert_eq delete_insert_id //.
Qed.

(** X14: a payload that is not a zip archive makes [download_zipfile] log the
    failure and raise [BadZipFile]; no temporary directory is made and the
    downloaded file is removed, so the file system is exactly what creating
    the destination directory made it. *)
Theorem bad_archive_leaves_no_file E download_url output_dir token flatten
    w m1 chunks :
  fs_makedirs [] output_dir (w_fs w) = (m1, true) →
  m1 !! temp_name E (w_calls w) = None →
  archive_api E (S (w_calls w)) download_url = Body (chunks, true) →
  sum_list (String.length <$> chunks) ≠ 0 →
  unzip E (foldr String.append "" (filter (λ chunk, chunk ≠ "") chunks)) = None →
  ∃ w',
    download_zipfile E download_url output_dir token flatten w = (Raise BadZipFile, w') ∧
    w_fs w' = m1 ∧
    w_calls w' = S (S (w_calls w)) ∧
    last (w_trace w') = Some (EvLog ERROR (LExtractFailed BadZipFile)).
Proof.
  intros Hmk Hfresh Hapi Hbytes Hunzip.
  set (data := foldr String.append "" (filter (λ chunk, chunk ≠ "") chunks)) in *.
  assert ((String.length data =? 0) = false) as Hsize.
  { apply Nat.eqb_neq. intros Hlen. apply Hbytes. clear -Hlen. subst data.
    induction chunks as [|chunk chunks IH]; [done|]. simpl.
    destruct (decide (chunk ≠ "")) as [Hne|Hempty].
    - rewrite filter_cons_True // in Hlen. simpl in Hlen.
      rewrite str_length_app in Hlen. destruct chunk; [done|simpl in Hlen; lia].
    - rewrite filter_cons_False // in Hlen.
      assert (chunk = "") as -> by (by destruct (decide (chunk = "")); [|exfalso; auto]).
      by apply IH. }
  eexists. split; [|split_and!].
  - unfold download_zipfile, mkdir_parents, named_temporary_file, try_finally,
      requests_get_stream, write_chunks, stat_size, unlink, extract_archive, ZipFile,
      try_except, bind, get_fs, put_fs, external_call, log, emit, ret, raise. simpl.
    rewrite Hmk /= Hapi /=. rewrite lookup_insert_eq /=. fold data.
    rewrite Hsize /=. rewrite lookup_insert_eq /= Hunzip /=. reflexivity.
  - simpl. rewrite insert_insert_eq. by apply delete_insert_id.
  - done.
  - simpl. by rewrite last_snoc.
Qed.

(** ** What a download asks for and touches *)

Lemma sleeps_of_log lv m t : sleeps_of (EvLog lv m :: t) = sleeps_of t.
Proof. reflexivity. Qed.

Section Behaves.
Variable E : environment.
Variable allowed : path → Prop.
Variable exits : Z → Prop.
Hypothesis Htemp : ∀ n p, temp_name E n `prefix_of` p → allowed p.
Hypothesis Hscanned : ∀ n (m : fsmap) item,
  item ∈ scandir_order E (fs_descendants m (temp_name E n)) → allowed item.

Local Abbreviation step := (step allowed).
Local Abbreviation behaves := (behaves allowed exits).

Lemma step_refl l w : step l w w.
Proof.
  split; [|done]. exists []. rewrite app_nil_r. split_and!; [done| |done].
  apply sublist_nil_l.
Qed.

Lemma step_trans l1 l2 w1 w2 w3 :
  step l1 w1 w2 → step l2 w2 w3 → step (l1 ++ l2) w1 w3.
Proof.
  intros [(t1 & Ht1 & Hr1 & Hs1) Hfs1] [(t2 & Ht2 & Hr2 & Hs2) Hfs2]. split.
  - exists (t1 ++ t2). rewrite Ht2 Ht1 app_assoc. split_and!; [done| |].
    + rewrite requests_of_app. by apply sublist_app.
    + by rewrite sleeps_of_app Hs1 Hs2.
  - intros p Hp. by rewrite Hfs2 // Hfs1.
Qed.

Lemma step_weaken l l' w w' : l `sublist_of` l' → step l w w' → step l' w w'.
Proof.
  intros Hl [(t & Ht & Hr & Hs) Hfs]. split; [|done].
  exists t. split_and!; [done| |done]. by etrans.
Qed.

(** A step that only logs. *)
Lemma step_events evs w :
  requests_of evs = [] → sleeps_of evs = [] → step [] w (add_events evs w).
Proof.
  intros Hr Hs. split; [|done]. exists evs. rewrite Hr. by split_and!.
Qed.

(** A step that changes the file system at allowed paths only. *)
Lemma step_fs (l : list request) (m : fsmap) (now : Q) (calls : nat) (w : world) :
  (∀ p, ¬ allowed p → m !! p = w_fs w !! p) →
  step l w (World m now calls (w_trace w)).
Proof.
  intros Hm. split; [|done]. exists []. rewrite app_nil_r. split_and!; [done| |done].
  apply sublist_nil_l.
Qed.

Lemma behaves_weaken {A} l l' (c : M A) (Q Q' : A → Prop) :
  l `sublist_of` l' → (∀ a, Q a → Q' a) → behaves l c Q → behaves l' c Q'.
Proof.
  intros Hl HQ Hc w. destruct (Hc w) as (Hstep & Hend & Hval).
  split_and!; [by eapply step_weaken|done|]. intros a Ha. by apply HQ, Hval.
Qed.

Lemma behaves_ret {A} (a : A) (Q : A → Prop) : Q a → behaves [] (ret a) Q.
Proof. intros HQ w. split_and!; [apply step_refl|done|]. by intros ? [= <-]. Qed.

Lemma behaves_raise {A} e (Q : A → Prop) : behaves [] (raise e) Q.
Proof. intros w. split_and!; [apply step_refl|done..]. Qed.

Lemma behaves_sys_exit {A} code (Q : A → Prop) : exits code → behaves [] (sys_exit code) Q.
Proof. intros Hcode w. split_and!; [apply step_refl|done..]. Qed.

Lemma behaves_bind {A B} l1 l2 (c : M A) (k : A → M B) (Q1 : A → Prop) (Q : B → Prop) :
  behaves l1 c Q1 → (∀ a, Q1 a → behaves l2 (k a) Q) → behaves (l1 ++ l2) (bind c k) Q.
Proof.
  intros Hc Hk w. destruct (Hc w) as (Hstep & Hend & Hval). unfold bind.
  destruct (c w) as [[a|e|code|] w1]; simpl in *; try done.
  - destruct (Hk a (Hval a eq_refl) w1) as (Hstep2 & Hend2 & Hval2).
    split_and!; [by eapply step_trans|done..].
  - split_and!; [|done..]. eapply step_weaken; [|done]. by apply sublist_inserts_r.
  - split_and!; [|done..]. eapply step_weaken; [|done]. by apply sublist_inserts_r.
Qed.

Lemma behaves_try_except {A} l1 l2 (body : M A) handles handler (Q : A → Prop) :
  behaves l1 body Q → (∀ e, behaves l2 (handler e) Q) →
  behaves (l1 ++ l2) (try_except body handles handler) Q.
Proof.
  intros Hb Hh w. destruct (Hb w) as (Hstep & Hend & Hval). unfold try_except.
  assert (step (l1 ++ l2) w (body w).2) as Hstep'.
  { eapply step_weaken; [|done]. by apply sublist_inserts_r. }
  destruct (body w) as [[a|e|code|] w1]; simpl in *; try done.
  destruct (handles e); [|done].
  destruct (Hh e w1) as (Hstep2 & Hend2 & Hval2).
  split_and!; [by eapply step_trans|done..].
Qed.

Lemma behaves_try_finally {A} l1 l2 (body : M A) fin (Q : A → Prop) :
  behaves l1 body Q → behaves l2 fin (λ _, True) →
  behaves (l1 ++ l2) (try_finally body fin) Q.
Proof.
  intros Hb Hf w. destruct (Hb w) as (Hstep & Hend & Hval). unfold try_finally.
  destruct (body w) as [[a|e|code|] w1]; simpl in *; try done;
    destruct (Hf w1) as (Hstep2 & Hend2 & _);
    destruct (fin w1) as [[[]| | |] w2]; simpl in *; try done;
    (split_and!; [by eapply step_trans|done..]).
Qed.

Lemma behaves_log lv msg : behaves [] (log lv msg) (λ _, True).
Proof. intros w. rewrite log_spec. split_and!; [by apply step_events|done..]. Qed.

Lemma behaves_mkdir_parents d :
  (∀ p, p `prefix_of` d → allowed p) →
  behaves [] (mkdir_parents d) (λ _, True).
Proof.
  intros Hd w. unfold mkdir_parents, bind, get_fs.
  assert (∀ p, ¬ allowed p → (fs_makedirs [] d (w_fs w)).1 !! p = w_fs w !! p) as Hfs.
  { intros p Hp. destruct (fs_makedirs_changes d [] (w_fs w) p) as [HH|(_ & Hpd & _)];
      [done|]. destruct Hp. by apply Hd. }
  destruct (fs_makedirs [] d (w_fs w)) as [m' [|]]; simpl in *;
    (split_and!; [by apply step_fs|done..]).
Qed.

Lemma behaves_named_temporary_file :
  behaves [] (named_temporary_file E) (λ p, ∃ n, p = temp_name E n).
Proof.
  intros w. unfold named_temporary_file, bind, external_call, get_fs, put_fs. simpl.
  split_and!; [|done|by intros ? [= <-]; eexists].
  apply step_fs. intros p Hp. rewrite lookup_insert_ne //.
  intros <-. apply Hp. by eapply Htemp.
Qed.

Lemma behaves_mkdtemp : behaves [] (mkdtemp E) (λ p, ∃ n, p = temp_name E n).
Proof.
  intros w. unfold mkdtemp, bind, external_call, get_fs, put_fs. simpl.
  split_and!; [|done|by intros ? [= <-]; eexists].
  apply step_fs. intros p Hp. rewrite lookup_insert_ne //.
  intros <-. apply Hp. by eapply Htemp.
Qed.

Lemma behaves_requests_get_stream download_url token :
  behaves [GetArchive download_url token] (requests_get_stream E download_url token)
    (λ _, True).
Proof.
  intros w. unfold requests_get_stream, bind, emit, external_call. simpl.
  assert (step [GetArchive download_url token] w
            (World (w_fs w) (w_now w + latency E (w_calls w))%Q (S (w_calls w))
               (w_trace w ++ [EvRequest (GetArchive download_url token)]))) as Hstep.
  { split; [|done]. by exists [EvRequest (GetArchive download_url token)]. }
  by destruct (archive_api E (w_calls w) download_url).
Qed.

Lemma behaves_write_chunks n stream :
  behaves [] (write_chunks (temp_name E n) stream) (λ _, True).
Proof.
  intros w. unfold write_chunks, bind, get_fs, put_fs. simpl.
  assert (∀ x, step [] w (World (<[temp_name E n := x]> (w_fs w)) (w_now w) (w_calls w)
                            (w_trace w))) as Hstep.
  { intros x. apply step_fs. intros p Hp. rewrite lookup_insert_ne //.
    intros <-. apply Hp. by eapply Htemp. }
  destruct stream as [chunks []]; simpl; (split_and!; [apply Hstep|done..]).
Qed.

Lemma behaves_stat_size p : behaves [] (stat_size p) (λ _, True).
Proof.
  intros w. unfold stat_size, bind, get_fs. simpl. pose proof (step_refl [] w).
  by destruct (w_fs w !! p) as [[?|]|].
Qed.

Lemma behaves_ZipFile p : behaves [] (ZipFile E p) (λ _, True).
Proof.
  intros w. unfold ZipFile, bind, get_fs. simpl. pose proof (step_refl [] w).
  destruct (w_fs w !! p) as [[data|]|]; try done. by destruct (unzip E data).
Qed.

Lemma fs_extract_member_changes (target : path) (e : zip_entry) (m : fsmap) (p : path) :
  ¬ target `prefix_of` p → (fs_extract_member target e m).1 !! p = m !! p.
Proof.
  intros Hp. unfold fs_extract_member.
  assert ((fs_makedirs target (removelast (ze_path e)) m).1 !! p = m !! p) as Hmk.
  { destruct (fs_makedirs_changes (removelast (ze_path e)) target m p)
      as [HH|(_ & _ & [Hpre _])]; done. }
  assert (p ≠ target ++ ze_path e) as Hne.
  { intros ->. apply Hp. by eexists. }
  destruct (fs_makedirs _ _ m) as [m1 [|]]; cbn [fst] in *; [|done].
  destruct (ze_is_dir e).
  - destruct (m1 !! (target ++ ze_path e)) as [[?|]|]; cbn [fst];
      rewrite ?lookup_insert_ne //.
  - destruct (ze_readable e); cbn [negb fst]; [|done].
    destruct (m1 !! (target ++ ze_path e)) as [[?|]|]; cbn [fst];
      rewrite ?lookup_insert_ne //.
Qed.

Lemma behaves_extractall entries target :
  (∀ p, target `prefix_of` p → allowed p) →
  behaves [] (extractall entries target) (λ _, True).
Proof.
  intros Htarget. induction entries as [|e rest IH]; [by apply behaves_ret|].
  intros w. rewrite extractall_cons.
  assert (step [] w (set_fs (fs_extract_member target e (w_fs w)).1 w)) as Hstep.
  { apply step_fs. intros p Hp. apply fs_extract_member_changes. intros Hpre.
    by apply Hp, Htarget. }
  destruct (fs_extract_member _ e (w_fs w)) as [m' [err|]]; simpl in *; [done|].
  destruct (IH (set_fs m' w)) as (Hstep2 & Hend & Hval).
  split_and!; [by apply (step_trans [] [] _ _ _ Hstep)|done..].
Qed.

Lemma behaves_rglob d :
  behaves [] (rglob E d) (λ items, ∃ m : fsmap, items = scandir_order E (fs_descendants m d)).
Proof.
  intros w. unfold rglob, bind, get_fs. simpl.
  split_and!; [apply step_refl|done|]. intros ? [= <-]. by eexists.
Qed.

Lemma behaves_flatten_item output_dir (item : path) :
  allowed item → (∀ name, allowed (pjoin output_dir name)) →
  behaves [] (flatten_item output_dir item) (λ _, True).
Proof.
  intros Hitem Hout w.
  destruct (fs_is_file (w_fs w) item) eqn:Hfile;
    [|rewrite flatten_item_skips_other //; split_and!; [apply step_refl|done..]].
  unfold fs_is_file in Hfile.
  destruct (w_fs w !! item) as [[data|]|] eqn:Hlook; try done.
  destruct (decide (path_name item = wrapper_name)) as [Hwrap|Hname].
  { rewrite (flatten_item_skips_wrapper _ _ _ _ Hlook Hwrap).
    split_and!; [by apply step_events|done..]. }
  destruct (flatten_item_moves output_dir item data w Hlook Hname)
    as (dest & -> & Hres).
  destruct (resolved_name_direct _ _ _ _ Hname Hres) as (name' & -> & _).
  simpl. split_and!; [|done..]. split.
  - by exists [EvLog INFO (LExtracted (path_name item))].
  - simpl. intros p Hp. rewrite lookup_insert_ne; [intros <-; by apply Hp|].
    rewrite lookup_delete_ne //. intros <-. by apply Hp.
Qed.

Lemma behaves_flatten_items output_dir items :
  (∀ item, item ∈ items → allowed item) → (∀ name, allowed (pjoin output_dir name)) →
  ∀ extracted_files,
    behaves [] (flatten_items output_dir items extracted_files) (λ _, True).
Proof.
  intros Hitems Hout. induction items as [|item rest IH]; intros acc; simpl;
    [by apply behaves_ret|].
  apply (behaves_bind [] [] _ _ (λ _, True));
    [apply behaves_flatten_item; [apply Hitems; by left|done]|].
  intros [dest|] _; apply IH; intros i Hi; apply Hitems; by right.
Qed.

Lemma behaves_shutil_rmtree n : behaves [] (shutil_rmtree (temp_name E n)) (λ _, True).
Proof.
  intros w. unfold shutil_rmtree, bind, get_fs, put_fs, fs_rmtree. simpl.
  split_and!; [|done..]. apply step_fs. intros p Hp.
  destruct (w_fs w !! p) as [x|] eqn:Hlook.
  - apply map_lookup_filter_Some. split; [done|]. simpl. intros Hpre.
    by apply Hp, (Htemp n).
  - apply map_lookup_filter_None. by left.
Qed.

Lemma behaves_unlink n : behaves [] (unlink (temp_name E n)) (λ _, True).
Proof.
  intros w. unfold unlink, bind, get_fs, put_fs. simpl.
  split_and!; [|done..]. apply step_fs. intros p Hp. rewrite lookup_delete_ne //.
  intros <-. apply Hp. by eapply Htemp.
Qed.

Lemma behaves_extract_archive n output_dir flatten :
  (∀ p, output_dir `prefix_of` p → allowed p) →
  behaves [] (extract_archive E (temp_name E n) output_dir flatten) (λ _, True).
Proof.
  intros Hout. unfold extract_archive.
  apply (behaves_bind [] [] _ _ (λ _, True)); [apply behaves_ZipFile|]. intros file_list _.
  apply (behaves_bind [] [] _ _ (λ _, True)); [apply behaves_log|]. intros _ _.
  apply (behaves_bind [] [] _ _ (λ _, True)).
  { destruct file_list; [by apply behaves_ret|apply behaves_log]. }
  intros _ _.
  apply (behaves_bind [] [] _ _ (λ p, ∃ k, p = temp_name E k)); [apply behaves_mkdtemp|].
  intros tdir [k ->].
  apply (behaves_bind [] [] _ _ (λ _, True)).
  { apply behaves_extractall. by apply Htemp. }
  intros _ _.
  apply (behaves_bind [] [] _ _ (λ _, True)).
  { destruct flatten.
    - eapply (behaves_bind [] []); [apply behaves_rglob|].
      intros items [m ->]. apply behaves_flatten_items.
      + intros item Hitem. by eapply Hscanned.
      + intros name. apply Hout. by eexists.
    - apply (behaves_bind [] [] _ _ (λ _, True)); [by apply behaves_extractall|].
      intros _ _. eapply (behaves_bind [] []); [apply behaves_rglob|]. intros items _.
      intros w. unfold bind, get_fs, ret. simpl. split_and!; [apply step_refl|done..]. }
  intros files _.
  apply (behaves_bind [] [] _ _ (λ _, True)); [apply behaves_shutil_rmtree|]. intros _ _.
  apply (behaves_bind [] [] _ _ (λ _, True)); [apply behaves_log|]. intros _ _.
  by apply behaves_ret.
Qed.

Lemma behaves_download_zipfile download_url output_dir token flatten :
  (∀ p, p `prefix_of` output_dir → allowed p) →
  (∀ p, output_dir `prefix_of` p → allowed p) →
  behaves [GetArchive download_url token]
    (download_zipfile E download_url output_dir token flatten) (λ _, True).
Proof.
  intros Habove Hbelow. unfold download_zipfile.
  apply (behaves_bind [] [_] _ _ (λ _, True)); [by apply behaves_mkdir_parents|].
  intros _ _.
  apply (behaves_bind [] [_] _ _ (λ p, ∃ n, p = temp_name E n));
    [apply behaves_named_temporary_file|].
  intros tmp_path [n ->].
  apply (behaves_try_finally [_] []); [|apply behaves_unlink].
  apply (behaves_bind [] [_] _ _ (λ _, True)); [apply behaves_log|]. intros _ _.
  apply (behaves_bind [_] [] _ _ (λ _, True)); [apply behaves_requests_get_stream|].
  intros response _.
  apply (behaves_bind [] [] _ _ (λ _, True)); [apply behaves_write_chunks|].
  intros bytes_downloaded _.
  apply (behaves_bind [] [] _ _ (λ _, True)); [apply behaves_stat_size|]. intros size _.
  apply (behaves_bind [] [] _ _ (λ _, True)); [apply behaves_log|]. intros _ _.
  destruct (size =? 0).
  - apply (behaves_bind [] [] _ _ (λ _, True)); [apply behaves_log|]. intros _ _.
    by apply behaves_ret.
  - apply (behaves_bind [] [] _ _ (λ _, True)); [apply behaves_log|]. intros _ _.
    apply (behaves_try_except [] []); [by apply behaves_extract_archive|].
    intros e. apply (behaves_bind [] [] _ _ (λ _, True)); [apply behaves_log|].
    intros _ _. apply behaves_raise.
Qed.
End Behaves.

Lemma scanned_touchable E output_dir :
  scan_faithful E →
  ∀ n (m : fsmap) item,
    item ∈ scandir_order E (fs_descendants m (temp_name E n)) →
    touchable E output_dir item.
Proof.
  intros Hscan n m item Hitem. rewrite Hscan in Hitem.
  apply elem_of_fs_descendants in Hitem as [[Hpre _] _].
  right. right. by exists n.
Qed.

(** X15: [download_zipfile] never calls [sys.exit] and always ends (the
    search for a free name included): it returns or raises.  It makes at
    most one request, the one for the archive with the token, and never
    sleeps. *)
Theorem download_zipfile_asks_once E download_url output_dir token flatten w :
  let r := download_zipfile E download_url output_dir token flatten w in
  ((∃ files, r.1 = Ok files) ∨ (∃ e, r.1 = Raise e)) ∧
  ∃ t, w_trace r.2 = w_trace w ++ t ∧
       requests_of t `sublist_of` [GetArchive download_url token] ∧
       sleeps_of t = [].
Proof.
  destruct (behaves_download_zipfile E (λ _, True) (λ _, False)
              ltac:(done) ltac:(done) download_url output_dir token flatten
              ltac:(done) ltac:(done) w) as ([Htrace _] & Hend & _).
  split; [|exact Htrace].
  destruct (download_zipfile _ _ _ _ _ _).1 as [files|e|code|]; [by left; eexists|
    by right; eexists|done..].
Qed.

(** X16: when scans deliver what is there, [download_zipfile] changes the
    file system only at the destination directory, above it (the parents it
    creates), below it, and at or below the temporary names: every other
    path holds after the call what it held before, however the call
    ends. *)
Theorem download_zipfile_touches_only_its_places E download_url output_dir token
    flatten w p :
  scan_faithful E →
  ¬ touchable E output_dir p →
  w_fs (download_zipfile E download_url output_dir token flatten w).2 !! p
  = w_fs w !! p.
Proof.
  intros Hscan Hp.
  destruct (behaves_download_zipfile E (touchable E output_dir) (λ _, False)) with
    (download_url := download_url) (output_dir := output_dir) (token := token)
    (flatten := flatten) (w := w) as ([_ Hfs] & _).
  - intros n q Hq. right. right. by exists n.
  - by apply scanned_touchable.
  - intros q Hq. by left.
  - intros q Hq. right. by left.
  - by apply Hfs.
Qed.

(** ** What the download loop asks for and touches *)

Lemma behaves_download_loop E (allowed : path → Prop) output_path token flatten :
  (∀ n p, temp_name E n `prefix_of` p → allowed p) →
  (∀ n (m : fsmap) item,
     item ∈ scandir_order E (fs_descendants m (temp_name E n)) → allowed item) →
  (∀ p, p `prefix_of` output_path → allowed p) →
  (∀ p, output_path `prefix_of` p → allowed p) →
  ∀ artifacts total_files,
    behaves allowed (λ code, code = 1%Z) (archive_requests token artifacts)
      (download_loop E output_path token flatten artifacts total_files) (λ _, True).
Proof.
  intros Htemp Hscanned Habove Hbelow.
  induction artifacts as [|[name download_url] rest IH]; intros total_files.
  { by apply behaves_ret. }
  cbn [download_loop archive_requests fmap list_fmap snd].
  set (artifact_dir := if flatten then output_path else pjoin output_path name).
  apply (behaves_bind _ _ [] (_ :: _) _ _ (λ _, True)).
  { destruct flatten; cbn [negb]; [by apply behaves_ret|].
    intros w. unfold exists_and_nonempty, bind, get_fs. simpl.
    pose proof (step_refl allowed [] w).
    by destruct (w_fs w !! pjoin output_path name) as [[?|]|]. }
  intros skip _. destruct skip.
  - apply (behaves_bind _ _ [] (_ :: _) _ _ (λ _, True)); [apply behaves_log|].
    intros _ _. eapply behaves_weaken; [|done|apply IH]. by apply sublist_cons.
  - apply (behaves_bind _ _ [_] _ _ _ (λ _, True)); [|intros ? _; apply IH].
    apply (behaves_try_except _ _ [_] []).
    + apply (behaves_bind _ _ [] [_] _ _ (λ _, True)); [apply behaves_log|].
      intros _ _. apply (behaves_bind _ _ [_] [] _ _ (λ _, True)).
      * apply behaves_download_zipfile; [done..| |].
        -- intros p Hp. subst artifact_dir. destruct flatten; [by apply Habove|].
           apply prefix_pjoin_inv in Hp as [->|Hp]; [|by apply Habove].
           apply Hbelow. by eexists.
        -- intros p Hp. subst artifact_dir. destruct flatten; [by apply Hbelow|].
           apply Hbelow. etrans; [|exact Hp]. by eexists.
      * intros files _.
        apply (behaves_bind _ _ [] [] _ _ (λ _, True)); [apply behaves_log|].
        intros _ _. by apply behaves_ret.
    + intros e. apply (behaves_bind _ _ [] [] _ _ (λ _, True)); [apply behaves_log|].
      intros _ _. by apply behaves_sys_exit.
Qed.

(** X17: the download loop asks only for archives of the listing, with the
    token, in the order of the listing and each at most once; it never
    sleeps, it always ends, and the only exit code it uses is 1. *)
Theorem download_loop_asks_in_listing_order E output_path token flatten artifacts
    total_files w :
  let r := download_loop E output_path token flatten artifacts total_files w in
  (∃ t, w_trace r.2 = w_trace w ++ t ∧
        requests_of t `sublist_of` archive_requests token artifacts ∧
        sleeps_of t = []) ∧
  ((∃ total, r.1 = Ok total) ∨ (∃ e, r.1 = Raise e) ∨ r.1 = Exit 1).
Proof.
  destruct (behaves_download_loop E (λ _, True) output_path token flatten
              ltac:(done) ltac:(done) ltac:(done) ltac:(done) artifacts total_files w)
    as ([Htrace _] & Hend & _).
  split; [exact Htrace|].
  destruct (download_loop _ _ _ _ _ _ _).1 as [n|e|code|]; simpl in *; [| | |done].
  - left. by eexists.
  - right. left. by eexists.
  - right. right. by rewrite Hend.
Qed.

(** X18: with flattening on, no failure leaves the download loop as an
    exception: every error of a download is caught, logged and turned into
    an exit, so the loop returns its count or exits with code 1. *)
Theorem flattening_loop_never_raises E output_path token artifacts total_files w :
  let r := download_loop E output_path token true artifacts total_files w in
  (∃ total, r.1 = Ok total) ∨ r.1 = Exit 1.
Proof.
  cbv zeta.
  destruct (behaves_download_loop E (λ _, True) output_path token true
              ltac:(done) ltac:(done) ltac:(done) ltac:(done) artifacts total_files w)
    as (_ & Hend & _).
  assert (∀ e, (download_loop E output_path token true artifacts total_files w).1
               ≠ Raise e) as Hraise.
  { clear Hend. revert total_files w.
    induction artifacts as [|[name download_url] rest IH]; intros total_files w e; [done|].
    cbn [download_loop negb]. unfold bind at 1. unfold ret at 1. cbv iota.
    unfold bind at 1. unfold try_except. unfold bind at 1. rewrite log_spec.
    unfold bind at 1.
    destruct (download_zipfile E download_url output_path token true _)
      as [[files|e'|code|] w1]; cbn [is_Exception]; [|done..].
    unfold bind at 1. rewrite log_spec. unfold ret at 1. apply IH. }
  destruct (download_loop _ _ _ _ _ _ _).1 as [n|e|code|]; simpl in *.
  - left. by eexists.
  - by destruct (Hraise e).
  - right. by rewrite Hend.
  - done.
Qed.

(** ** Exit codes *)

Lemma exits_never {A} (c : M A) :
  (∀ w code, (c w).1 ≠ Exit code) → exits_with_1 c.
Proof. intros Hc w code H. by destruct (Hc w code). Qed.

Lemma exits_ret {A} (a : A) : exits_with_1 (ret a).
Proof. by apply exits_never. Qed.

Lemma exits_raise {A} e : exits_with_1 (@raise A e).
Proof. by apply exits_never. Qed.

Lemma exits_sys_exit {A} : exits_with_1 (@sys_exit A 1).
Proof. by intros w code [= <-]. Qed.

Lemma exits_log lv msg : exits_with_1 (log lv msg).
Proof. by apply exits_never. Qed.

Lemma exits_bind {A B} (c : M A) (k : A → M B) :
  exits_with_1 c → (∀ a, exits_with_1 (k a)) → exits_with_1 (bind c k).
Proof.
  intros Hc Hk w code. unfold bind. specialize (Hc w).
  destruct (c w) as [[a|e|code'|] w1]; simpl in *; try done.
  - apply Hk.
  - intros [= <-]. by apply Hc.
Qed.

Lemma exits_try_except {A} (body : M A) handles handler :
  exits_with_1 body → (∀ e, exits_with_1 (handler e)) →
  exits_with_1 (try_except body handles handler).
Proof.
  intros Hb Hh w code. unfold try_except. specialize (Hb w).
  destruct (body w) as [[a|e|code'|] w1]; simpl in *; try done.
  - destruct (handles e); [apply Hh|done].
  - intros [= <-]. by apply Hb.
Qed.

Lemma exits_get_workflow_run E repo run_id token :
  exits_with_1 (get_workflow_run E repo run_id token).
Proof.
  apply exits_never. intros w code. rewrite get_workflow_run_spec.
  by destruct (run_api _ _ _ _).
Qed.

Lemma exits_send_notification E title message :
  exits_with_1 (send_notification E title message).
Proof. apply exits_never. intros w code. by rewrite send_notification_spec. Qed.

Lemma exits_time_sleep E secs : exits_with_1 (time_sleep E secs).
Proof. apply exits_never. intros w code. unfold time_sleep. by destruct (secs <? 0)%Z. Qed.

Lemma exits_wait_iteration E repo run_id token poll_interval timeout start_time :
  exits_with_1 (wait_iteration E repo run_id token poll_interval timeout start_time).
Proof.
  unfold wait_iteration. apply exits_try_except.
  - apply exits_bind; [apply exits_get_workflow_run|]. intros run. case_bool_decide.
    + apply exits_bind; [apply exits_log|]. intros _. apply exits_ret.
    + apply exits_bind; [by apply exits_never|]. intros now.
      apply exits_bind; [apply exits_log|]. intros _. destruct (Qle_bool _ _).
      * apply exits_bind; [apply exits_log|]. intros _.
        apply exits_bind; [apply exits_send_notification|]. intros _. apply exits_raise.
      * apply exits_bind; [apply exits_time_sleep|]. intros _. apply exits_ret.
  - intros e. apply exits_bind; [apply exits_log|]. intros _. apply exits_raise.
Qed.

Lemma exits_wait_loop E fuel repo run_id token poll_interval timeout start_time :
  exits_with_1 (wait_loop E fuel repo run_id token poll_interval timeout start_time).
Proof.
  induction fuel as [|fuel IH]; simpl; [by apply exits_never|].
  apply exits_bind; [apply exits_wait_iteration|].
  intros [run|]; [apply exits_ret|apply IH].
Qed.

Lemma exits_dict_item key field : exits_with_1 (dict_item key field).
Proof. destruct field; [apply exits_ret|apply exits_raise]. Qed.

Lemma exits_obtain_run E fuel repo run_id token wait poll_interval timeout :
  exits_with_1 (obtain_run E fuel repo run_id token wait poll_interval timeout).
Proof.
  unfold obtain_run. apply exits_bind.
  - apply exits_try_except.
    + apply exits_bind; [apply exits_get_workflow_run|]. intros run.
      repeat (apply exits_bind; [apply exits_dict_item|]; intros ?).
      apply exits_bind; [apply exits_log|]. intros _. apply exits_ret.
    + intros e. apply exits_bind; [apply exits_log|]. intros _. apply exits_sys_exit.
  - intros run. destruct (_ && _); [|apply exits_ret].
    apply exits_bind; [apply exits_log|]. intros _. apply exits_try_except.
    + unfold wait_for_workflow_completion.
      apply exits_bind; [by apply exits_never|]. intros start. apply exits_wait_loop.
    + intros e. apply exits_bind; [apply exits_log|]. intros _. apply exits_sys_exit.
Qed.

Lemma exits_check_conclusion E run_id run : exits_with_1 (check_conclusion E run_id run).
Proof.
  unfold check_conclusion. repeat case_bool_decide.
  - apply exits_bind; [apply exits_log|]. intros _. apply exits_send_notification.
  - apply exits_bind; [apply exits_log|]. intros _.
    apply exits_bind; [apply exits_send_notification|]. intros _.
    apply exits_bind; [apply exits_log|]. intros _. apply exits_sys_exit.
  - apply exits_bind; [apply exits_log|]. intros _. apply exits_sys_exit.
Qed.

Lemma exits_collect_artifacts data :
  ∀ artifacts, exits_with_1 (collect_artifacts data artifacts).
Proof.
  induction data as [|a data IH]; intros acc; simpl; [apply exits_ret|].
  destruct (negb _); [|apply IH].
  destruct (aj_name a); [|apply exits_raise].
  destruct (aj_archive_download_url a); [|apply exits_raise].
  apply exits_bind; [apply exits_log|]. intros _. apply IH.
Qed.

Lemma exits_list_artifacts E repo run_id token :
  exits_with_1 (list_artifacts E repo run_id token).
Proof.
  unfold list_artifacts. apply exits_bind; [apply exits_log|]. intros _.
  apply exits_bind; [by apply exits_never|]. intros _.
  apply exits_bind; [by apply exits_never|]. intros n.
  destruct (artifacts_api E n repo run_id); [apply exits_raise..|].
  apply exits_bind; [apply exits_collect_artifacts|]. intros artifacts.
  apply exits_bind; [|intros _; apply exits_ret].
  destruct artifacts; [apply exits_log|apply exits_ret].
Qed.

Lemma exits_download_loop E output_path token flatten artifacts total_files :
  exits_with_1 (download_loop E output_path token flatten artifacts total_files).
Proof.
  intros w code Hexit.
  destruct (behaves_download_loop E (λ _, True) output_path token flatten
              ltac:(done) ltac:(done) ltac:(done) ltac:(done) artifacts total_files w)
    as (_ & Hend & _).
  by rewrite Hexit in Hend.
Qed.

Lemma exits_resolve_token E token : exits_with_1 (resolve_token E token).
Proof.
  apply exits_never. intros w code. unfold resolve_token, get_github_token.
  destruct token; [done|].
  destruct (env_GITHUB_TOKEN E) as [[|c s]|]; try done;
    by destruct (ghtoken E) as [[?|]|].
Qed.

Lemma exits_download_artifacts E fuel repo run_id output_dir token flatten wait
    poll_interval timeout :
  exits_with_1 (download_artifacts E fuel repo run_id output_dir token flatten wait
                  poll_interval timeout).
Proof.
  unfold download_artifacts. apply exits_bind; [apply exits_resolve_token|]. intros tok.
  apply exits_bind; [apply exits_obtain_run|]. intros run.
  apply exits_bind; [apply exits_check_conclusion|]. intros _.
  apply exits_bind.
  { apply exits_try_except; [apply exits_list_artifacts|]. intros e.
    apply exits_bind; [apply exits_log|]. intros _. apply exits_sys_exit. }
  intros artifacts. apply exits_bind.
  { destruct artifacts; [|apply exits_ret].
    apply exits_bind; [apply exits_log|]. intros _. apply exits_sys_exit. }
  intros _. apply exits_bind; [apply exits_download_loop|]. intros total.
  apply exits_log.
Qed.

Lemma exits_parse_input unicode_Nd encode args :
  exits_with_1 (parse_input unicode_Nd encode args).
Proof.
  unfold parse_input. destruct (_ || _).
  - apply exits_bind; [|intros ?; apply exits_ret]. apply exits_try_except.
    + apply exits_never. intros w code. unfold pure_outcome, parse_run_url. cbn [fst].
      by destruct (re_match unicode_Nd run_url_pattern (arg_input args))
        as [[|? [|? [|? [|? ?]]]]|].
    + intros e. apply exits_bind; [apply exits_log|]. intros _. apply exits_sys_exit.
  - destruct (arg_run_id_or_output args) as [[|c run_id]|]; [|apply exits_ret|];
      (apply exits_bind; [apply exits_log|]; intros _; apply exits_sys_exit).
Qed.

Lemma exits_main E unicode_Nd encode to_path fuel args :
  exits_with_1 (main E unicode_Nd encode to_path fuel args).
Proof.
  unfold main. apply exits_bind; [apply exits_parse_input|].
  intros [[repo run_id] output_dir]. apply exits_try_except.
  - apply exits_download_artifacts.
  - intros e. apply exits_bind; [apply exits_log|]. intros _. apply exits_sys_exit.
Qed.


(** ** The command line *)

(** X20: [main] sends an input that starts with [http://] to
    [parse_run_url], whose pattern wants [https://]: such an input is always
    answered with the error message and exit code 1, and nothing is
    requested. *)
Theorem plain_http_url_is_rejected E unicode_Nd encode to_path fuel args w :
  startswith (arg_input args) "http://" = true →
  main E unicode_Nd encode to_path fuel args w
  = (Exit 1,
     add_events [EvLog ERROR (LMessage (invalid_url_msg encode (arg_input args)))] w).
Proof.
  intros Hhttp. apply bool_decide_eq_true in Hhttp as [rest Hrest].
  unfold main. erewrite bind_Exit; [reflexivity|].
  unfold parse_input, startswith.
  rewrite (bool_decide_eq_true_2 (lit "http://" `prefix_of` arg_input args));
    [by exists rest|].
  cbn [orb]. erewrite bind_Exit; [reflexivity|].
  unfold try_except, pure_outcome. rewrite Hrest.
  change (parse_run_url unicode_Nd (lit "http://" ++ rest)) with (@Raise (pystr * pystr) ValueError).
  cbn [is_ValueError]. unfold bind. by rewrite log_spec.
Qed.

(** X21: in the [owner/repo] form a missing or empty run id is answered with
    the usage message and exit code 1, and nothing is requested. *)
Theorem missing_run_id_is_rejected E unicode_Nd encode to_path fuel args w :
  startswith (arg_input args) "http://" = false →
  startswith (arg_input args) "https://" = false →
  arg_run_id_or_output args = None ∨ arg_run_id_or_output args = Some [] →
  main E unicode_Nd encode to_path fuel args w
  = (Exit 1, add_events [EvLog ERROR (LMessage usage_msg)] w).
Proof.
  intros Hhttp Hhttps Hrun. unfold main. erewrite bind_Exit; [reflexivity|].
  unfold parse_input. rewrite Hhttp Hhttps. cbn [orb].
  destruct Hrun as [-> | ->]; unfold bind; by rewrite log_spec.
Qed.

(** X22: for a run URL, [main] downloads from the repository and the run
    the URL names, into the directory given by the second positional
    argument; the third positional argument is not looked at. *)
Theorem run_url_selects_repo_and_run E unicode_Nd encode to_path fuel args w
    owner repo run_id rest :
  is_run_url unicode_Nd (arg_input args) owner repo run_id rest →
  main E unicode_Nd encode to_path fuel args w
  = try_except
      (download_artifacts E fuel (encode (owner ++ lit "/" ++ repo)) (encode run_id)
         (to_path <$> arg_run_id_or_output args) (encode <$> arg_token args)
         (negb (arg_no_flatten args)) (negb (arg_no_wait args))
         (arg_poll_interval args) (arg_timeout args))
      is_RuntimeError
      (λ e, log ERROR (LMessage (match e with RuntimeError msg => msg | _ => "" end)) ;;;
            sys_exit 1) w.
Proof.
  intros Hurl. pose proof (parse_run_url_accepts _ _ _ _ _ _ Hurl) as Hparse.
  destruct Hurl as (Hshape & _).
  unfold main. erewrite bind_Ok; last first.
  { unfold parse_input, startswith.
    rewrite (bool_decide_eq_true_2 (lit "https://" `prefix_of` arg_input args)).
    { rewrite Hshape. by exists (lit "github.com/" ++ owner ++ lit "/" ++ repo
                                   ++ lit "/actions/runs/" ++ run_id ++ rest). }
    rewrite orb_true_r. erewrite bind_Ok; [reflexivity|].
    unfold try_except, pure_outcome. by rewrite Hparse. }
  reflexivity.
Qed.

(** ** Notifications are best effort *)


(** ** The order of the requests *)

Lemma wait_loop_requests E repo run_id token poll_interval timeout start :
  ∀ fuel w, ∃ k t,
    w_trace (wait_loop E fuel repo run_id token poll_interval timeout start w).2
    = w_trace w ++ t ∧
    requests_of t = replicate k (GetRun repo run_id token).
Proof.
  induction fuel as [|fuel IH]; intros w.
  { exists 0, []. by rewrite app_nil_r. }
  assert (∀ evs, ∃ k t,
            w_trace (add_events evs (after_fetch E repo run_id token w)) = w_trace w ++ t ∧
            (requests_of evs = [] →
             requests_of t = replicate k (GetRun repo run_id token))) as Hone.
  { intros evs. exists 1, (fetch_events repo run_id token ++ evs).
    split; [cbn [add_events after_fetch w_trace]; by rewrite app_assoc|].
    intros Hevs. by rewrite requests_of_app Hevs. }
  rewrite wait_loop_S. unfold bind at 1.
  destruct (run_api E (w_calls w) repo run_id) as [| |run] eqn:Hapi.
  - rewrite iteration_http_fail //.
    destruct (Hone [EvLog ERROR LFetchStatusFailed]) as (k & t & Ht & Hr).
    exists k, t. split; [done|by apply Hr].
  - rewrite iteration_net_fault //.
    destruct (Hone []) as (k & t & Ht & Hr).
    exists k, t. split; [|by apply Hr].
    by rewrite -Ht /add_events /= app_nil_r.
  - destruct (decide (dict_get (rj_status run) = JStr "completed")) as [Hdone|Hrunning].
    { rewrite (iteration_completed _ _ _ _ _ _ _ _ _ Hapi Hdone).
      match goal with |- context [add_events ?evs _] =>
        destruct (Hone evs) as (k & t & Ht & Hr) end.
      exists k, t. split; [done|by apply Hr]. }
    destruct (Qle_bool (inject_Z timeout)
                (w_now (after_fetch E repo run_id token w) - start)) eqn:Htest.
    { rewrite (iteration_timeout _ _ _ _ _ _ _ _ _ Hapi Hrunning Htest).
      match goal with |- context [add_events ?evs _] =>
        destruct (Hone evs) as (k & t & Ht & Hr) end.
      exists k, t. split; [done|]. apply Hr.
      by rewrite !requests_of_log requests_of_notification. }
    rewrite (iteration_sleep _ _ _ _ _ _ _ _ _ Hapi Hrunning Htest).
    match goal with |- context [add_events ?evs (after_fetch _ _ _ _ w)] =>
      destruct (Hone evs) as (k & t & Ht & Hr) end.
    destruct (poll_interval <? 0)%Z.
    { exists k, t. split; [done|by apply Hr]. }
    match goal with |- context [wait_loop _ _ _ _ _ _ _ _ ?w2] =>
      destruct (IH w2) as (k2 & t2 & Ht2 & Hr2) end.
    exists (k + k2), (t ++ [EvSleep poll_interval] ++ t2). split.
    + rewrite Ht2. cbn [after_sleep w_trace]. rewrite Ht -!app_assoc. reflexivity.
    + by rewrite !requests_of_app Hr // Hr2 /= replicate_add.
Qed.

Lemma obtain_run_requests E fuel repo run_id token wait poll_interval timeout w :
  ∃ k t,
    w_trace (obtain_run E fuel repo run_id token wait poll_interval timeout w).2
    = w_trace w ++ t ∧
    requests_of t = replicate (S k) (GetRun repo run_id token).
Proof.
  assert (∀ evs, ∃ t,
            w_trace (add_events evs (after_fetch E repo run_id token w)) = w_trace w ++ t ∧
            (requests_of evs = [] → requests_of t = [GetRun repo run_id token])) as Hone.
  { intros evs. exists (fetch_events repo run_id token ++ evs).
    split; [cbn [add_events after_fetch w_trace]; by rewrite app_assoc|].
    intros Hevs. by rewrite requests_of_app Hevs. }
  destruct (run_api E (w_calls w) repo run_id) as [| |run] eqn:Hapi.
  - destruct (Hone [EvLog ERROR LFetchRunFailed]) as (t & Ht & Hr).
    exists 0, t. split; [|by apply Hr]. rewrite -Ht.
    unfold obtain_run. unfold bind at 1. unfold try_except. unfold bind at 1.
    rewrite get_workflow_run_spec Hapi. cbn [is_HTTPError]. unfold bind at 1.
    by rewrite log_spec.
  - destruct (Hone []) as (t & Ht & Hr).
    exists 0, t. split; [|by apply Hr]. rewrite -Ht.
    unfold obtain_run. unfold bind at 1. unfold try_except. unfold bind at 1.
    rewrite get_workflow_run_spec Hapi. by rewrite /add_events /= app_nil_r.
  - destruct (decide (has_all_keys run)) as [Hkeys|Hmissing].
    + rewrite (obtain_run_fetched _ _ _ _ _ _ _ _ _ _ Hapi Hkeys). cbv zeta.
      match goal with |- context [add_events ?evs (after_fetch _ _ _ _ w)] =>
        destruct (Hone evs) as (t & Ht & Hr) end.
      destruct (wait && _).
      * unfold bind at 1. rewrite log_spec. unfold try_except.
        unfold wait_for_workflow_completion. unfold bind at 1. unfold time_time at 1.
        set (w2 := add_events [EvLog INFO LWaitingForWorkflow] _).
        destruct (wait_loop_requests E repo run_id token poll_interval timeout
                    (w_now w2) fuel w2) as (k2 & t2 & Ht2 & Hr2).
        assert (w_trace w2 = w_trace w ++ t ++ [EvLog INFO LWaitingForWorkflow]) as Hw2.
        { subst w2. cbn [add_events w_trace]. cbn [add_events w_trace] in Ht.
          by rewrite Ht -app_assoc. }
        assert (requests_of (t ++ [EvLog INFO LWaitingForWorkflow] ++ t2)
                = replicate (S k2) (GetRun repo run_id token)) as Hall.
        { by rewrite !requests_of_app Hr // Hr2. }
        destruct (wait_loop E fuel repo run_id token poll_interval timeout (w_now w2) w2)
          as [[run'|e|code|] w3]; cbn [snd] in Ht2.
        -- exists k2, (t ++ [EvLog INFO LWaitingForWorkflow] ++ t2).
           split; [by rewrite /= Ht2 Hw2 -!app_assoc|done].
        -- destruct (is_RuntimeError e).
           ++ unfold bind at 1. rewrite log_spec.
              eexists k2, ((t ++ [EvLog INFO LWaitingForWorkflow] ++ t2) ++ [_]).
              split; [by rewrite /= Ht2 Hw2 -!app_assoc|].
              by rewrite requests_of_app Hall /= app_nil_r.
           ++ exists k2, (t ++ [EvLog INFO LWaitingForWorkflow] ++ t2).
              split; [by rewrite /= Ht2 Hw2 -!app_assoc|done].
        -- exists k2, (t ++ [EvLog INFO LWaitingForWorkflow] ++ t2).
           split; [by rewrite /= Ht2 Hw2 -!app_assoc|done].
        -- exists k2, (t ++ [EvLog INFO LWaitingForWorkflow] ++ t2).
           split; [by rewrite /= Ht2 Hw2 -!app_assoc|done].
      * exists 0, t. split; [done|by apply Hr].
    + destruct (Hone []) as (t & Ht & Hr).
      exists 0, t. split; [|by apply Hr]. rewrite -Ht.
      unfold obtain_run. unfold bind at 1. unfold try_except. unfold bind at 1.
      rewrite get_workflow_run_spec Hapi. cbv beta iota.
      destruct run as [st co na nu]. unfold has_all_keys in Hmissing. simpl in *.
      destruct nu as [nu|]; [|by rewrite /add_events /= app_nil_r].
      destruct na as [na|]; [|by rewrite /add_events /= app_nil_r].
      destruct st as [st|]; [|by rewrite /add_events /= app_nil_r].
      destruct co as [co|]; [|by rewrite /add_events /= app_nil_r].
      destruct Hmissing. by split_and!.
Qed.

Lemma check_conclusion_quiet E run_id run w :
  ∃ t, (check_conclusion E run_id run w).2 = add_events t w ∧ requests_of t = [].
Proof.
  unfold check_conclusion. repeat case_bool_decide.
  - unfold bind at 1. rewrite log_spec send_notification_spec add_events_app.
    eexists. split; [reflexivity|].
    by rewrite requests_of_log requests_of_notification.
  - unfold bind at 1. rewrite log_spec. unfold bind at 1.
    rewrite send_notification_spec. unfold bind at 1. rewrite log_spec.
    rewrite /sys_exit !add_events_app. eexists. split; [reflexivity|].
    by rewrite requests_of_log requests_of_app requests_of_notification.
  - unfold bind at 1. rewrite log_spec. by eexists.
Qed.

Lemma collect_artifacts_quiet data :
  ∀ artifacts w, ∃ t,
    (collect_artifacts data artifacts w).2 = add_events t w ∧ requests_of t = [].
Proof.
  assert (∀ w, add_events [] w = w) as Hnil.
  { intros [? ? ? ?]. by rewrite /add_events /= app_nil_r. }
  induction data as [|a data IH]; intros acc w; simpl.
  { exists []. by rewrite Hnil. }
  destruct (negb _); [|apply IH].
  destruct (aj_name a) as [name|]; [|exists []; by rewrite Hnil].
  destruct (aj_archive_download_url a) as [url|]; [|exists []; by rewrite Hnil].
  unfold bind at 1. rewrite log_spec.
  destruct (IH (acc ++ [(name, url)]) (add_events [EvLog INFO (LFoundArtifact name)] w))
    as (t & -> & Hr).
  rewrite add_events_app. eexists. split; [reflexivity|]. by rewrite requests_of_log.
Qed.

Lemma list_artifacts_requests E repo run_id token w :
  w_fs (list_artifacts E repo run_id token w).2 = w_fs w ∧
  ∃ t, w_trace (list_artifacts E repo run_id token w).2 = w_trace w ++ t ∧
       requests_of t = [GetArtifacts repo run_id token].
Proof.
  destruct (artifacts_api E (w_calls w) repo run_id) as [| |data] eqn:Hapi.
  - rewrite list_artifacts_fails Hapi. split; [done|]. by eexists.
  - rewrite list_artifacts_fails Hapi. split; [done|]. by eexists.
  - assert (list_artifacts E repo run_id token w
            = bind (collect_artifacts (default [] data) [])
                (λ artifacts,
                   (if artifacts is [] then log WARNING LNoNonExpired else ret ()) ;;;
                   ret artifacts) (after_listing E repo run_id token w)) as ->.
    { unfold list_artifacts. unfold bind at 1. rewrite log_spec. unfold bind at 1.
      unfold emit at 1. unfold bind at 1. unfold external_call at 1.
      cbn [w_calls w_fs w_now w_trace add_events]. rewrite Hapi.
      by rewrite /after_listing -app_assoc. }
    set (w0 := after_listing E repo run_id token w).
    assert (w_trace w0
            = w_trace w
              ++ [ EvLog INFO (LFetchingArtifacts
                                 (request_url (GetArtifacts repo run_id token)));
                   EvRequest (GetArtifacts repo run_id token) ]) as Hw0 by done.
    assert (w_fs w0 = w_fs w) as Hfs0 by done.
    clearbody w0. unfold bind.
    destruct (collect_artifacts_quiet (default [] data) [] w0) as (t & Ht & Hr).
    destruct (collect_artifacts (default [] data) [] w0) as [[artifacts|e|code|] w1];
      cbn [snd] in Ht; subst w1.
    + destruct artifacts; unfold ret; rewrite ?log_spec; cbn [snd];
        (split; [done|]); eexists; cbn [add_events w_trace];
        (split; [rewrite Hw0 -!app_assoc; reflexivity|]);
        by rewrite !requests_of_app Hr.
    + split; [done|]. eexists. cbn [snd add_events w_trace].
      split; [rewrite Hw0 -!app_assoc; reflexivity|]. by rewrite requests_of_app Hr.
    + split; [done|]. eexists. cbn [snd add_events w_trace].
      split; [rewrite Hw0 -!app_assoc; reflexivity|]. by rewrite requests_of_app Hr.
    + split; [done|]. eexists. cbn [snd add_events w_trace].
      split; [rewrite Hw0 -!app_assoc; reflexivity|]. by rewrite requests_of_app Hr.
Qed.

(** X24: the requests of [download_artifacts] follow one order: the run is
    asked for first, once or (while polling) several times; then, if at
    all, the listing, once; and only after the listing, archives.  All are
    sent for the same repository and run, with the same token. *)
Theorem requests_follow_the_protocol E fuel repo run_id output_dir token flatten
    wait poll_interval timeout w tok :
  resolve_token E token w = (Ok tok, w) →
  ∃ t k rest,
    w_trace (download_artifacts E fuel repo run_id output_dir token flatten wait
               poll_interval timeout w).2 = w_trace w ++ t ∧
    requests_of t = replicate (S k) (GetRun repo run_id tok) ++ rest ∧
    (rest = [] ∨
     ∃ archives, rest = GetArtifacts repo run_id tok :: archives ∧
                 Forall (is_archive_request tok) archives).
Proof.
  intros Htok. unfold download_artifacts. rewrite (bind_Ok _ _ _ _ _ Htok).
  destruct (obtain_run_requests E fuel repo run_id tok wait poll_interval timeout w)
    as (k & t1 & Ht1 & Hr1).
  unfold bind at 1.
  destruct (obtain_run E fuel repo run_id tok wait poll_interval timeout w)
    as [[run|e|code|] w1]; cbn [snd] in Ht1;
    [|exists t1, k, []; rewrite app_nil_r; split_and!; [done..|by left]..].
  destruct (check_conclusion_quiet E run_id run w1) as (t2 & Ht2 & Hr2).
  unfold bind at 1.
  destruct (check_conclusion E run_id run w1) as [[[]|e|code|] w2]; cbn [snd] in Ht2;
    subst w2;
    [|exists (t1 ++ t2), k, []; cbn [snd add_events w_trace];
      rewrite Ht1 requests_of_app Hr1 Hr2 -app_assoc !app_nil_r;
      split_and!; [done..|by left]..].
  set (w2 := add_events t2 w1).
  assert (w_trace w2 = w_trace w ++ t1 ++ t2) as Hw2.
  { subst w2. cbn [add_events w_trace]. by rewrite Ht1 -app_assoc. }
  destruct (list_artifacts_requests E repo run_id tok w2) as (_ & t3 & Ht3 & Hr3).
  assert (∀ w3 w' t4,
            w_trace w3 = w_trace w2 ++ t3 → w_trace w' = w_trace w3 ++ t4 →
            Forall (is_archive_request tok) (requests_of t4) →
            ∃ t k rest,
              w_trace w' = w_trace w ++ t ∧
              requests_of t = replicate (S k) (GetRun repo run_id tok) ++ rest ∧
              (rest = [] ∨
               ∃ archives, rest = GetArtifacts repo run_id tok :: archives ∧
                           Forall (is_archive_request tok) archives)) as Hfinish.
  { intros w3 w' t4 Hw3 Hw' Harch.
    exists (t1 ++ t2 ++ t3 ++ t4), k, (GetArtifacts repo run_id tok :: requests_of t4).
    split_and!.
    - by rewrite Hw' Hw3 Hw2 -!app_assoc.
    - by rewrite !requests_of_app Hr1 Hr2 Hr3.
    - right. by eexists. }
  unfold bind at 1. unfold try_except.
  destruct (list_artifacts E repo run_id tok w2) as [[artifacts|e|code|] w3];
    cbn [snd] in Ht3.
  - unfold bind at 1.
    destruct artifacts as [|a artifacts].
    { unfold bind at 1. rewrite log_spec. cbn [snd].
      by apply (Hfinish w3 _ [EvLog ERROR LNoArtifacts]). }
    unfold ret at 1. cbv iota. unfold bind at 1.
    destruct (behaves_download_loop E (λ _, True)
                (default ["artifacts-" +:+ run_id] output_dir) tok flatten
                ltac:(done) ltac:(done) ltac:(done) ltac:(done) (a :: artifacts) 0 w3)
      as ([(t4 & Ht4 & Hr4 & _) _] & _ & _).
    assert (Forall (is_archive_request tok) (requests_of t4)) as Harch.
    { apply Forall_forall. intros r Hr.
      pose proof (elem_of_sublist _ _ _ Hr Hr4) as Hin.
      apply list_elem_of_fmap in Hin as ([name url] & Heq & _). by exists url. }
    destruct (download_loop E _ tok flatten (a :: artifacts) 0 w3)
      as [[total|e|code|] w4]; cbn [snd] in Ht4;
      [|by apply (Hfinish w3 _ t4)..].
    rewrite log_spec. cbn [snd].
    apply (Hfinish w3 _ (t4 ++ [EvLog INFO (LAllDownloaded
                                   (default ["artifacts-" +:+ run_id] output_dir) total)]));
      [done| |].
    + cbn [add_events w_trace]. by rewrite Ht4 -app_assoc.
    + by rewrite requests_of_app /= app_nil_r.
  - destruct (is_HTTPError e).
    + unfold bind at 1. rewrite log_spec. cbn [snd].
      by apply (Hfinish w3 _ [EvLog ERROR LListFailed]).
    + apply (Hfinish w3 _ []); [done|by rewrite app_nil_r|done].
  - apply (Hfinish w3 _ []); [done|by rewrite app_nil_r|done].
  - apply (Hfinish w3 _ []); [done|by rewrite app_nil_r|done].
Qed.

(** ** What the whole download touches *)

Global Instance outside_refl allowed : Reflexive (outside allowed).
Proof. by intros w p Hp. Qed.

Global Instance outside_trans allowed : Transitive (outside allowed).
Proof. intros w1 w2 w3 H1 H2 p Hp. by rewrite H2 // H1. Qed.

Lemma respects_same_fs allowed {A} (c : M A) :
  (∀ w, w_fs (c w).2 = w_fs w) → respects (outside allowed) c.
Proof. intros Hc w p Hp. by rewrite Hc. Qed.


(** ** The downloaded archive is always removed *)

(** X26: once the destination directory could be made, the temporary file
    of the download is gone when [download_zipfile] is left, however it
    ends. *)
Theorem downloaded_archive_is_always_removed E download_url output_dir token flatten
    w m1 :
  fs_makedirs [] output_dir (w_fs w) = (m1, true) →
  w_fs (download_zipfile E download_url output_dir token flatten w).2
    !! temp_name E (w_calls w) = None.
Proof.
  intros Hmk.
  destruct (behaves_download_zipfile E (λ _, True) (λ _, False)
              ltac:(done) ltac:(done) download_url output_dir token flatten
              ltac:(done) ltac:(done) w) as (_ & Hend & _).
  revert Hend. unfold download_zipfile.
  assert (mkdir_parents output_dir w = (Ok (), set_fs m1 w)) as H1.
  { unfold mkdir_parents, bind, get_fs. by rewrite Hmk. }
  rewrite (bind_Ok _ _ _ _ _ H1).
  erewrite bind_Ok; [|reflexivity]. cbn [w_calls set_fs].
  unfold try_finally.
  destruct (bind _ _ _) as [[files|e|code|] w1]; [| | |done];
    intros _; simpl; apply lookup_delete_eq.
Qed.

(** ** A second run without flattening *)

(** X27: without flattening, when every artifact of the listing already has
    a directory that holds something, the loop skips them all: it returns
    the count it started with, logs one record per artifact, requests
    nothing and leaves the file system alone. *)
Theorem rerun_skips_every_artifact E output_path token artifacts :
  ∀ total_files w,
    Forall (λ a, w_fs w !! pjoin output_path a.1 = Some Dir ∧
                 fs_children (w_fs w) (pjoin output_path a.1) ≠ []) artifacts →
    download_loop E output_path token false artifacts total_files w
    = (Ok total_files,
       add_events
         ((λ a, EvLog INFO (LArtifactExists a.1 (pjoin output_path a.1))) <$> artifacts)
         w).
Proof.
  induction artifacts as [|[name download_url] rest IH]; intros total_files w Hall.
  { simpl. by rewrite /add_events /= app_nil_r; destruct w. }
  apply Forall_cons in Hall as [[Hdir Hfull] Hrest]. simpl in Hdir, Hfull.
  cbn [download_loop negb]. unfold bind at 1.
  unfold exists_and_nonempty. unfold bind at 1. unfold get_fs at 1. rewrite Hdir.
  unfold ret at 1. rewrite bool_decide_eq_false_2 //. cbn [negb].
  unfold bind at 1. rewrite log_spec IH //.
  rewrite add_events_app. done.
Qed.

(** ** A run that never completes *)

Lemma wait_loop_times_out E repo run_id token poll_interval timeout start :
  clock_monotone E →
  (0 ≤ poll_interval)%Z →
  never_completed E repo run_id →
  ∀ n fuel w,
    n < fuel →
    (inject_Z timeout
     <= (w_now w - start) + inject_Z (Z.of_nat n) * inject_Z poll_interval)%Q →
    (wait_loop E fuel repo run_id token poll_interval timeout start w).1
    = Raise (RuntimeError (timeout_msg timeout)).
Proof.
  intros Hmono Hpoll Hnever n. induction n as [|n IH]; intros fuel w Hfuel Hbudget;
    (destruct fuel as [|fuel]; [lia|]); rewrite wait_loop_S;
    pose proof (Hmono (w_calls w)) as Hlat;
    destruct (Hnever (w_calls w)) as (run & Hapi & Hrunning);
    unfold bind at 1;
    (destruct (Qle_bool (inject_Z timeout)
                 (w_now (after_fetch E repo run_id token w) - start)) eqn:Htest;
     [by rewrite (iteration_timeout _ _ _ _ _ _ _ _ _ Hapi Hrunning Htest)|]);
    pose proof Htest as Htest'; apply Qle_bool_false in Htest';
    cbn [w_now after_fetch] in Htest'.
  - exfalso. change (inject_Z (Z.of_nat 0)) with 0%Q in Hbudget. lra.
  - rewrite (iteration_sleep _ _ _ _ _ _ _ _ _ Hapi Hrunning Htest).
    destruct (Z.ltb_spec poll_interval 0) as [Hneg|_]; [lia|].
    apply IH; [lia|].
    cbn [w_now after_sleep add_events after_fetch].
    pose proof (Hmono (S (w_calls w))) as Hlat2.
    cbn [w_calls add_events after_fetch] in *.
    rewrite Nat2Z.inj_succ -Z.add_1_r inject_Z_plus in Hbudget.
    change (inject_Z 1) with 1%Q in Hbudget. lra.
Qed.


(** ** What is recorded without flattening *)

Lemma try_finally_Ok_worlds {A} (body : M A) fin w a w' :
  try_finally body fin w = (Ok a, w') →
  ∃ w1, body w = (Ok a, w1) ∧ fin w1 = (Ok (), w').
Proof.
  unfold try_finally. destruct (body w) as [[a1|e|code|] w1]; [| | |done];
    destruct (fin w1) as [[[]| | |] w2] eqn:Hfin; intros [= <- <-] || intros [=].
  by exists w1.
Qed.

Global Instance keeps_files_below_refl d : Reflexive (keeps_files_below d).
Proof. by intros w g Hg. Qed.

Global Instance keeps_files_below_trans d : Transitive (keeps_files_below d).
Proof. intros w1 w2 w3 H1 H2 g Hg Hfile. by apply H2, H1. Qed.

Lemma fs_is_file_weaken (m m' : fsmap) (g : path) :
  m ⊆ m' → fs_is_file m g = true → fs_is_file m' g = true.
Proof.
  intros Hsub. unfold fs_is_file.
  destruct (m !! g) as [[data|]|] eqn:Hg; try done.
  by rewrite (lookup_weaken _ _ _ _ Hg Hsub).
Qed.

Lemma fs_is_file_insert_other (m : fsmap) (p g : path) (x : node) :
  p ≠ g → fs_is_file m g = true → fs_is_file (<[p := x]> m) g = true.
Proof. intros Hne. unfold fs_is_file. by rewrite lookup_insert_ne. Qed.

Lemma fs_extract_member_keeps_files (target : path) (e : zip_entry) (m : fsmap)
    (g : path) :
  fs_is_file m g = true → fs_is_file (fs_extract_member target e m).1 g = true.
Proof.
  intros Hfile. unfold fs_extract_member.
  pose proof (fs_makedirs_grows (removelast (ze_path e)) target m) as Hgrow.
  destruct (fs_makedirs _ _ m) as [m1 [|]]; cbn [fst] in *;
    [|by eapply fs_is_file_weaken].
  assert (fs_is_file m1 g = true) as Hfile1 by by eapply fs_is_file_weaken.
  assert (∀ x, m1 !! (target ++ ze_path e) = None →
               fs_is_file (<[target ++ ze_path e := x]> m1) g = true) as Hnew.
  { intros x Hnone. apply fs_is_file_insert_other; [|done].
    intros <-. by rewrite /fs_is_file Hnone in Hfile1. }
  assert (∀ data, fs_is_file (<[target ++ ze_path e := File data]> m1) g = true)
    as Hreplace.
  { intros data. unfold fs_is_file.
    destruct (decide (target ++ ze_path e = g)) as [<-|Hne].
    - by rewrite lookup_insert_eq.
    - by rewrite lookup_insert_ne. }
  destruct (ze_is_dir e).
  - destruct (m1 !! (target ++ ze_path e)) as [[?|]|] eqn:Hp; cbn [fst]; auto.
  - destruct (ze_readable e); cbn [negb fst]; [|done].
    destruct (m1 !! (target ++ ze_path e)) as [[?|]|] eqn:Hp; cbn [fst]; auto.
Qed.

Lemma extractall_keeps_files entries target d :
  respects (keeps_files_below d) (extractall entries target).
Proof.
  induction entries as [|e rest IH]; [apply respects_ret, _|].
  intros w. rewrite extractall_cons.
  assert (keeps_files_below d w (set_fs (fs_extract_member target e (w_fs w)).1 w))
    as Hstep.
  { intros g _. apply fs_extract_member_keeps_files. }
  destruct (fs_extract_member _ e (w_fs w)) as [m' [err|]]; cbn [fst snd] in *; [done|].
  etrans; [exact Hstep|apply IH].
Qed.

Lemma bind_log {A} lv msg (k : unit → M A) w :
  bind (log lv msg) k w = k () (add_events [EvLog lv msg] w).
Proof. unfold bind. by rewrite log_spec. Qed.

Lemma named_temporary_file_spec E w :
  named_temporary_file E w
  = (Ok (temp_name E (w_calls w)),
     World (<[temp_name E (w_calls w) := File ""]> (w_fs w))
       (w_now w + latency E (w_calls w))%Q (S (w_calls w)) (w_trace w)).
Proof. reflexivity. Qed.

Lemma mkdtemp_spec E w :
  mkdtemp E w
  = (Ok (temp_name E (w_calls w)),
     World (<[temp_name E (w_calls w) := Dir]> (w_fs w))
       (w_now w + latency E (w_calls w))%Q (S (w_calls w)) (w_trace w)).
Proof. reflexivity. Qed.

(** X29: without flattening, a download that returns a non-empty list has
    recorded every regular file that is then below the destination and not
    named [artifact.zip], not only the members of the archive: a regular
    file that was below the destination before the download is still a
    regular file and is recorded with them. *)
Theorem nonflatten_records_every_file_below E download_url output_dir token w
    files w' :
  scan_faithful E →
  (∀ n p, temp_name E n `prefix_of` p → ¬ below output_dir p) →
  download_zipfile E download_url output_dir token false w = (Ok files, w') →
  files ≠ [] →
  (∀ f, f ∈ files ↔
        below output_dir f ∧ fs_is_file (w_fs w') f = true ∧
        path_name f ≠ wrapper_name) ∧
  (∀ g, below output_dir g → fs_is_file (w_fs w) g = true →
        path_name g ≠ wrapper_name → g ∈ files).
Proof.
  intros Hscan Htemp H Hfiles.
  assert (∀ n g, below output_dir g → temp_name E n ≠ g) as Hne.
  { intros n g Hg <-. by eapply Htemp. }
  unfold download_zipfile in H.
  (* the destination and the temporary file *)
  apply bind_Ok_inv in H as (u1 & w1 & Hmk & H).
  assert (keeps_files_below output_dir w w1) as K1.
  { intros g _. unfold mkdir_parents, bind, get_fs in Hmk.
    pose proof (fs_makedirs_grows output_dir [] (w_fs w)) as Hgrow.
    destruct (fs_makedirs [] output_dir (w_fs w)) as [m' [|]]; [|done].
    injection Hmk as _ <-. by apply fs_is_file_weaken. }
  clear Hmk u1.
  rewrite (bind_Ok _ _ _ _ _ (named_temporary_file_spec E w1)) in H.
  set (tmp_path := temp_name E (w_calls w1)) in *.
  apply try_finally_Ok_worlds in H as (w9 & H & Hunlink).
  assert (w_fs w' = delete tmp_path (w_fs w9)) as Fend.
  { unfold unlink, bind, get_fs, put_fs in Hunlink. by injection Hunlink as <-. }
  clear Hunlink.
  (* the download *)
  rewrite bind_log in H.
  apply bind_Ok_inv in H as (response & w3 & Hget & H).
  assert (w_fs w3 = <[tmp_path := File ""]> (w_fs w1)) as F3.
  { unfold requests_get_stream, bind, emit, external_call in Hget. cbn in Hget.
    destruct (archive_api E _ download_url); try done. by injection Hget as _ <-. }
  clear Hget.
  apply bind_Ok_inv in H as (bytes_downloaded & w4 & Hwrite & H).
  assert (∃ data, w_fs w4 = <[tmp_path := File data]> (w_fs w1)) as [data F4].
  { unfold write_chunks, bind, get_fs, put_fs in Hwrite. cbn in Hwrite.
    destruct response.2; [|done]. injection Hwrite as _ <-. cbn.
    rewrite F3 insert_insert_eq. by eexists. }
  clear Hwrite F3 w3.
  apply bind_Ok_inv in H as (size & w5 & Hstat & H).
  assert (w5 = w4) as ->.
  { unfold stat_size, bind, get_fs in Hstat. cbn in Hstat.
    destruct (w_fs w4 !! tmp_path) as [[?|]|]; try done. by injection Hstat as _ <-. }
  clear Hstat. rewrite bind_log in H.
  destruct (size =? 0).
  { rewrite bind_log in H. by injection H as <- _. }
  rewrite bind_log in H. apply try_except_reraise_Ok_inv in H.
  (* the archive *)
  unfold extract_archive in H.
  apply bind_Ok_inv in H as (file_list & w6 & Hzip & H).
  assert (w_fs w6 = w_fs w4) as F6.
  { unfold ZipFile, bind, get_fs in Hzip. cbn in Hzip.
    destruct (w_fs _ !! tmp_path) as [[d|]|]; try done.
    destruct (unzip E d); [|done]. by injection Hzip as _ <-. }
  clear Hzip. rewrite bind_log in H.
  apply bind_Ok_inv in H as (u7 & w7 & Hentries & H).
  assert (w_fs w7 = w_fs w4) as F7.
  { destruct file_list; [by injection Hentries as _ <-|].
    rewrite log_spec in Hentries. by injection Hentries as _ <-. }
  clear Hentries F6 w6 u7.
  rewrite (bind_Ok _ _ _ _ _ (mkdtemp_spec E w7)) in H.
  set (tdir := temp_name E (w_calls w7)) in *.
  apply bind_Ok_inv in H as (u10 & w10 & Hex1 & H).
  pose proof (extractall_keeps_files file_list tdir output_dir
                (World (<[tdir := Dir]> (w_fs w7)) (w_now w7 + latency E (w_calls w7))%Q
                   (S (w_calls w7)) (w_trace w7))) as K10.
  rewrite Hex1 in K10. cbn [snd] in K10. clear Hex1 u10.
  apply bind_Ok_inv in H as (extracted_files & w11 & Hblock & H).
  apply bind_Ok_inv in Hblock as (u12 & w12 & Hex2 & Hblock).
  pose proof (extractall_keeps_files file_list output_dir output_dir w10) as K12.
  rewrite Hex2 in K12. cbn [snd] in K12. clear Hex2 u12.
  unfold rglob, bind, get_fs, ret in Hblock. injection Hblock as <- <-.
  unfold shutil_rmtree, bind, get_fs, put_fs in H. rewrite log_spec in H.
  injection H as <- <-. rewrite Fend. cbn [w_fs add_events].
  (* below the destination, the end is the file system that was scanned *)
  assert (∀ f, below output_dir f →
               delete tmp_path (fs_rmtree tdir (w_fs w12)) !! f = w_fs w12 !! f) as Hend.
  { intros f Hf. rewrite lookup_delete_ne; [by apply Hne|].
    unfold fs_rmtree. destruct (w_fs w12 !! f) as [x|] eqn:Hlook.
    - apply map_lookup_filter_Some. split; [done|]. simpl. intros Hpre.
      by eapply Htemp.
    - apply map_lookup_filter_None. by left. }
  assert (∀ f, f ∈ filter (λ item, fs_is_file (w_fs w12) item ∧
                                   path_name item ≠ wrapper_name)
                     (scandir_order E (fs_descendants (w_fs w12) output_dir)) ↔
               below output_dir f ∧ fs_is_file (w_fs w12) f = true ∧
               path_name f ≠ wrapper_name) as Hrec.
  { intros f. rewrite list_elem_of_filter Hscan elem_of_fs_descendants. split.
    - intros [[Hfile Hname] [Hbelow _]]. by apply Is_true_true in Hfile.
    - intros (Hbelow & Hfile & Hname). split_and!; [by apply Is_true_true|done..|].
      unfold fs_is_file in Hfile. by destruct (w_fs w12 !! f). }
  split.
  - intros f. rewrite Hrec. unfold fs_is_file.
    split; intros (Hbelow & Hfile & Hname); (split_and!; [done| |done]).
    + by rewrite Hend.
    + by rewrite Hend in Hfile.
  - intros g Hbelow Hfile Hname. apply Hrec. split_and!; [done| |done].
    apply K12, K10; [done..|]. unfold fs_is_file. cbn [w_fs].
    rewrite lookup_insert_ne; [by apply Hne|]. fold (fs_is_file (w_fs w7) g).
    rewrite F7 F4. apply fs_is_file_insert_other; [by apply Hne|]. by apply K1.
Qed.

(** ** The further properties at work *)

Lemma list_artifacts_returns_unexpired_in_order_witness :
  artifacts_api scenario (w_calls fresh_world) "acme/app" "123"
  = Body (Some [ ArtifactJson (Some (JBool false)) (Some "logs") (Some logs_url);
                 ArtifactJson (Some (JBool false)) (Some "build") (Some build_url) ]) ∧
  (list_artifacts scenario "acme/app" "123" "token" fresh_world).1
  = Ok [("logs", logs_url); ("build", build_url)].
Proof.
  assert (artifacts_api scenario (w_calls fresh_world) "acme/app" "123"
          = Body (Some [ ArtifactJson (Some (JBool false)) (Some "logs") (Some logs_url);
                         ArtifactJson (Some (JBool false)) (Some "build")
                           (Some build_url) ])) as Hapi by reflexivity.
  assert (Forall well_formed_entry
            (default [] (Some [ ArtifactJson (Some (JBool false)) (Some "logs")
                                  (Some logs_url);
                                ArtifactJson (Some (JBool false)) (Some "build")
                                  (Some build_url) ]))) as Hwf.
  { repeat constructor; by eexists. }
  destruct (list_artifacts_returns_unexpired_in_order scenario "acme/app" "123" "token"
              fresh_world _ Hapi Hwf) as (w' & Hrun & _).
  split; [exact Hapi|]. by rewrite Hrun.
Defined.

Lemma list_artifacts_missing_key_witness :
  available (ArtifactJson None None (Some build_url)) = true ∧
  (list_artifacts nameless_listing "acme/app" "123" "token" fresh_world).1
  = Raise (KeyError "name").
Proof.
  assert (artifacts_api nameless_listing (w_calls fresh_world) "acme/app" "123"
          = Body (Some ([ArtifactJson (Some (JBool false)) (Some "logs") (Some logs_url)]
                        ++ ArtifactJson None None (Some build_url) :: []))) as Hapi
    by reflexivity.
  assert (Forall well_formed_entry
            [ArtifactJson (Some (JBool false)) (Some "logs") (Some logs_url)]) as Hwf.
  { repeat constructor; by eexists. }
  assert (available (ArtifactJson None None (Some build_url)) = true) as Hav
    by reflexivity.
  destruct (list_artifacts_missing_key nameless_listing "acme/app" "123" "token"
              fresh_world _ _ _ Hapi Hwf Hav (or_introl eq_refl)) as (w' & Hrun & _).
  split; [exact Hav|]. by rewrite Hrun.
Defined.

Lemma completed_run_is_not_polled_witness :
  has_all_keys (completed_run (JStr "success")) ∧
  dict_get (rj_status (completed_run (JStr "success"))) = JStr "completed" ∧
  ∃ w1,
    obtain_run scenario 0 "acme/app" "123" "token" true 60 1800 fresh_world
    = (Ok (completed_run (JStr "success")), w1) ∧
    sleeps_of (w_trace w1) = [].
Proof.
  assert (run_api scenario (w_calls fresh_world) "acme/app" "123"
          = Body (completed_run (JStr "success"))) as Hapi by reflexivity.
  assert (has_all_keys (completed_run (JStr "success"))) as Hkeys.
  { split_and!; by eexists. }
  assert (dict_get (rj_status (completed_run (JStr "success"))) = JStr "completed")
    as Hdone by reflexivity.
  destruct (completed_run_is_not_polled scenario 0 "acme/app" "123" "token" true 60 1800
              fresh_world _ Hapi Hkeys Hdone) as (w1 & Hrun & _ & Hsleeps & _).
  split_and!; [done..|]. by exists w1.
Defined.

Lemma first_fetch_failure_witness :
  resolve_token rejected_fetch None fresh_world = (Ok "token", fresh_world) ∧
  (download_artifacts rejected_fetch 0 "acme/app" "123" (Some ["out"]) None true true
     60 1800 fresh_world).1 = Exit 1.
Proof.
  assert (resolve_token rejected_fetch None fresh_world = (Ok "token", fresh_world))
    as Htok by reflexivity.
  destruct (first_fetch_failure rejected_fetch 0 "acme/app" "123" (Some ["out"]) None
              true true 60 1800 fresh_world "token" Htok) as [Hhttp _].
  split; [exact Htok|]. by rewrite Hhttp.
Defined.

Lemma polling_ends_within_budget_witness :
  clock_monotone still_running ∧ (100 ≤ Z.of_nat 2 * 60)%Z ∧ 2 < 3 ∧
  ∃ r w' k,
    wait_for_workflow_completion still_running 3 "acme/app" "123" "token" 60 100
      fresh_world = (r, w') ∧
    r ≠ OutOfFuel ∧ k ≤ 2.
Proof.
  assert (clock_monotone still_running) as Hmono by (by intros n).
  assert (100 ≤ Z.of_nat 2 * 60)%Z as Hbudget by lia.
  assert (2 < 3) as Hfuel by lia.
  destruct (polling_ends_within_budget still_running 2 3 "acme/app" "123" "token" 60 100
              fresh_world Hmono Hbudget Hfuel) as (r & w' & k & Hrun & Hr & Hk & _).
  split; [exact Hmono|]. split; [exact Hbudget|]. split; [exact Hfuel|].
  exists r, w', k. split; [exact Hrun|]. split; [exact Hr|exact Hk].
Defined.

Lemma polling_http_error_escapes_witness :
  resolve_token rejected_while_polling (Some "token") fresh_world
  = (Ok "token", fresh_world) ∧
  has_all_keys running_run ∧
  dict_get (rj_status running_run) ≠ JStr "completed" ∧
  (download_artifacts rejected_while_polling 1 "acme/app" "123" (Some ["out"])
     (Some "token") true true 60 1800 fresh_world).1 = Raise HTTPError.
Proof.
  assert (resolve_token rejected_while_polling (Some "token") fresh_world
          = (Ok "token", fresh_world)) as Htok by reflexivity.
  assert (run_api rejected_while_polling (w_calls fresh_world) "acme/app" "123"
          = Body running_run) as Hapi by reflexivity.
  assert (has_all_keys running_run) as Hkeys.
  { split_and!; by eexists. }
  assert (dict_get (rj_status running_run) ≠ JStr "completed") as Hrunning
    by (by intros [=]).
  assert (run_api rejected_while_polling (S (w_calls fresh_world)) "acme/app" "123"
          = HttpFail) as Hfail by reflexivity.
  destruct (polling_http_error_escapes rejected_while_polling 0 "acme/app" "123"
              (Some ["out"]) (Some "token") true 60 1800 fresh_world "token" _
              Htok Hapi Hkeys Hrunning Hfail) as (w' & Hrun & _).
  split_and!; [done..|]. by rewrite Hrun.
Defined.



Lemma missing_token_exits_witness :
  arg_token owner_repo_args = None ∧
  env_GITHUB_TOKEN no_token = Some "" ∧
  ghtoken no_token = Some None ∧
  main no_token ascii_digit ascii_text single_component 0 owner_repo_args fresh_world
  = (Exit 1, add_events [EvLog ERROR (LMessage token_missing_msg)] fresh_world).
Proof.
  assert (parse_input ascii_digit ascii_text owner_repo_args fresh_world
          = (Ok (lit "acme/app", lit "123", None), fresh_world)) as Hparse
    by (vm_compute; reflexivity).
  split_and!; [reflexivity..|].
  exact (missing_token_exits no_token ascii_digit ascii_text single_component 0
           owner_repo_args fresh_world _ _ Hparse eq_refl (or_intror eq_refl)
           (or_intror eq_refl)).
Defined.

Lemma artifact_dir_is_a_file_witness :
  w_fs blocked_world !! pjoin ["out"] "logs" = Some (File "not a directory") ∧
  download_loop scenario ["out"] "token" false
    [("logs", logs_url); ("build", build_url)] 0 blocked_world
  = (Raise OSError, blocked_world).
Proof.
  assert (w_fs blocked_world !! pjoin ["out"] "logs" = Some (File "not a directory"))
    as Hfile by reflexivity.
  split; [exact Hfile|].
  exact (artifact_dir_is_a_file scenario ["out"] "token" "logs" logs_url
           [("build", build_url)] 0 blocked_world _ Hfile).
Defined.

Lemma failed_download_stops_loop_witness :
  (download_zipfile corrupt_archive logs_url ["out"] "token" true
     (add_events [EvLog INFO (LDownloadingArtifact "logs")] fresh_world)).1
  = Raise BadZipFile ∧
  (download_loop corrupt_archive ["out"] "token" true
     [("logs", logs_url); ("build", build_url)] 0 fresh_world).1 = Exit 1.
Proof.
  assert (download_zipfile corrupt_archive logs_url (if true then ["out"] else pjoin ["out"] "logs")
            "token" true
            (add_events [EvLog INFO (LDownloadingArtifact "logs")] fresh_world)
          = (Raise BadZipFile,
             (download_zipfile corrupt_archive logs_url ["out"] "token" true
                (add_events [EvLog INFO (LDownloadingArtifact "logs")] fresh_world)).2))
    as Hfail by (vm_compute; reflexivity).
  assert (true = false → w_fs fresh_world !! pjoin ["out"] "logs" = None) as Hdir
    by (by intros [=]).
  split; [by rewrite Hfail|].
  by rewrite (failed_download_stops_loop corrupt_archive ["out"] "token" true "logs"
                logs_url [("build", build_url)] 0 fresh_world _ _ Hdir Hfail).
Defined.

Lemma poller_returns_completed_run_witness :
  (wait_for_workflow_completion scenario 1 "acme/app" "123" "token" 60 1800
     fresh_world).1 = Ok (completed_run (JStr "success")) ∧
  dict_get (rj_status (completed_run (JStr "success"))) = JStr "completed".
Proof.
  assert (wait_for_workflow_completion scenario 1 "acme/app" "123" "token" 60 1800
            fresh_world
          = (Ok (completed_run (JStr "success")),
             (wait_for_workflow_completion scenario 1 "acme/app" "123" "token" 60 1800
                fresh_world).2)) as Hrun by (vm_compute; reflexivity).
  destruct (poller_returns_completed_run scenario 1 "acme/app" "123" "token" 60 1800
              fresh_world _ _ Hrun) as (Hdone & _).
  split; [by rewrite Hrun|exact Hdone].
Defined.

Lemma transport_failure_leaves_no_file_witness :
  archive_api rejected_download (S (w_calls fresh_world)) logs_url = HttpFail ∧
  ∃ w',
    download_zipfile rejected_download logs_url ["out"] "token" true fresh_world
    = (Raise HTTPError, w') ∧
    w_fs w' = (fs_makedirs [] ["out"] (w_fs fresh_world)).1.
Proof.
  assert (fs_makedirs [] ["out"] (w_fs fresh_world)
          = ((fs_makedirs [] ["out"] (w_fs fresh_world)).1, true)) as Hmk
    by (vm_compute; reflexivity).
  assert ((fs_makedirs [] ["out"] (w_fs fresh_world)).1
            !! temp_name rejected_download (w_calls fresh_world) = None) as Hfresh
    by (vm_compute; reflexivity).
  assert (archive_api rejected_download (S (w_calls fresh_world)) logs_url = HttpFail)
    as Hapi by reflexivity.
  destruct (transport_failure_leaves_no_file rejected_download logs_url ["out"] "token"
              true fresh_world _ Hmk Hfresh) as (w' & Hfs & _ & Hhttp & _).
  split; [exact Hapi|]. exists w'. split; [exact (Hhttp Hapi)|exact Hfs].
Defined.

Lemma bad_archive_leaves_no_file_witness :
  archive_api garbage_download (S (w_calls fresh_world)) logs_url
  = Body (["<html>"; "oops"], true) ∧
  unzip garbage_download "<html>oops" = None ∧
  ∃ w',
    download_zipfile garbage_download logs_url ["out"] "token" true fresh_world
    = (Raise BadZipFile, w') ∧
    w_fs w' = (fs_makedirs [] ["out"] (w_fs fresh_world)).1.
Proof.
  assert (fs_makedirs [] ["out"] (w_fs fresh_world)
          = ((fs_makedirs [] ["out"] (w_fs fresh_world)).1, true)) as Hmk
    by (vm_compute; reflexivity).
  assert ((fs_makedirs [] ["out"] (w_fs fresh_world)).1
            !! temp_name garbage_download (w_calls fresh_world) = None) as Hfresh
    by (vm_compute; reflexivity).
  assert (archive_api garbage_download (S (w_calls fresh_world)) logs_url
          = Body (["<html>"; "oops"], true)) as Hapi by reflexivity.
  assert (sum_list (String.length <$> ["<html>"; "oops"]) ≠ 0) as Hbytes by done.
  assert (unzip garbage_download
            (foldr String.append "" (filter (λ chunk, chunk ≠ "") ["<html>"; "oops"]))
          = None) as Hunzip by reflexivity.
  destruct (bad_archive_leaves_no_file garbage_download logs_url ["out"] "token" true
              fresh_world _ _ Hmk Hfresh Hapi Hbytes Hunzip) as (w' & Hrun & Hfs & _).
  split; [exact Hapi|]. split; [reflexivity|].
  exists w'. split; [exact Hrun|exact Hfs].
Defined.

Lemma elsewhere_not_touchable :
  ¬ touchable scenario ["out"] ["home"; "notes.txt"].
Proof.
  intros [[k Hk]|[[k Hk]|[n [k Hk]]]]; simpl in Hk; discriminate.
Qed.

Lemma download_zipfile_touches_only_its_places_witness :
  scan_faithful scenario ∧
  ¬ touchable scenario ["out"] ["home"; "notes.txt"] ∧
  w_fs (download_zipfile scenario build_url ["out"] "token" true kept_world).2
    !! ["home"; "notes.txt"] = Some (File "mine").
Proof.
  split; [exact scenario_scan_faithful|]. split; [exact elsewhere_not_touchable|].
  rewrite (download_zipfile_touches_only_its_places scenario build_url ["out"] "token"
             true kept_world ["home"; "notes.txt"] scenario_scan_faithful
             elsewhere_not_touchable).
  reflexivity.
Defined.

Lemma run_url_selects_repo_and_run_witness :
  is_run_url ascii_digit (arg_input run_url_args) (lit "acme") (lit "app") (lit "123") [] ∧
  main scenario ascii_digit ascii_text single_component 0 run_url_args fresh_world
  = try_except
      (download_artifacts scenario 0 "acme/app" "123" (Some ["out"]) (Some "token")
         true true 60 1800)
      is_RuntimeError
      (λ e, log ERROR (LMessage (match e with RuntimeError msg => msg | _ => "" end)) ;;;
            sys_exit 1) fresh_world.
Proof.
  assert (is_run_url ascii_digit (arg_input run_url_args) (lit "acme") (lit "app")
            (lit "123") []) as Hurl.
  { split; [reflexivity|]. split; [done|].
    split; [by apply (bool_decide_unpack _)|]. split; [done|].
    split; [by apply (bool_decide_unpack _)|]. split; [done|].
    split; [by apply (bool_decide_unpack _)|]. by intros x [=]. }
  split; [exact Hurl|].
  exact (run_url_selects_repo_and_run scenario ascii_digit ascii_text single_component 0
           run_url_args fresh_world _ _ _ _ Hurl).
Defined.

Lemma requests_follow_the_protocol_witness :
  resolve_token scenario None fresh_world = (Ok "token", fresh_world) ∧
  ∃ t k rest,
    w_trace (download_artifacts scenario 0 "acme/app" "123" (Some ["out"]) None true
               true 60 1800 fresh_world).2 = w_trace fresh_world ++ t ∧
    requests_of t = replicate (S k) (GetRun "acme/app" "123" "token") ++ rest.
Proof.
  assert (resolve_token scenario None fresh_world = (Ok "token", fresh_world))
    as Htok by reflexivity.
  destruct (requests_follow_the_protocol scenario 0 "acme/app" "123" (Some ["out"]) None
              true true 60 1800 fresh_world "token" Htok)
    as (t & k & rest & Ht & Hr & _).
  split; [exact Htok|]. exists t, k, rest. split; [exact Ht|exact Hr].
Defined.


Lemma downloaded_archive_is_always_removed_witness :
  (fs_makedirs [] ["out"] (w_fs fresh_world)).2 = true ∧
  w_fs (download_zipfile corrupt_archive logs_url ["out"] "token" true fresh_world).2
    !! temp_name corrupt_archive (w_calls fresh_world) = None.
Proof.
  assert (fs_makedirs [] ["out"] (w_fs fresh_world)
          = ((fs_makedirs [] ["out"] (w_fs fresh_world)).1, true)) as Hmk
    by (vm_compute; reflexivity).
  split; [by rewrite Hmk|].
  exact (downloaded_archive_is_always_removed corrupt_archive logs_url ["out"] "token"
           true fresh_world _ Hmk).
Defined.

Lemma rerun_skips_every_artifact_witness :
  w_fs downloaded_world !! pjoin ["out"] "logs" = Some Dir ∧
  fs_children (w_fs downloaded_world) (pjoin ["out"] "logs") ≠ [] ∧
  download_loop scenario ["out"] "token" false [("logs", logs_url)] 0 downloaded_world
  = (Ok 0,
     add_events [EvLog INFO (LArtifactExists "logs" ["out"; "logs"])] downloaded_world).
Proof.
  assert (w_fs downloaded_world !! pjoin ["out"] "logs" = Some Dir) as Hdir
    by reflexivity.
  assert (fs_children (w_fs downloaded_world) (pjoin ["out"] "logs") ≠ []) as Hfull.
  { assert (fs_children (w_fs downloaded_world) (pjoin ["out"] "logs")
            = [["out"; "logs"; "run.log"]]) as -> by (vm_compute; reflexivity).
    discriminate. }
  split; [exact Hdir|]. split; [exact Hfull|].
  apply (rerun_skips_every_artifact scenario ["out"] "token" [("logs", logs_url)] 0
           downloaded_world).
  constructor; [split; [exact Hdir|exact Hfull]|constructor].
Defined.


Lemma temp_names_apart_from_out :
  ∀ n p, temp_name scenario n `prefix_of` p → ¬ below ["out"] p.
Proof. intros n p [k ->] [[k' Hk'] _]. simpl in Hk'. discriminate. Qed.

Lemma nonflatten_records_every_file_below_witness :
  scan_faithful scenario ∧
  below ["out"] ["out"; "old.txt"] ∧
  fs_is_file (w_fs kept_world) ["out"; "old.txt"] = true ∧
  (download_zipfile scenario build_url ["out"] "token" false kept_world).1
  = Ok [["out"; "old.txt"]; ["out"; "app.bin"]] ∧
  ["out"; "old.txt"] ∈ [["out"; "old.txt"]; ["out"; "app.bin"]].
Proof.
  assert (download_zipfile scenario build_url ["out"] "token" false kept_world
          = (Ok [["out"; "old.txt"]; ["out"; "app.bin"]],
             (download_zipfile scenario build_url ["out"] "token" false kept_world).2))
    as Hrun by (vm_compute; reflexivity).
  assert ([["out"; "old.txt"]; ["out"; "app.bin"]] ≠ []) as Hfiles by discriminate.
  assert (below ["out"] ["out"; "old.txt"]) as Hbelow.
  { split; [by exists ["old.txt"]|discriminate]. }
  assert (fs_is_file (w_fs kept_world) ["out"; "old.txt"] = true) as Hfile
    by reflexivity.
  assert ("old.txt" ≠ wrapper_name) as Hname by discriminate.
  destruct (nonflatten_records_every_file_below scenario build_url ["out"] "token"
              kept_world _ _ scenario_scan_faithful temp_names_apart_from_out Hrun Hfiles)
    as [_ Hold].
  split; [exact scenario_scan_faithful|]. split; [exact Hbelow|].
  split; [exact Hfile|]. split; [by rewrite Hrun|].
  exact (Hold ["out"; "old.txt"] Hbelow Hfile Hname).
Defined.

Lemma plain_http_url_is_rejected_witness :
  startswith (arg_input plain_http_args) "http://" = true ∧
  (main scenario ascii_digit ascii_text single_component 0 plain_http_args
     fresh_world).1 = Exit 1.
Proof.
  assert (startswith (arg_input plain_http_args) "http://" = true) as Hhttp
    by (vm_compute; reflexivity).
  split; [exact Hhttp|].
  by rewrite (plain_http_url_is_rejected scenario ascii_digit ascii_text
                single_component 0 plain_http_args fresh_world Hhttp).
Defined.

Lemma missing_run_id_is_rejected_witness :
  startswith (arg_input no_run_id_args) "http://" = false ∧
  startswith (arg_input no_run_id_args) "https://" = false ∧
  arg_run_id_or_output no_run_id_args = Some [] ∧
  (main scenario ascii_digit ascii_text single_component 0 no_run_id_args
     fresh_world).1 = Exit 1.
Proof.
  assert (startswith (arg_input no_run_id_args) "http://" = false) as Hhttp
    by (vm_compute; reflexivity).
  assert (startswith (arg_input no_run_id_args) "https://" = false) as Hhttps
    by (vm_compute; reflexivity).
  split; [exact Hhttp|]. split; [exact Hhttps|]. split; [reflexivity|].
  by rewrite (missing_run_id_is_rejected scenario ascii_digit ascii_text
                single_component 0 no_run_id_args fresh_world Hhttp Hhttps
                (or_intror eq_refl)).
Defined.
